(** * Me-API Playground: a shallow embedding of the backend

  The development follows the layout of the server:
  - [Js]: the few JavaScript primitives the handlers rely on
    (truthiness, [String.prototype.trim], [split], [parseInt]);
  - [Http]: JSON bodies and responses;
  - [Errors]: middleware/errorHandler.js ([AppError], [errorHandler]);
  - [Auth]: middleware/auth.js ([authenticateToken], [login],
    [requireAuth]);
  - [Db]: the four tables behind the Prisma client;
  - [ProfileRoutes]: the /api/profile router;
  - [QueryRoutes]: the /api/projects and /api/search handlers together
    with the [validateQuery] and [paginate] middleware;
  - [ProfileRead] and [StatsRoutes]: GET /api/profile, /api/skills and
    /api/stats.

  JavaScript numbers are modelled as exact integers ([Z]) and strings as
  sequences of code units below 256. The body of a login request holds
  arbitrary JSON values. The fields of a profile body are modelled at the
  types of the documented schemas; a skill is a string or an object with a
  name and an optional level, which is any integer. The database refuses a
  level that its 32-bit column cannot hold, and its sequences are not
  rolled back. *)

From Stdlib Require Import ZArith String Ascii List Lia.
From stdpp Require Import base option list strings sorting.

Local Open Scope string_scope.
Local Open Scope Z_scope.

Set Warnings "-register-all".

(* ===================================================================== *)
(** ** JavaScript primitives *)
(* ===================================================================== *)

Module Js.

(** [!!s] for a value that is either [undefined] or a string. *)
Definition truthy (v : option string) : bool :=
  match v with
  | None => false
  | Some s => negb (String.eqb s "")
  end.

(** [a || b] on possibly-undefined numbers: [0] and [undefined] are
    falsy. [NaN] is represented by [None]. *)
Definition num_or (v : option Z) (d : Z) : Z :=
  match v with
  | Some n => if n =? 0 then d else n
  | None => d
  end.

(** White space removed by [trim]: the code units below 256 of the
    ECMAScript WhiteSpace and LineTerminator productions (tab, line feed,
    vertical tab, form feed, carriage return, space, no-break space). *)
Definition is_space (c : ascii) : bool :=
  let n := nat_of_ascii c in
  (n =? 32)%nat || (n =? 9)%nat || (n =? 10)%nat || (n =? 11)%nat
  || (n =? 12)%nat || (n =? 13)%nat || (n =? 160)%nat.

Fixpoint trim_start (s : string) : string :=
  match s with
  | String c rest => if is_space c then trim_start rest else s
  | EmptyString => EmptyString
  end.

(** Drops the trailing white space: a character is kept when something
    that is not white space follows it or it is not white space. *)
Fixpoint trim_end (s : string) : string :=
  match s with
  | EmptyString => EmptyString
  | String c rest =>
      match trim_end rest with
      | EmptyString => if is_space c then EmptyString else String c EmptyString
      | kept => String c kept
      end
  end.

Definition trim (s : string) : string := trim_end (trim_start s).

(** [s.split(sep)] for a one-character separator. *)
Fixpoint split (sep : ascii) (s : string) : list string :=
  match s with
  | EmptyString => [EmptyString]
  | String c rest =>
      if Ascii.eqb c sep then EmptyString :: split sep rest
      else match split sep rest with
           | w :: ws => String c w :: ws
           | [] => [String c EmptyString]
           end
  end.

(** [parts.join(sep)] *)
Fixpoint join (sep : string) (parts : list string) : string :=
  match parts with
  | [] => ""
  | [p] => p
  | p :: ps => p ++ sep ++ join sep ps
  end.

Definition digit_value (c : ascii) : option Z :=
  let n := Z.of_nat (nat_of_ascii c) in
  if (48 <=? n) && (n <=? 57) then Some (n - 48)
  else if (97 <=? n) && (n <=? 102) then Some (n - 87)
  else if (65 <=? n) && (n <=? 70) then Some (n - 55)
  else None.

(** Longest prefix of digits below [radix], accumulated left to right;
    the flag tells whether at least one digit was read. *)
Fixpoint read_digits (radix : Z) (s : string) (seen : bool) (acc : Z)
  : bool * Z :=
  match s with
  | EmptyString => (seen, acc)
  | String c rest =>
      match digit_value c with
      | Some d =>
          if d <? radix then read_digits radix rest true (acc * radix + d)
          else (seen, acc)
      | None => (seen, acc)
      end
  end.

Definition strip_hex_prefix (s : string) : option string :=
  match s with
  | String "0" (String "x" rest) => Some rest
  | String "0" (String "X" rest) => Some rest
  | _ => None
  end.

Definition parse_unsigned (s : string) : option Z :=
  let '(radix, digits) :=
    match strip_hex_prefix s with
    | Some rest => (16, rest)
    | None => (10, s)
    end in
  match read_digits radix digits false 0 with
  | (true, n) => Some n
  | (false, _) => None
  end.

(** [parseInt(s)] without a radix argument; [None] stands for [NaN]. *)
Definition parseInt (s : string) : option Z :=
  match trim_start s with
  | String "-" rest => Z.opp <$> parse_unsigned rest
  | String "+" rest => parse_unsigned rest
  | t => parse_unsigned t
  end.

(** Lower-casing of the ASCII letters, the case folding used for
    [mode: 'insensitive'] matching. *)
Definition lower (c : ascii) : ascii :=
  let n := nat_of_ascii c in
  if ((65 <=? n) && (n <=? 90))%nat then ascii_of_nat (n + 32) else c.

Fixpoint lower_string (s : string) : string :=
  match s with
  | EmptyString => EmptyString
  | String c rest => String (lower c) (lower_string rest)
  end.

End Js.

(* ===================================================================== *)
(** ** JSON bodies and HTTP responses *)
(* ===================================================================== *)

Module Http.

Inductive json : Type :=
| JNull
| JBool (b : bool)
| JNum (n : Z)
| JStr (s : string)
| JArr (items : list json)
| JObj (fields : list (string * json)).

Fixpoint assoc (k : string) (fields : list (string * json)) : option json :=
  match fields with
  | [] => None
  | (k', v) :: rest => if String.eqb k k' then Some v else assoc k rest
  end.

(** [body.k]: [None] when the body is not an object or lacks the key. *)
Definition field (k : string) (body : json) : option json :=
  match body with
  | JObj fields => assoc k fields
  | _ => None
  end.

(** [!!v] for a value read from a parsed JSON body; [None] stands for
    [undefined]. *)
Definition json_truthy (v : option json) : bool :=
  match v with
  | None | Some JNull => false
  | Some (JBool b) => b
  | Some (JNum n) => negb (n =? 0)
  | Some (JStr s) => negb (String.eqb s "")
  | Some (JArr _) | Some (JObj _) => true
  end.

(** [v === s] for a string [s]. *)
Definition is_the_string (s : string) (v : option json) : bool :=
  match v with
  | Some (JStr t) => String.eqb s t
  | _ => false
  end.

Definition is_string (v : option json) : bool :=
  match v with
  | Some (JStr _) => true
  | _ => false
  end.

Definition opt_str (v : option string) : json :=
  match v with
  | Some s => JStr s
  | None => JNull
  end.

Record Response := mkResponse { status : nat; body : json }.

(** [res.status(code).json({ error, code })] *)
Definition error_body (message code : string) : json :=
  JObj [("error", JStr message); ("code", JStr code)].

Definition is_error (r : Response) : bool := (400 <=? status r)%nat.

(** The documented error contract: a string [error] and a string [code]. *)
Definition well_shaped_error (r : Response) : bool :=
  is_string (field "error" (body r)) && is_string (field "code" (body r)).

End Http.

Import Http.

(* ===================================================================== *)
(** ** middleware/errorHandler.js *)
(* ===================================================================== *)

Module Errors.

(** The fields of a thrown JavaScript error that [errorHandler] reads.
    [err_errors] is the list of the [message]s of [Object.values(err.errors)]
    when the error carries an [errors] object. *)
Record JsError := mkJsError {
  err_name : string;
  err_message : string;
  err_statusCode : option nat;
  err_code : option string;
  err_isOperational : bool;
  err_errors : option (list string);
  err_stack : string
}.

(** [new AppError(message, statusCode, code)] *)
Definition AppError (message : string) (statusCode : nat) (code : option string)
  : JsError :=
  {| err_name := "Error";
     err_message := message;
     err_statusCode := Some statusCode;
     err_code := code;
     err_isOperational := true;
     err_errors := None;
     err_stack := "" |}.

(** An error raised by the Prisma client with the given error code. *)
Definition PrismaError (code message : string) : JsError :=
  {| err_name := "PrismaClientKnownRequestError";
     err_message := message;
     err_statusCode := None;
     err_code := Some code;
     err_isOperational := false;
     err_errors := None;
     err_stack := "" |}.

(** The [switch (err.code)] of the "Prisma errors" block. *)
Definition prisma_case (code : string) : JsError :=
  if String.eqb code "P2002" then
    AppError "Duplicate field value" 400 (Some "DUPLICATE_ENTRY")
  else if String.eqb code "P2025" then
    AppError "Record not found" 404 (Some "NOT_FOUND")
  else if String.eqb code "P2003" then
    AppError "Foreign key constraint failed" 400 (Some "FOREIGN_KEY_CONSTRAINT")
  else
    AppError "Database error" 500 (Some "DATABASE_ERROR").

(** [error.statusCode || 500] *)
Definition status_or_500 (e : JsError) : nat :=
  match err_statusCode e with
  | Some O | None => 500%nat
  | Some n => n
  end.

(** [error.code || 'INTERNAL_ERROR'] *)
Definition code_or_internal (e : JsError) : string :=
  match err_code e with
  | Some c => if String.eqb c "" then "INTERNAL_ERROR" else c
  | None => "INTERNAL_ERROR"
  end.

(** [errorHandler(err, req, res, next)]. [development] is
    [process.env.NODE_ENV === 'development']. The result is [None] when the
    handler itself throws, which happens only when a [ValidationError]
    carries no [errors] object. *)
Definition errorHandler (development : bool) (err : JsError)
  : option Response :=
  let error := err in
  let error :=
    if Js.truthy (err_code err) then prisma_case (default "" (err_code err))
    else error in
  let error :=
    if String.eqb (err_name err) "JsonWebTokenError"
    then AppError "Invalid token" 401 (Some "INVALID_TOKEN") else error in
  let error :=
    if String.eqb (err_name err) "TokenExpiredError"
    then AppError "Token expired" 401 (Some "TOKEN_EXPIRED") else error in
  error ←
    (if String.eqb (err_name err) "ValidationError"
     then msgs ← err_errors err;
          Some (AppError (Js.join ", " msgs) 400 (Some "VALIDATION_ERROR"))
     else Some error);
  let error :=
    if String.eqb (err_name err) "CastError"
    then AppError "Invalid ID format" 400 (Some "INVALID_ID") else error in
  let error :=
    if negb (err_isOperational error)
    then AppError "Something went wrong" 500 (Some "INTERNAL_ERROR")
    else error in
  Some {| status := status_or_500 error;
          body := JObj ([("error", JStr (err_message error));
                         ("code", JStr (code_or_internal error))]
                        ++ (if development
                            then [("stack", JStr (err_stack err))]
                            else [])) |}.

(** Express's built-in final handler, reached only when [errorHandler]
    itself throws; it answers 500 with a non-JSON page. *)
Definition finalhandler : Response :=
  {| status := 500; body := JStr "Internal Server Error" |}.

(** Modelled from the spec: server.js is not among the sources; as section 7
    of the specification describes it, every error passed to [next] is
    logged and translated to a response by [errorHandler], mounted last. *)
Definition respond (development : bool) (err : JsError) : Response :=
  default finalhandler (errorHandler development err).

End Errors.

Import Errors.

(* ===================================================================== *)
(** ** middleware/auth.js *)
(* ===================================================================== *)

Module Auth.

(** The simple in-memory user store. *)
Record User := mkUser {
  user_id : Z;
  user_username : string;
  user_password : string;
  user_role : string
}.

Definition users : list User :=
  [ {| user_id := 1;
       user_username := "admin";
       user_password :=
         "$2a$10$92IXUNpkjO0rOQ5byMi.Ye4oKoEa3Ro9llC/.og/at2.uheWG/igi";
       user_role := "admin" |} ].

(** The payload signed into a token and handed back by [jwt.verify]. *)
Record Claims := mkClaims {
  claim_id : Z;
  claim_username : string;
  claim_role : string
}.

(** The errors [jwt.verify] reports to its callback. *)
Inductive JwtError : Type :=
| TokenExpiredError
| JsonWebTokenError
| NotBeforeError.

Inductive Verified : Type :=
| Valid (user : Claims)
| Invalid (err : JwtError).

(** The parts of an Express request the middleware reads and writes. *)
Record Request := mkRequest {
  req_method : string;
  req_authorization : option string;
  req_user : option Claims
}.

Definition set_user (req : Request) (u : Claims) : Request :=
  {| req_method := req_method req;
     req_authorization := req_authorization req;
     req_user := Some u |}.

(** What a middleware does with a request: call [next()] or answer. *)
Inductive Outcome : Type :=
| Next (req : Request)
| Reply (res : Response).

(** [authHeader && authHeader.split(' ')[1]] *)
Definition bearer_token (authHeader : option string) : option string :=
  match authHeader with
  | None => None
  | Some h => if String.eqb h "" then Some "" else Js.split " " h !! 1%nat
  end.

(** [req.body] of a login request, as [express.json()] parsed it: a field
    is absent or holds any JSON value. *)
Record LoginBody := mkLoginBody {
  login_username : option json;
  login_password : option json
}.

Section WithLibraries.

(** [jwt.verify(token, JWT_SECRET, callback)], [jwt.sign(payload, JWT_SECRET,
    { expiresIn })] ([None] when it throws) and [bcrypt.compare] on two
    strings. *)
Variable jwt_verify : string → Verified.
Variable jwt_sign : Claims → option string.
Variable bcrypt_compare : string → string → bool.

(** [await bcrypt.compare(password, hash)]: bcryptjs rejects with
    "Illegal arguments" unless the password is a string; [None] stands for
    the rejection. *)
Definition compare_password (password : option json) (hash : string)
  : option bool :=
  match password with
  | Some (JStr s) => Some (bcrypt_compare s hash)
  | _ => None
  end.

Definition authenticateToken (req : Request) : Outcome :=
  let token := bearer_token (req_authorization req) in
  if negb (Js.truthy token) then
    Reply {| status := 401;
             body := error_body "Access denied. No token provided." "NO_TOKEN" |}
  else
    match jwt_verify (default "" token) with
    | Invalid _ =>
        Reply {| status := 403;
                 body := error_body "Access denied. Invalid token."
                                    "INVALID_TOKEN" |}
    | Valid user => Next (set_user req user)
    end.

Definition requireAuth (req : Request) : Outcome :=
  if String.eqb (req_method req) "GET" then Next req
  else authenticateToken req.

(** [users.find(u => u.username === username)] *)
Definition find_user (username : option json) : option User :=
  snd <$> list_find (λ u, is_the_string (user_username u) username = true) users.

(** The [catch] block of [login]. *)
Definition login_error : Response :=
  {| status := 500;
     body := error_body "Internal server error" "LOGIN_ERROR" |}.

Definition login (b : LoginBody) : Response :=
  let username := login_username b in
  let password := login_password b in
  if negb (json_truthy username) || negb (json_truthy password)
  then {| status := 400;
          body := error_body "Username and password are required"
                             "MISSING_CREDENTIALS" |}
  else
    match find_user username with
    | None =>
        {| status := 401;
           body := error_body "Invalid credentials" "INVALID_CREDENTIALS" |}
    | Some user =>
        match compare_password password (user_password user) with
        | None => login_error
        | Some isValidPassword =>
            if negb isValidPassword then
              {| status := 401;
                 body := error_body "Invalid credentials" "INVALID_CREDENTIALS" |}
            else
              match jwt_sign {| claim_id := user_id user;
                                claim_username := user_username user;
                                claim_role := user_role user |} with
              | Some token =>
                  {| status := 200;
                     body := JObj [("message", JStr "Login successful");
                                   ("token", JStr token);
                                   ("user", JObj [("id", JNum (user_id user));
                                                  ("username",
                                                   JStr (user_username user));
                                                  ("role",
                                                   JStr (user_role user))])] |}
              | None => login_error
              end
        end
    end.

(** Modelled from the spec: server.js is not among the sources; as section 6
    of the specification has it, the mutating routes sit behind
    [requireAuth], so the route handler [h] runs only when the gate calls
    [next()], on the request the gate passes on. *)
Definition protected {S : Type} (h : Request → S → S * Response)
    (req : Request) (st : S) : S * Response :=
  match requireAuth req with
  | Next req' => h req' st
  | Reply res => (st, res)
  end.

End WithLibraries.

End Auth.

Import Auth.

(* ===================================================================== *)
(** ** The database behind the Prisma client *)
(* ===================================================================== *)

Module Db.

Record Profile := mkProfile {
  profile_id : Z;
  profile_name : string;
  profile_email : string;
  profile_education : option string;
  profile_githubUrl : option string;
  profile_linkedinUrl : option string;
  profile_portfolioUrl : option string;
  profile_createdAt : Z;
  profile_updatedAt : Z
}.

Record Skill := mkSkill {
  skill_id : Z;
  skill_profileId : Z;
  skill_skillName : string;
  skill_proficiencyLevel : Z
}.

Definition Link : Type := string * string.

Record Project := mkProject {
  project_id : Z;
  project_profileId : Z;
  project_title : string;
  project_description : string;
  project_links : list Link;
  project_createdAt : Z
}.

Record WorkExperience := mkWork {
  work_id : Z;
  work_profileId : Z;
  work_company : string;
  work_position : string;
  work_startDate : string;
  work_endDate : option string;
  work_description : option string
}.

(** The four tables, in insertion order, and the next value of each
    autoincrement sequence. *)
Record Store := mkStore {
  profiles : list Profile;
  skills : list Skill;
  projects : list Project;
  workExperience : list WorkExperience;
  next_profile : Z;
  next_skill : Z;
  next_project : Z;
  next_work : Z
}.

Definition empty : Store :=
  {| profiles := []; skills := []; projects := []; workExperience := [];
     next_profile := 1; next_skill := 1; next_project := 1; next_work := 1 |}.

(** The data of a child row before the database numbers it. *)
Record SkillData := mkSkillData {
  sd_skillName : string;
  sd_proficiencyLevel : Z
}.

Record ProjectData := mkProjectData {
  pd_title : string;
  pd_description : string;
  pd_links : list Link
}.

Record WorkData := mkWorkData {
  wd_company : string;
  wd_position : string;
  wd_startDate : string;
  wd_endDate : option string;
  wd_description : option string
}.

(** The scalar columns written by [profile.create] and [profile.update]. *)
Record ProfileData := mkProfileData {
  d_name : string;
  d_email : string;
  d_education : option string;
  d_githubUrl : option string;
  d_linkedinUrl : option string;
  d_portfolioUrl : option string
}.

Definition skill_row (pid first : Z) (i : nat) (d : SkillData) : Skill :=
  {| skill_id := first + Z.of_nat i; skill_profileId := pid;
     skill_skillName := sd_skillName d;
     skill_proficiencyLevel := sd_proficiencyLevel d |}.

Definition project_row (now pid first : Z) (i : nat) (d : ProjectData)
  : Project :=
  {| project_id := first + Z.of_nat i; project_profileId := pid;
     project_title := pd_title d; project_description := pd_description d;
     project_links := pd_links d; project_createdAt := now |}.

Definition work_row (pid first : Z) (i : nat) (d : WorkData)
  : WorkExperience :=
  {| work_id := first + Z.of_nat i; work_profileId := pid;
     work_company := wd_company d; work_position := wd_position d;
     work_startDate := wd_startDate d; work_endDate := wd_endDate d;
     work_description := wd_description d |}.




(** The child rows of one profile. *)
Definition skills_of (pid : Z) (st : Store) : list Skill :=
  filter (λ s, skill_profileId s = pid) (skills st).

Definition projects_of (pid : Z) (st : Store) : list Project :=
  filter (λ p, project_profileId p = pid) (projects st).

Definition work_of (pid : Z) (st : Store) : list WorkExperience :=
  filter (λ w, work_profileId w = pid) (workExperience st).

Definition emails (st : Store) : list string := profile_email <$> profiles st.

(** *** Statements: a state-and-exception monad over the store *)

Inductive Result (A : Type) : Type :=
| Ok (a : A) (st : Store)
| Fail (e : JsError) (st : Store).

Arguments Ok {A} a st.
Arguments Fail {A} e st.

Definition Stmt (A : Type) : Type := Store → Result A.

Definition ret {A} (a : A) : Stmt A := λ st, Ok a st.

Definition throw {A} (e : JsError) : Stmt A := λ st, Fail e st.

Definition bind {A B} (m : Stmt A) (k : A → Stmt B) : Stmt B :=
  λ st, match m st with
        | Ok a st' => k a st'
        | Fail e st' => Fail e st'
        end.

(** What a rollback restores: the rows are those of [before]; the values
    drawn from the autoincrement sequences are not given back, sequences
    being outside transactions in PostgreSQL. *)
Definition rolled_back (before after : Store) : Store :=
  {| profiles := profiles before;
     skills := skills before;
     projects := projects before;
     workExperience := workExperience before;
     next_profile := next_profile after;
     next_skill := next_skill after;
     next_project := next_project after;
     next_work := next_work after |}.

(** [prisma.$transaction(async (tx) => ...)]: when the callback throws, the
    writes it made are rolled back and the error is rethrown. *)
Definition transaction {A} (m : Stmt A) : Stmt A :=
  λ st, match m st with
        | Ok a st' => Ok a st'
        | Fail e st' => Fail e (rolled_back st st')
        end.

End Db.

Import Db.

Declare Scope stmt_scope.
Delimit Scope stmt_scope with stmt.
Notation "'await' x ':=' m 'in' k" := (Db.bind m (λ x, k))
  (at level 10, x name, m at level 100, k at level 200) : stmt_scope.
Notation "'exec' m 'in' k" := (Db.bind m (λ _, k))
  (at level 10, m at level 100, k at level 200) : stmt_scope.

Local Open Scope stmt_scope.

(* ===================================================================== *)
(** ** The Prisma client calls made by the routers *)
(* ===================================================================== *)

Module Prisma.

(** [orderBy: { column: 'desc' }] on an integer or timestamp column, as a
    sort of the table. *)
Definition order_desc {A} (column : A → Z) (rows : list A) : list A :=
  @merge_sort A (λ a b, column b ≤ column a)
    (λ a b, decide (column b ≤ column a)) rows.

(** [prisma.profile.findFirst({ where: { email } })] *)
Definition profile_findFirst_email (email : string) : Stmt (option Profile) :=
  λ st, Ok (snd <$> list_find (λ p, profile_email p = email) (profiles st)) st.

(** [prisma.profile.findFirst({ orderBy: { createdAt: 'desc' } })] *)
Definition profile_findFirst_latest : Stmt (option Profile) :=
  λ st, Ok (head (order_desc profile_createdAt (profiles st))) st.

(** Modelled from the spec: prisma/schema.prisma is not among the sources;
    the specification (section 3, "email unique across profiles", and
    section 7, the mapped unique-constraint violation) and the README's
    schema ([email TEXT UNIQUE NOT NULL]) declare a unique index on the
    email column. A write that would give a second row the email of
    another row is rejected with Prisma's P2002. *)
Definition email_taken (email : string) (except : option Z) (st : Store)
  : bool :=
  bool_decide (Exists (λ p, profile_email p = email
                             ∧ Some (profile_id p) ≠ except) (profiles st)).

Definition unique_violation : JsError :=
  PrismaError "P2002" "Unique constraint failed on the fields: (`email`)".

Definition record_not_found : JsError :=
  PrismaError "P2025" "Record to update or delete does not exist.".

(** Modelled from the spec: prisma/schema.prisma is not among the sources;
    the README's schema declares [proficiency_level INTEGER], which in
    PostgreSQL is a 32-bit signed column. A statement that would write a
    level outside its range is refused with a Prisma error whose code is
    none of the three that [errorHandler] knows. *)
Definition int4 (n : Z) : bool := (-2147483648 <=? n) && (n <=? 2147483647).

Definition levels_fit (rows : list SkillData) : bool :=
  forallb (λ d, int4 (sd_proficiencyLevel d)) rows.

Definition value_out_of_range : JsError :=
  PrismaError "P2020" "Value out of range for the type".

Definition add_skills (pid : Z) (rows : list SkillData) (st : Store) : Store :=
  {| profiles := profiles st;
     skills := skills st ++ imap (skill_row pid (next_skill st)) rows;
     projects := projects st;
     workExperience := workExperience st;
     next_profile := next_profile st;
     next_skill := next_skill st + Z.of_nat (length rows);
     next_project := next_project st;
     next_work := next_work st |}.

Definition add_projects (now pid : Z) (rows : list ProjectData) (st : Store)
  : Store :=
  {| profiles := profiles st;
     skills := skills st;
     projects := projects st ++ imap (project_row now pid (next_project st)) rows;
     workExperience := workExperience st;
     next_profile := next_profile st;
     next_skill := next_skill st;
     next_project := next_project st + Z.of_nat (length rows);
     next_work := next_work st |}.

Definition add_work (pid : Z) (rows : list WorkData) (st : Store) : Store :=
  {| profiles := profiles st;
     skills := skills st;
     projects := projects st;
     workExperience := workExperience st ++ imap (work_row pid (next_work st)) rows;
     next_profile := next_profile st;
     next_skill := next_skill st;
     next_project := next_project st;
     next_work := next_work st + Z.of_nat (length rows) |}.

Definition set_profiles (ps : list Profile) (st : Store) : Store :=
  {| profiles := ps;
     skills := skills st;
     projects := projects st;
     workExperience := workExperience st;
     next_profile := next_profile st;
     next_skill := next_skill st;
     next_project := next_project st;
     next_work := next_work st |}.

Definition set_skills (rows : list Skill) (st : Store) : Store :=
  {| profiles := profiles st;
     skills := rows;
     projects := projects st;
     workExperience := workExperience st;
     next_profile := next_profile st;
     next_skill := next_skill st;
     next_project := next_project st;
     next_work := next_work st |}.

Definition set_projects (rows : list Project) (st : Store) : Store :=
  {| profiles := profiles st;
     skills := skills st;
     projects := rows;
     workExperience := workExperience st;
     next_profile := next_profile st;
     next_skill := next_skill st;
     next_project := next_project st;
     next_work := next_work st |}.

Definition set_work (rows : list WorkExperience) (st : Store) : Store :=
  {| profiles := profiles st;
     skills := skills st;
     projects := projects st;
     workExperience := rows;
     next_profile := next_profile st;
     next_skill := next_skill st;
     next_project := next_project st;
     next_work := next_work st |}.

Definition new_profile (now id : Z) (d : ProfileData) : Profile :=
  {| profile_id := id;
     profile_name := d_name d;
     profile_email := d_email d;
     profile_education := d_education d;
     profile_githubUrl := d_githubUrl d;
     profile_linkedinUrl := d_linkedinUrl d;
     profile_portfolioUrl := d_portfolioUrl d;
     profile_createdAt := now;
     profile_updatedAt := now |}.

(** [prisma.profile.create({ data: { ..., skills: { create }, projects:
    { create }, workExperience: { create } } })]: the parent row is
    inserted with the next id, then the nested rows, all in one atomic
    statement. When the email is taken or a level does not fit, nothing of
    it stays but the id drawn for the parent row. *)
Definition profile_create (now : Z) (d : ProfileData)
    (ss : list SkillData) (ps : list ProjectData) (ws : list WorkData)
  : Stmt Profile :=
  λ st,
    let row := new_profile now (next_profile st) d in
    let st1 :=
      {| profiles := profiles st ++ [row];
         skills := skills st;
         projects := projects st;
         workExperience := workExperience st;
         next_profile := next_profile st + 1;
         next_skill := next_skill st;
         next_project := next_project st;
         next_work := next_work st |} in
    if email_taken (d_email d) None st
    then Fail unique_violation (rolled_back st st1)
    else if negb (levels_fit ss)
    then Fail value_out_of_range (rolled_back st st1)
    else
      Ok row (add_work (profile_id row) ws
                (add_projects now (profile_id row) ps
                   (add_skills (profile_id row) ss st1))).

(** A column given as [undefined] in [data] is left as it is. *)
Definition keep {A} (new old : option A) : option A :=
  match new with
  | Some v => Some v
  | None => old
  end.

Definition updated_profile (now : Z) (d : ProfileData) (p : Profile) : Profile :=
  {| profile_id := profile_id p;
     profile_name := d_name d;
     profile_email := d_email d;
     profile_education := keep (d_education d) (profile_education p);
     profile_githubUrl := keep (d_githubUrl d) (profile_githubUrl p);
     profile_linkedinUrl := keep (d_linkedinUrl d) (profile_linkedinUrl p);
     profile_portfolioUrl := keep (d_portfolioUrl d) (profile_portfolioUrl p);
     profile_createdAt := profile_createdAt p;
     profile_updatedAt := now |}.

(** [tx.profile.update({ where: { id }, data })] *)
Definition profile_update (now id : Z) (d : ProfileData) : Stmt unit :=
  λ st,
    if negb (bool_decide (Exists (λ p, profile_id p = id) (profiles st)))
    then Fail record_not_found st
    else if email_taken (d_email d) (Some id) st then Fail unique_violation st
    else
      Ok tt (set_profiles
               ((λ p, if bool_decide (profile_id p = id)
                      then updated_profile now d p else p) <$> profiles st)
               st).

(** [tx.skill.deleteMany({ where: { profileId } })] and its siblings. *)
Definition skill_deleteMany (pid : Z) : Stmt unit :=
  λ st, Ok tt (set_skills (filter (λ s, skill_profileId s ≠ pid) (skills st)) st).

Definition project_deleteMany (pid : Z) : Stmt unit :=
  λ st, Ok tt (set_projects
                 (filter (λ p, project_profileId p ≠ pid) (projects st)) st).

Definition workExperience_deleteMany (pid : Z) : Stmt unit :=
  λ st, Ok tt (set_work
                 (filter (λ w, work_profileId w ≠ pid) (workExperience st)) st).

(** [tx.skill.createMany({ data })] and its siblings. The skill rows are
    written by one statement, which is refused as a whole when a level does
    not fit its column. *)
Definition skill_createMany (pid : Z) (rows : list SkillData) : Stmt unit :=
  λ st, if levels_fit rows then Ok tt (add_skills pid rows st)
        else Fail value_out_of_range st.

Definition project_createMany (now pid : Z) (rows : list ProjectData)
  : Stmt unit :=
  λ st, Ok tt (add_projects now pid rows st).

Definition workExperience_createMany (pid : Z) (rows : list WorkData)
  : Stmt unit :=
  λ st, Ok tt (add_work pid rows st).

(** Modelled from the spec: prisma/schema.prisma is not among the sources;
    by section 3 of the specification a profile owns its skills, projects
    and work-experience rows with cascade delete, so
    [prisma.profile.deleteMany({})] empties the child tables of the deleted
    profiles along with the profile table. The result is [{ count }]. *)
Definition profile_deleteMany_all : Stmt nat :=
  λ st,
    let gone := profile_id <$> profiles st in
    Ok (length (profiles st))
       (set_work (filter (λ w, work_profileId w ∉ gone) (workExperience st))
          (set_projects (filter (λ p, project_profileId p ∉ gone) (projects st))
             (set_skills (filter (λ s, skill_profileId s ∉ gone) (skills st))
                (set_profiles [] st)))).

(** [prisma.project.findUnique({ where: { id } })] *)
Definition project_findUnique (id : Z) : Stmt (option Project) :=
  λ st, Ok (snd <$> list_find (λ p, project_id p = id) (projects st)) st.

(** [prisma.project.delete({ where: { id } })] *)
Definition project_delete (id : Z) : Stmt unit :=
  λ st,
    if bool_decide (Exists (λ p, project_id p = id) (projects st))
    then Ok tt (set_projects (filter (λ p, project_id p ≠ id) (projects st)) st)
    else Fail record_not_found st.

Definition workExperience_findUnique (id : Z) : Stmt (option WorkExperience) :=
  λ st, Ok (snd <$> list_find (λ w, work_id w = id) (workExperience st)) st.

Definition workExperience_delete (id : Z) : Stmt unit :=
  λ st,
    if bool_decide (Exists (λ w, work_id w = id) (workExperience st))
    then Ok tt (set_work (filter (λ w, work_id w ≠ id) (workExperience st)) st)
    else Fail record_not_found st.

End Prisma.

(* ===================================================================== *)
(** ** The /api/profile router *)
(* ===================================================================== *)

Module ProfileRoutes.

(** An element of [req.body.skills]: a string or a [{ name, level }] object. *)
Inductive SkillInput : Type :=
| SkillString (name : string)
| SkillObject (name : string) (level : option Z).

Record ProjectInput := mkProjectInput {
  in_title : string;
  in_description : string;
  in_links : option (list Link)
}.

Record WorkInput := mkWorkInput {
  in_company : string;
  in_position : string;
  in_start_date : string;
  in_end_date : option string;
  in_work_description : option string
}.

(** [req.body] once [validateProfile] has let it through; [None] is a
    field absent from the payload. *)
Record ProfileBody := mkProfileBody {
  body_name : string;
  body_email : string;
  body_education : option string;
  body_skills : option (list SkillInput);
  body_projects : option (list ProjectInput);
  body_workExperience : option (list WorkInput);
  body_github_url : option string;
  body_linkedin_url : option string;
  body_portfolio_url : option string
}.

(** The callbacks given to [skills.map], [projects.map] and
    [workExperience.map]. *)
Definition skill_of_input (s : SkillInput) : SkillData :=
  match s with
  | SkillString name => {| sd_skillName := name; sd_proficiencyLevel := 1 |}
  | SkillObject name level =>
      {| sd_skillName := name; sd_proficiencyLevel := Js.num_or level 1 |}
  end.

Definition project_of_input (p : ProjectInput) : ProjectData :=
  {| pd_title := in_title p; pd_description := in_description p;
     pd_links := default [] (in_links p) |}.

Definition work_of_input (w : WorkInput) : WorkData :=
  {| wd_company := in_company w; wd_position := in_position w;
     wd_startDate := in_start_date w; wd_endDate := in_end_date w;
     wd_description := in_work_description w |}.

Definition profile_data (b : ProfileBody) : ProfileData :=
  {| d_name := body_name b;
     d_email := body_email b;
     d_education := body_education b;
     d_githubUrl := body_github_url b;
     d_linkedinUrl := body_linkedin_url b;
     d_portfolioUrl := body_portfolio_url b |}.

(** The rows a body asks for; a collection absent from the payload
    contributes none. *)
Definition supplied_skills (b : ProfileBody) : list SkillData :=
  skill_of_input <$> default [] (body_skills b).

Definition supplied_projects (b : ProfileBody) : list ProjectData :=
  project_of_input <$> default [] (body_projects b).

Definition supplied_work (b : ProfileBody) : list WorkData :=
  work_of_input <$> default [] (body_workExperience b).

(** [router.post('/')]; [now] is the clock reading used for the
    timestamp defaults. *)
Definition post (now : Z) (b : ProfileBody) : Stmt Response :=
  await existingProfile := Prisma.profile_findFirst_email (body_email b) in
  match existingProfile with
  | Some _ =>
      throw (AppError "Profile with this email already exists. Use PUT to update."
                      409 (Some "PROFILE_EXISTS"))
  | None =>
      await profile :=
        Prisma.profile_create now (profile_data b)
          (match body_skills b with
           | Some skills => skill_of_input <$> skills
           | None => []
           end)
          (match body_projects b with
           | Some projects => project_of_input <$> projects
           | None => []
           end)
          (match body_workExperience b with
           | Some workExperience => work_of_input <$> workExperience
           | None => []
           end) in
      ret {| status := 201;
             body := JObj [("message", JStr "Profile created successfully");
                           ("profileId", JNum (profile_id profile))] |}
  end.

(** [router.put('/')] *)
Definition put (now : Z) (b : ProfileBody) : Stmt Response :=
  await existingProfile := Prisma.profile_findFirst_latest in
  match existingProfile with
  | None => throw (AppError "Profile not found" 404 (Some "PROFILE_NOT_FOUND"))
  | Some existingProfile =>
      let id := profile_id existingProfile in
      exec transaction (
        exec Prisma.profile_update now id (profile_data b) in
        exec Prisma.skill_deleteMany id in
        exec Prisma.project_deleteMany id in
        exec Prisma.workExperience_deleteMany id in
        exec (match body_skills b with
              | Some skills =>
                  Prisma.skill_createMany id (skill_of_input <$> skills)
              | None => ret tt
              end) in
        exec (match body_projects b with
              | Some projects =>
                  Prisma.project_createMany now id (project_of_input <$> projects)
              | None => ret tt
              end) in
        match body_workExperience b with
        | Some workExperience =>
            Prisma.workExperience_createMany id (work_of_input <$> workExperience)
        | None => ret tt
        end) in
      ret {| status := 200;
             body := JObj [("message", JStr "Profile updated successfully")] |}
  end.

(** [router.delete('/')] *)
Definition delete : Stmt Response :=
  await count := Prisma.profile_deleteMany_all in
  if (count =? 0)%nat
  then throw (AppError "Profile not found" 404 (Some "PROFILE_NOT_FOUND"))
  else ret {| status := 200;
              body := JObj [("message", JStr "Profile deleted successfully")] |}.

(** [router.delete('/projects/:id')] *)
Definition delete_project (id : string) : Stmt Response :=
  match Js.parseInt id with
  | None => throw (AppError "Invalid project ID" 400 (Some "INVALID_PROJECT_ID"))
  | Some projectId =>
      await project := Prisma.project_findUnique projectId in
      match project with
      | None => throw (AppError "Project not found" 404 (Some "PROJECT_NOT_FOUND"))
      | Some _ =>
          exec Prisma.project_delete projectId in
          ret {| status := 200;
                 body := JObj [("message", JStr "Project deleted successfully")] |}
      end
  end.

(** [router.delete('/work-experience/:id')] *)
Definition delete_work (id : string) : Stmt Response :=
  match Js.parseInt id with
  | None =>
      throw (AppError "Invalid work experience ID" 400 (Some "INVALID_WORK_ID"))
  | Some workId =>
      await work := Prisma.workExperience_findUnique workId in
      match work with
      | None =>
          throw (AppError "Work experience not found" 404 (Some "WORK_NOT_FOUND"))
      | Some _ =>
          exec Prisma.workExperience_delete workId in
          ret {| status := 200;
                 body := JObj [("message",
                                JStr "Work experience deleted successfully")] |}
      end
  end.

(** [asyncHandler(fn)] followed by the error middleware: what the client
    receives and the store the request leaves behind. *)
Definition serve (development : bool) (h : Stmt Response) (st : Store)
  : Store * Response :=
  match h st with
  | Ok res st' => (st', res)
  | Fail err st' => (st', respond development err)
  end.

(** The write operations of the API, as requests to the router. *)
Inductive Operation : Type :=
| POST (now : Z) (b : ProfileBody)
| PUT (now : Z) (b : ProfileBody)
| DELETE
| DELETE_project (id : string)
| DELETE_work (id : string).

Definition route (op : Operation) : Stmt Response :=
  match op with
  | POST now b => post now b
  | PUT now b => put now b
  | DELETE => delete
  | DELETE_project id => delete_project id
  | DELETE_work id => delete_work id
  end.

Definition step (development : bool) (st : Store) (op : Operation) : Store :=
  fst (serve development (route op) st).

End ProfileRoutes.

(* ===================================================================== *)
(** ** Query validation, pagination and the query router *)
(* ===================================================================== *)

Module QueryRoutes.

(** [req.query]: every parameter is absent or a string. *)
Record Query := mkQuery {
  query_q : option string;
  query_type : option string;
  query_limit : option string;
  query_offset : option string;
  query_skill : option string
}.

(** *** validator.js [isInt] and [isLength], as express-validator calls them *)

Definition is_digit (c : ascii) : bool :=
  let n := nat_of_ascii c in ((48 <=? n) && (n <=? 57))%nat.

Fixpoint all_digits (s : string) : bool :=
  match s with
  | EmptyString => true
  | String c rest => is_digit c && all_digits rest
  end.

(** [/^[-+]?[0-9]+$/] *)
Definition int_pattern (s : string) : bool :=
  match s with
  | String "-" (String c rest) => all_digits (String c rest)
  | String "+" (String c rest) => all_digits (String c rest)
  | String c rest => all_digits (String c rest)
  | EmptyString => false
  end.

Fixpoint decimal (acc : Z) (s : string) : Z :=
  match s with
  | EmptyString => acc
  | String c rest => decimal (acc * 10 + (Z.of_nat (nat_of_ascii c) - 48)) rest
  end.

(** [Number(str)] on a string that matches [int_pattern]; this is the
    coercion behind [str >= options.min] and [str <= options.max]. *)
Definition to_number (s : string) : Z :=
  match s with
  | String "-" rest => - decimal 0 rest
  | String "+" rest => decimal 0 rest
  | _ => decimal 0 s
  end.

Definition isInt (min max : option Z) (s : string) : bool :=
  int_pattern s
  && from_option (λ m, m <=? to_number s) true min
  && from_option (λ m, to_number s <=? m) true max.

Definition isLength (min max : nat) (s : string) : bool :=
  ((min <=? String.length s) && (String.length s <=? max))%nat.

Definition isIn (allowed : list string) (s : string) : bool :=
  bool_decide (s ∈ allowed).

(** One entry of [errors.array()]. *)
Definition validation_error (path msg : string) (value : string) : json :=
  JObj [("type", JStr "field"); ("value", JStr value); ("msg", JStr msg);
        ("path", JStr path); ("location", JStr "query")].

(** An [.optional()] chain on one query parameter: nothing to report when
    the parameter is absent or passes. *)
Definition check (path msg : string) (ok : string → bool) (v : option string)
  : list json :=
  match v with
  | Some s => if ok s then [] else [validation_error path msg s]
  | None => []
  end.

(** The sanitizers of [validateQuery]: [q] and [skill] are trimmed in
    place. *)
Definition sanitizeQuery (q : Query) : Query :=
  {| query_q := Js.trim <$> query_q q;
     query_type := query_type q;
     query_limit := query_limit q;
     query_offset := query_offset q;
     query_skill := Js.trim <$> query_skill q |}.

(** The five chains of [validateQuery], run on the sanitized values. *)
Definition validationResult (q : Query) : list json :=
  let q := sanitizeQuery q in
  check "limit" "Limit must be between 1 and 100"
        (isInt (Some 1) (Some 100)) (query_limit q)
  ++ check "offset" "Offset must be a non-negative integer"
        (isInt (Some 0) None) (query_offset q)
  ++ check "q" "Search query must be between 1 and 100 characters"
        (isLength 1 100) (query_q q)
  ++ check "type" "Type must be one of: all, profiles, projects, skills, work"
        (isIn ["all"; "profiles"; "projects"; "skills"; "work"]) (query_type q)
  ++ check "skill" "Skill filter must be between 1 and 50 characters"
        (isLength 1 50) (query_skill q).

(** [handleValidationErrors]: [Some] answers, [None] calls [next()]. *)
Definition handleValidationErrors (errors : list json) : option Response :=
  match errors with
  | [] => None
  | _ :: _ =>
      Some {| status := 400;
              body := JObj [("error", JStr "Validation failed");
                            ("code", JStr "VALIDATION_ERROR");
                            ("details", JArr errors)] |}
  end.

(** *** [paginate] *)

Record Pagination := mkPagination { limit : Z; offset : Z }.

Definition paginate (q : Query) : Pagination :=
  let limit := Js.num_or (query_limit q ≫= Js.parseInt) 10 in
  let offset := Js.num_or (query_offset q ≫= Js.parseInt) 0 in
  {| limit := Z.min limit 100; offset := Z.max offset 0 |}.

(** *** Reading with [findMany] *)

(** [{ contains: term, mode: 'insensitive' }] on a text column reaches
    PostgreSQL as [column ILIKE '%term%'] with the term as it came: in the
    pattern, [%] stands for any run of characters, [_] for any one
    character, and a backslash takes the character after it literally. *)
Inductive LikeToken : Type :=
| AnyRun
| AnyChar
| Literal (c : ascii).

(** The pattern of a [contains] ends in [%], so a backslash is always
    followed by a character; PostgreSQL raises an error for a pattern that
    ends in a lone backslash, which is read here as the backslash itself. *)
Fixpoint like_pattern (p : string) : list LikeToken :=
  match p with
  | EmptyString => []
  | String c rest =>
      if Ascii.eqb c "\" then
        match rest with
        | String d rest' => Literal d :: like_pattern rest'
        | EmptyString => [Literal c]
        end
      else if Ascii.eqb c "%" then AnyRun :: like_pattern rest
      else if Ascii.eqb c "_" then AnyChar :: like_pattern rest
      else Literal c :: like_pattern rest
  end.

(** [s LIKE p]: the whole of [s] matches the pattern. *)
Fixpoint like (p : list LikeToken) (s : string) : bool :=
  match p with
  | [] => match s with EmptyString => true | String _ _ => false end
  | AnyRun :: p' =>
      (fix any_run (s : string) : bool :=
         like p' s
         || match s with
            | String _ rest => any_run rest
            | EmptyString => false
            end) s
  | AnyChar :: p' =>
      match s with
      | String _ rest => like p' rest
      | EmptyString => false
      end
  | Literal c :: p' =>
      match s with
      | String d rest => Ascii.eqb c d && like p' rest
      | EmptyString => false
      end
  end.

(** [ILIKE] folds the case of pattern and text before matching. *)
Definition contains_insensitive (term column : string) : bool :=
  like (like_pattern (Js.lower_string ("%" ++ term ++ "%")))
       (Js.lower_string column).

Definition contains_insensitive_opt (term : string) (column : option string)
  : bool :=
  from_option (contains_insensitive term) false column.

(** [take] and [skip] of [findMany]. [None] stands for an argument the
    client rejects ([NaN], a negative [skip]); a negative [take] reads from
    the end of the ordered rows. *)
Definition window {A} (take skip : option Z) (rows : list A)
  : option (list A) :=
  match take, skip with
  | Some t, Some s =>
      if s <? 0 then None
      else if 0 <=? t then Some (firstn (Z.to_nat t) (drop (Z.to_nat s) rows))
      else Some (rev (firstn (Z.to_nat (- t))
                                  (drop (Z.to_nat s) (rev rows))))
  | _, _ => None
  end.

Definition links_json (links : list Link) : json :=
  JArr ((λ l, JObj [("name", JStr l.1); ("url", JStr l.2)]) <$> links).

(** *** [router.get('/projects')] *)

(** The [where] clause: with a skill filter, the projects whose profile has
    some skill whose name contains the filter; all projects otherwise. *)
Definition project_matches (skill : option string) (st : Store) (p : Project)
  : bool :=
  if Js.truthy skill then
    bool_decide
      (Exists (λ owner, profile_id owner = project_profileId p
                        ∧ Exists (λ s, skill_profileId s = profile_id owner
                                       ∧ contains_insensitive (default "" skill)
                                           (skill_skillName s) = true)
                                 (skills st))
              (profiles st))
  else true.

Definition matching_projects (skill : option string) (st : Store)
  : list Project :=
  Prisma.order_desc project_createdAt
    (filter (λ p, project_matches skill st p = true) (projects st)).

Definition owner_of (p : Project) (st : Store) : option Profile :=
  snd <$> list_find (λ o, profile_id o = project_profileId p) (profiles st).

(** The callback of [projects.map]; reading [project.profile.name] throws
    a [TypeError] when the included profile is missing. *)
Definition transformed_project (st : Store) (p : Project) : option json :=
  owner ← owner_of p st;
  Some (JObj [("id", JNum (project_id p));
              ("title", JStr (project_title p));
              ("description", JStr (project_description p));
              ("links", links_json (project_links p));
              ("created_at", JNum (project_createdAt p));
              ("profile_name", JStr (profile_name owner))]).

Definition type_error : JsError :=
  {| err_name := "TypeError";
     err_message := "Cannot read properties of null (reading 'name')";
     err_statusCode := None; err_code := None; err_isOperational := false;
     err_errors := None; err_stack := "" |}.

Definition database_rejects : JsError :=
  {| err_name := "PrismaClientValidationError";
     err_message := "Invalid `findMany()` invocation";
     err_statusCode := None; err_code := None; err_isOperational := false;
     err_errors := None; err_stack := "" |}.

Definition projects_handler (q : Query) (pg : Pagination) (st : Store)
  : JsError + Response :=
  let skill := query_skill q in
  let matches := matching_projects skill st in
  match window (Some (limit pg)) (Some (offset pg)) matches with
  | None => inl database_rejects
  | Some projects =>
      let totalCount := Z.of_nat (length matches) in
      match mapM (transformed_project st) projects with
      | None => inl type_error
      | Some transformedProjects =>
          inr {| status := 200;
                 body := JObj [("projects", JArr transformedProjects);
                               ("pagination",
                                JObj [("limit", JNum (limit pg));
                                      ("offset", JNum (offset pg));
                                      ("total", JNum totalCount);
                                      ("hasMore",
                                       JBool (offset pg + limit pg <? totalCount))])] |}
      end
  end.

(** [router.get('/projects', validateQuery, paginate, asyncHandler(...))] *)
Definition get_projects (development : bool) (q : Query) (st : Store)
  : Response :=
  match handleValidationErrors (validationResult q) with
  | Some res => res
  | None =>
      let q := sanitizeQuery q in
      match projects_handler q (paginate q) st with
      | inr res => res
      | inl err => respond development err
      end
  end.

(** *** [router.get('/search')] *)

Record SearchResults := mkSearchResults {
  res_profiles : list json;
  res_projects : list json;
  res_skills : list json;
  res_workExperience : list json
}.

Definition results_json (r : SearchResults) : json :=
  JObj [("profiles", JArr (res_profiles r));
        ("projects", JArr (res_projects r));
        ("skills", JArr (res_skills r));
        ("workExperience", JArr (res_workExperience r))].

(** The four [where] clauses. *)
Definition profile_hit (term : string) (p : Profile) : bool :=
  contains_insensitive term (profile_name p)
  || contains_insensitive term (profile_email p)
  || contains_insensitive_opt term (profile_education p).

Definition project_hit (term : string) (p : Project) : bool :=
  contains_insensitive term (project_title p)
  || contains_insensitive term (project_description p).

Definition skill_hit (term : string) (s : Skill) : bool :=
  contains_insensitive term (skill_skillName s).

Definition work_hit (term : string) (w : WorkExperience) : bool :=
  contains_insensitive term (work_company w)
  || contains_insensitive term (work_position w)
  || contains_insensitive_opt term (work_description w).

(** The four [map] callbacks. *)
Definition found_profile (p : Profile) : json :=
  JObj [("id", JNum (profile_id p));
        ("name", JStr (profile_name p));
        ("email", JStr (profile_email p));
        ("education", opt_str (profile_education p));
        ("github_url", opt_str (profile_githubUrl p));
        ("linkedin_url", opt_str (profile_linkedinUrl p));
        ("portfolio_url", opt_str (profile_portfolioUrl p))].

Definition found_project (p : Project) : json :=
  JObj [("id", JNum (project_id p));
        ("title", JStr (project_title p));
        ("description", JStr (project_description p));
        ("links", links_json (project_links p));
        ("created_at", JNum (project_createdAt p))].

Definition found_skill (s : Skill) : json :=
  JObj [("skill_name", JStr (skill_skillName s));
        ("proficiency_level", JNum (skill_proficiencyLevel s))].

Definition found_work (w : WorkExperience) : json :=
  JObj [("id", JNum (work_id w));
        ("company", JStr (work_company w));
        ("position", JStr (work_position w));
        ("start_date", JStr (work_startDate w));
        ("end_date", opt_str (work_endDate w));
        ("description", opt_str (work_description w))].

(** [ORDER BY startDate DESC] on the text column. *)
Definition latest_start_first (rows : list WorkExperience)
  : list WorkExperience :=
  @merge_sort WorkExperience
    (λ a b, String.leb (work_startDate b) (work_startDate a) = true)
    (λ a b, decide (String.leb (work_startDate b) (work_startDate a) = true))
    rows.

(** The rows each category reads before [take] and [skip] apply. *)
Definition profile_hits (term : string) (st : Store) : list json :=
  found_profile <$> filter (λ p, profile_hit term p = true) (profiles st).

Definition project_hits (term : string) (st : Store) : list json :=
  found_project <$>
    Prisma.order_desc project_createdAt
      (filter (λ p, project_hit term p = true) (projects st)).

Definition skill_hits (term : string) (st : Store) : list json :=
  found_skill <$>
    Prisma.order_desc skill_proficiencyLevel
      (filter (λ s, skill_hit term s = true) (skills st)).

Definition work_hits (term : string) (st : Store) : list json :=
  found_work <$>
    latest_start_first (filter (λ w, work_hit term w = true) (workExperience st)).

(** [type === 'all' || type === category] *)
Definition selected (type category : string) : bool :=
  String.eqb type "all" || String.eqb type category.

(** One [if (type === 'all' || type === ...)] block: the bucket keeps its
    initial [[]] unless the category is selected; [None] when [findMany]
    throws. *)
Definition bucket (type category : string) (take skip : option Z)
    (hits : list json) : option (list json) :=
  if selected type category then window take skip hits else Some [].

Definition num_json (n : option Z) : json :=
  match n with
  | Some n => JNum n
  | None => JNull
  end.

Definition search (q : Query) (st : Store) : Response :=
  let type := default "all" (query_type q) in
  let take := from_option Js.parseInt (Some 20) (query_limit q) in
  let skip := from_option Js.parseInt (Some 0) (query_offset q) in
  if negb (Js.truthy (query_q q))
     || (String.length (Js.trim (default "" (query_q q))) =? 0)%nat
  then {| status := 400; body := JObj [("error", JStr "Search query is required")] |}
  else
    let searchTerm := Js.trim (default "" (query_q q)) in
    let results :=
      profiles ← bucket type "profiles" take skip (profile_hits searchTerm st);
      projects ← bucket type "projects" take skip (project_hits searchTerm st);
      skills ← bucket type "skills" take skip (skill_hits searchTerm st);
      workExperience ← bucket type "work" take skip (work_hits searchTerm st);
      Some {| res_profiles := profiles; res_projects := projects;
              res_skills := skills; res_workExperience := workExperience |} in
    match results with
    | Some results =>
        {| status := 200;
           body := JObj [("query", opt_str (query_q q));
                         ("type", JStr type);
                         ("results", results_json results);
                         ("pagination", JObj [("limit", num_json take);
                                              ("offset", num_json skip)])] |}
    | None =>
        {| status := 500; body := JObj [("error", JStr "Failed to perform search")] |}
    end.

End QueryRoutes.

Import Prisma ProfileRoutes QueryRoutes.

(* ===================================================================== *)
(** ** Vocabulary of the specification *)
(* ===================================================================== *)

(** A request carries a bearer token when its Authorization header reads
    [Bearer <token>] with a token that is not empty. *)
Definition carries_bearer_token (req : Request) : Prop :=
  ∃ token, req_authorization req = Some ("Bearer " ++ token) ∧ token ≠ "".

(** What the middleware looks at: a request names a token when its
    Authorization header has a non-empty second word, whatever the first
    word is. *)
Definition names_token (req : Request) : Prop :=
  ∃ header scheme token rest,
    req_authorization req = Some header
    ∧ Js.split " " header = scheme :: token :: rest
    ∧ token ≠ "".

(** The code of an error body. *)
Definition error_code (res : Response) : option json := field "code" (body res).

(** A string is blank when it consists of white space only. *)
Fixpoint blank (s : string) : bool :=
  match s with
  | EmptyString => true
  | String c rest => Js.is_space c && blank rest
  end.

(** The primary key of the profile table: ids are pairwise distinct and
    below the next value of the sequence. *)
Definition primary_key (st : Store) : Prop :=
  NoDup (profile_id <$> profiles st)
  ∧ Forall (λ p, profile_id p < next_profile st) (profiles st).

(** The foreign key of the project table: every project has its profile. *)
Definition projects_owned (st : Store) : Prop :=
  Forall (λ p, Exists (λ o, profile_id o = project_profileId p) (profiles st))
         (projects st).

(** The profile a PUT addresses: the most recently created one. *)
Definition latest_profile (st : Store) : option Profile :=
  head (order_desc profile_createdAt (profiles st)).

(** No profile other than [id] holds [email]. *)
Definition email_free (email : string) (id : Z) (st : Store) : Prop :=
  ∀ p, p ∈ profiles st → profile_email p = email → profile_id p = id.

(** The limit and offset a query asks for, with the documented defaults. *)
Definition requested_limit (q : Query) : Z :=
  from_option to_number 10 (query_limit q).

Definition requested_offset (q : Query) : Z :=
  from_option to_number 0 (query_offset q).

(** What the routes throw: application errors and Prisma's. *)
Definition raised_by_routes (e : JsError) : Prop :=
  err_name e = "Error" ∨ err_name e = "PrismaClientKnownRequestError".

(** What one operation does to the profile table. *)
Inductive profiles_change (st st' : Store) : Prop :=
| Unchanged :
    profiles st' = profiles st →
    next_profile st ≤ next_profile st' →
    profiles_change st st'
| Inserted (now : Z) (d : ProfileData) :
    d_email d ∉ emails st →
    profiles st' = (profiles st ++ [new_profile now (next_profile st) d])%list →
    next_profile st' = next_profile st + 1 →
    profiles_change st st'
| Updated (now id : Z) (d : ProfileData) :
    email_free (d_email d) id st →
    profiles st'
    = ((λ p, if bool_decide (profile_id p = id)
             then updated_profile now d p else p) <$> profiles st) →
    next_profile st' = next_profile st →
    profiles_change st st'
| Emptied :
    profiles st' = [] →
    next_profile st' = next_profile st →
    profiles_change st st'.

(** The [q] parameter is missing or blank. *)
Definition missing_or_blank (q : Query) : Prop :=
  match query_q q with
  | None => True
  | Some s => blank s = true
  end.

(** The search term, and the [take] and [skip] every category uses. *)
Definition search_term (q : Query) : string := Js.trim (default "" (query_q q)).

Definition search_take (q : Query) : option Z :=
  from_option Js.parseInt (Some 20) (query_limit q).

Definition search_skip (q : Query) : option Z :=
  from_option Js.parseInt (Some 0) (query_offset q).

(** A category runs exactly when [type] selects it: its bucket is then the
    page of its hits, and stays empty otherwise. *)
Definition bucket_holds (q : Query) (category : string) (hits page : list json)
  : Prop :=
  if selected (default "all" (query_type q)) category
  then window (search_take q) (search_skip q) hits = Some page
  else page = [].

(** The body of a successful search. *)
Definition search_body (q : Query) (r : SearchResults) : json :=
  JObj [("query", opt_str (query_q q));
        ("type", JStr (default "all" (query_type q)));
        ("results", results_json r);
        ("pagination", JObj [("limit", num_json (search_take q));
                             ("offset", num_json (search_skip q))])].

(** *** Concrete requests and states used in the examples *)

Definition verify_none_expired : string → Verified :=
  λ token, if String.eqb token "stale.jwt.token"
           then Invalid TokenExpiredError
           else Invalid JsonWebTokenError.

Definition sign_fixed : Claims → option string := λ _, Some "signed.jwt.token".

(** A verifier that accepts exactly what [sign_fixed] issues. *)
Definition verify_fixed : string → Verified :=
  λ token, if String.eqb token "signed.jwt.token"
           then Valid {| claim_id := 1; claim_username := "admin";
                         claim_role := "admin" |}
           else Invalid JsonWebTokenError.

Definition compare_fixed : string → string → bool :=
  λ password hash,
    String.eqb password "password"
    && String.eqb hash
         "$2a$10$92IXUNpkjO0rOQ5byMi.Ye4oKoEa3Ro9llC/.og/at2.uheWG/igi".

Definition post_without_header : Request :=
  {| req_method := "POST"; req_authorization := None; req_user := None |}.

Definition get_without_header : Request :=
  {| req_method := "GET"; req_authorization := None; req_user := None |}.

Definition post_with_stale_token : Request :=
  {| req_method := "POST";
     req_authorization := Some "Bearer stale.jwt.token";
     req_user := None |}.

(** A POST that sends a token under the Basic scheme. *)
Definition post_with_basic_scheme : Request :=
  {| req_method := "POST";
     req_authorization := Some "Basic signed.jwt.token";
     req_user := None |}.

(** Two login attempts with the number 123 as password. *)
Definition admin_with_number : LoginBody :=
  {| login_username := Some (JStr "admin"); login_password := Some (JNum 123) |}.

Definition stranger_with_number : LoginBody :=
  {| login_username := Some (JStr "nonexistent");
     login_password := Some (JNum 123) |}.

Definition ada : ProfileBody :=
  {| body_name := "Ada"; body_email := "ada@example.com";
     body_education := Some "Mathematics";
     body_skills := Some [SkillString "JavaScript"; SkillObject "Python" (Some 4)];
     body_projects :=
       Some [ {| in_title := "JavaScript Project";
                 in_description := "A project built with JavaScript";
                 in_links := Some [("GitHub", "https://github.com/js-project")] |};
              {| in_title := "Python Project";
                 in_description := "A project built with Python";
                 in_links := None |} ];
     body_workExperience :=
       Some [ {| in_company := "Tech Corp"; in_position := "Developer";
                 in_start_date := "2023-01"; in_end_date := Some "2024-01";
                 in_work_description := None |} ];
     body_github_url := None; body_linkedin_url := None;
     body_portfolio_url := None |}.

Definition bob : ProfileBody :=
  {| body_name := "Bob"; body_email := "bob@example.com";
     body_education := None;
     body_skills := Some [SkillString "Go"];
     body_projects := None;
     body_workExperience := None;
     body_github_url := None; body_linkedin_url := None;
     body_portfolio_url := None |}.

(** Bob's update that takes Ada's email and sends an empty skill list. *)
Definition bob_as_ada : ProfileBody :=
  {| body_name := "Bob"; body_email := "ada@example.com";
     body_education := None;
     body_skills := Some [];
     body_projects := None;
     body_workExperience := None;
     body_github_url := None; body_linkedin_url := None;
     body_portfolio_url := None |}.

(** Bob's update that keeps his email and sends an empty skill list. *)
Definition bob_cleared : ProfileBody :=
  {| body_name := "Bob"; body_email := "bob@example.com";
     body_education := None;
     body_skills := Some [];
     body_projects := None;
     body_workExperience := None;
     body_github_url := None; body_linkedin_url := None;
     body_portfolio_url := None |}.

(** Bob's update under a new name, with a level beyond the 32-bit range. *)
Definition bob_overflow : ProfileBody :=
  {| body_name := "Robert"; body_email := "bob@example.com";
     body_education := None;
     body_skills := Some [SkillObject "Rust" (Some 3000000000)];
     body_projects := None;
     body_workExperience := None;
     body_github_url := None; body_linkedin_url := None;
     body_portfolio_url := None |}.

(** The store after Ada's profile was created at time 10. *)
Definition one_profile : Store := step false Db.empty (POST 10 ada).

(** The store after Bob's profile was created at time 20 as well. *)
Definition two_profiles : Store := step false one_profile (POST 20 bob).

Definition blank_search : Query :=
  {| query_q := Some ""; query_type := None; query_limit := None;
     query_offset := None; query_skill := None |}.

Definition project_search : Query :=
  {| query_q := Some "JavaScript"; query_type := Some "projects";
     query_limit := None; query_offset := None; query_skill := None |}.

Definition first_python_project : Query :=
  {| query_q := None; query_type := None; query_limit := Some "1";
     query_offset := Some "0"; query_skill := Some "Python" |}.

(* ===================================================================== *)
(** ** The rest of the routers and middleware *)
(* ===================================================================== *)

Module ProfileRead.

(** The entries of [skillsWithLevel]. *)
Definition skill_with_level (s : Skill) : json :=
  JObj [("skill_name", JStr (skill_skillName s));
        ("proficiency_level", JNum (skill_proficiencyLevel s))].

(** The callback of [profiles.map] in [router.get('/')]: the columns of
    the row, then the renamed copies, with [skills], [projects] and
    [workExperience] replaced by their reshaped lists. The included work
    experience is ordered by [startDate], newest first. The order of the
    keys of the object is of no consequence. *)
Definition transformed_profile (st : Store) (p : Profile) : json :=
  let skills := skills_of (profile_id p) st in
  let projects := projects_of (profile_id p) st in
  let workExperience := latest_start_first (work_of (profile_id p) st) in
  JObj [("id", JNum (profile_id p));
        ("name", JStr (profile_name p));
        ("email", JStr (profile_email p));
        ("education", opt_str (profile_education p));
        ("githubUrl", opt_str (profile_githubUrl p));
        ("linkedinUrl", opt_str (profile_linkedinUrl p));
        ("portfolioUrl", opt_str (profile_portfolioUrl p));
        ("createdAt", JNum (profile_createdAt p));
        ("updatedAt", JNum (profile_updatedAt p));
        ("skills", JArr ((λ s, JStr (skill_skillName s)) <$> skills));
        ("projects", JArr (found_project <$> projects));
        ("workExperience", JArr (found_work <$> workExperience));
        ("github_url", opt_str (profile_githubUrl p));
        ("linkedin_url", opt_str (profile_linkedinUrl p));
        ("portfolio_url", opt_str (profile_portfolioUrl p));
        ("created_at", JNum (profile_createdAt p));
        ("updated_at", JNum (profile_updatedAt p));
        ("skillsWithLevel", JArr (skill_with_level <$> skills))].

(** [router.get('/')] *)
Definition get_profiles : Stmt Response :=
  λ st,
    let profiles := order_desc profile_createdAt (profiles st) in
    if (length profiles =? 0)%nat
    then Fail (AppError "No profiles found" 404 (Some "PROFILES_NOT_FOUND")) st
    else Ok {| status := 200;
               body := JArr (transformed_profile st <$> profiles) |} st.

End ProfileRead.

Module StatsRoutes.

(** [prisma.skill.groupBy({ by: ['skillName'], _count: { skillName: true } })]:
    one group per distinct name, with the number of rows that carry it. *)
Definition groupBy_skillName (rows : list Skill) : list (string * nat) :=
  (λ name, (name, length (filter (λ s, skill_skillName s = name) rows)))
    <$> remove_dups (skill_skillName <$> rows).

(** [orderBy: { _count: { skillName: 'desc' } }] *)
Definition most_frequent_first (groups : list (string * nat))
  : list (string * nat) :=
  @merge_sort (string * nat) (λ a b, (b.2 ≤ a.2)%nat)
    (λ a b, decide (b.2 ≤ a.2)%nat) groups.

Definition top_skill (g : string * nat) : json :=
  JObj [("name", JStr g.1); ("frequency", JNum (Z.of_nat g.2))].

(** The five most frequent groups. *)
Definition topSkills (st : Store) : list (string * nat) :=
  take 5 (most_frequent_first (groupBy_skillName (skills st))).

(** [router.get('/stats')] *)
Definition get_stats (st : Store) : Response :=
  let totalProfiles := length (profiles st) in
  let totalProjects := length (projects st) in
  let uniqueSkills := length (groupBy_skillName (skills st)) in
  let totalWorkExperience := length (workExperience st) in
  {| status := 200;
     body := JObj [("total_profiles", JNum (Z.of_nat totalProfiles));
                   ("total_projects", JNum (Z.of_nat totalProjects));
                   ("unique_skills", JNum (Z.of_nat uniqueSkills));
                   ("total_work_experience", JNum (Z.of_nat totalWorkExperience));
                   ("topSkills", JArr (top_skill <$> topSkills st))] |}.

Definition listed_skill (s : Skill) : json :=
  JObj [("name", JStr (skill_skillName s));
        ("proficiency", JNum (skill_proficiencyLevel s))].

(** [orderBy: { skillName: 'asc' }]; [text_le] is the order of the
    database collation on text. *)
Definition by_name (text_le : string → string → bool) (rows : list Skill)
  : list Skill :=
  @merge_sort Skill
    (λ a b, text_le (skill_skillName a) (skill_skillName b) = true)
    (λ a b, decide (text_le (skill_skillName a) (skill_skillName b) = true))
    rows.

(** [router.get('/skills')]: with a non-empty [profile_id] the rows of the
    profile whose id is [parseInt(profile_id)], all rows otherwise. A
    [profile_id] that does not parse makes [findMany] throw. *)
Definition get_skills (text_le : string → string → bool)
    (profile_id : option string) (st : Store) : Response :=
  let rows :=
    if Js.truthy profile_id
    then id ← Js.parseInt (default "" profile_id);
         Some (filter (λ s, skill_profileId s = id) (Db.skills st))
    else Some (Db.skills st) in
  match rows with
  | Some rows =>
      {| status := 200;
         body := JObj [("skills", JArr (listed_skill <$> by_name text_le rows))] |}
  | None =>
      {| status := 500; body := JObj [("error", JStr "Failed to fetch skills")] |}
  end.

End StatsRoutes.

Import ProfileRead StatsRoutes.

(** *** Vocabulary for the whole store *)

(** Every child row belongs to a stored profile. *)
Definition children_owned (st : Store) : Prop :=
  Forall (λ s, skill_profileId s ∈ profile_id <$> profiles st) (Db.skills st)
  ∧ Forall (λ p, project_profileId p ∈ profile_id <$> profiles st) (projects st)
  ∧ Forall (λ w, work_profileId w ∈ profile_id <$> profiles st)
           (workExperience st).

(** Every stored proficiency level is a 32-bit integer other than 0. *)
Definition levels_valid (st : Store) : Prop :=
  Forall (λ s, skill_proficiencyLevel s ≠ 0
               ∧ -2147483648 ≤ skill_proficiencyLevel s ≤ 2147483647)
         (Db.skills st).

(** The statements of the transaction before the first insert, on a target
    whose email is free. *)
Definition cleared_for (now : Z) (b : ProfileBody) (target : Profile)
    (st : Store) : Store :=
  set_work
    (filter (λ w, work_profileId w ≠ profile_id target) (workExperience st))
    (set_projects
       (filter (λ p, project_profileId p ≠ profile_id target) (projects st))
       (set_skills
          (filter (λ s, skill_profileId s ≠ profile_id target) (skills st))
          (set_profiles
             ((λ p, if bool_decide (profile_id p = profile_id target)
                    then updated_profile now (profile_data b) p
                    else p) <$> profiles st)
             st))).

(** Two states hold the same rows; the sequences may differ. *)
Definition same_rows (st st' : Store) : Prop :=
  profiles st' = profiles st
  ∧ Db.skills st' = Db.skills st
  ∧ projects st' = projects st
  ∧ workExperience st' = workExperience st.

(** A search term without the three characters that ILIKE reads as part of
    a pattern. *)
Fixpoint plain (term : string) : bool :=
  match term with
  | EmptyString => true
  | String c rest =>
      negb (Ascii.eqb c "%") && negb (Ascii.eqb c "_")
      && negb (Ascii.eqb c "\") && plain rest
  end.

(** [column] contains [term], the case of ASCII letters aside. *)
Definition contains_text (term column : string) : Prop :=
  ∃ before after,
    Js.lower_string column = before ++ Js.lower_string term ++ after.

Definition contains_text_opt (term : string) (column : option string) : Prop :=
  ∃ text, column = Some text ∧ contains_text term text.

(** The columns each category of the search looks into. *)
Definition profile_contains (term : string) (p : Profile) : Prop :=
  contains_text term (profile_name p)
  ∨ contains_text term (profile_email p)
  ∨ contains_text_opt term (profile_education p).

Definition project_contains (term : string) (p : Project) : Prop :=
  contains_text term (project_title p)
  ∨ contains_text term (project_description p).

Definition skill_contains (term : string) (s : Skill) : Prop :=
  contains_text term (skill_skillName s).

Definition work_contains (term : string) (w : WorkExperience) : Prop :=
  contains_text term (work_company w)
  ∨ contains_text term (work_position w)
  ∨ contains_text_opt term (work_description w).

(** The profile of the project has a skill whose name contains [skill]. *)
Definition owner_has_skill (skill : string) (st : Store) (p : Project) : Prop :=
  ∃ owner s,
    owner ∈ profiles st ∧ profile_id owner = project_profileId p
    ∧ s ∈ Db.skills st ∧ skill_profileId s = profile_id owner
    ∧ contains_text skill (skill_skillName s).

(** The literal pattern for a text. *)
Fixpoint literally (text : string) : list LikeToken :=
  match text with
  | EmptyString => []
  | String c rest => Literal c :: literally rest
  end.

(** A token as [jwt.sign] produces them: not empty and without a space. *)
Fixpoint no_space (s : string) : bool :=
  match s with
  | EmptyString => true
  | String c rest => negb (Ascii.eqb c " ") && no_space rest
  end.

(** What one write operation does to the four tables. *)
Inductive store_change (st st' : Store) : Prop :=
| Same :
    same_rows st st' → store_change st st'
| Created (now : Z) (b : ProfileBody) :
    body_email b ∉ emails st →
    levels_fit (supplied_skills b) = true →
    profiles st'
    = (profiles st
       ++ [new_profile now (next_profile st) (profile_data b)])%list →
    Db.skills st'
    = (Db.skills st
       ++ imap (skill_row (next_profile st) (next_skill st))
            (supplied_skills b))%list →
    projects st'
    = (projects st
       ++ imap (project_row now (next_profile st) (next_project st))
            (supplied_projects b))%list →
    workExperience st'
    = (workExperience st
       ++ imap (work_row (next_profile st) (next_work st))
            (supplied_work b))%list →
    store_change st st'
| Replaced (now : Z) (b : ProfileBody) (target : Profile) :
    target ∈ profiles st →
    levels_fit (supplied_skills b) = true →
    profiles st'
    = ((λ p, if bool_decide (profile_id p = profile_id target)
             then updated_profile now (profile_data b) p else p)
         <$> profiles st) →
    Db.skills st'
    = (filter (λ s, skill_profileId s ≠ profile_id target) (Db.skills st)
       ++ imap (skill_row (profile_id target) (next_skill st))
            (supplied_skills b))%list →
    projects st'
    = (filter (λ p, project_profileId p ≠ profile_id target) (projects st)
       ++ imap (project_row now (profile_id target) (next_project st))
            (supplied_projects b))%list →
    workExperience st'
    = (filter (λ w, work_profileId w ≠ profile_id target) (workExperience st)
       ++ imap (work_row (profile_id target) (next_work st))
            (supplied_work b))%list →
    store_change st st'
| Cleared :
    profiles st' = [] →
    Db.skills st'
    = filter (λ s, skill_profileId s ∉ profile_id <$> profiles st)
             (Db.skills st) →
    projects st'
    = filter (λ p, project_profileId p ∉ profile_id <$> profiles st)
             (projects st) →
    workExperience st'
    = filter (λ w, work_profileId w ∉ profile_id <$> profiles st)
             (workExperience st) →
    store_change st st'
| ProjectGone (n : Z) :
    profiles st' = profiles st →
    Db.skills st' = Db.skills st →
    projects st' = filter (λ p, project_id p ≠ n) (projects st) →
    workExperience st' = workExperience st →
    store_change st st'
| WorkGone (n : Z) :
    profiles st' = profiles st →
    Db.skills st' = Db.skills st →
    projects st' = projects st →
    workExperience st' = filter (λ w, work_id w ≠ n) (workExperience st) →
    store_change st st'.

(** The results of [project_search] on [two_profiles]. *)
Definition project_search_results : SearchResults :=
  {| res_profiles := [];
     res_projects :=
       [JObj [("id", JNum 1); ("title", JStr "JavaScript Project");
              ("description", JStr "A project built with JavaScript");
              ("links",
               JArr [JObj [("name", JStr "GitHub");
                           ("url", JStr "https://github.com/js-project")]]);
              ("created_at", JNum 10)]];
     res_skills := [];
     res_workExperience := [] |}.

(* ===================================================================== *)
(** ** The auth gate *)
(* ===================================================================== *)

Section AuthGate.

Variable jwt_verify : string → Verified.

Lemma no_token_falsy (req : Request) :
  ¬ names_token req →
  Js.truthy (bearer_token (req_authorization req)) = false.
Proof.
  intros Hno. unfold bearer_token.
  destruct (req_authorization req) as [header|] eqn:Hh; [|done].
  destruct (String.eqb header "") eqn:He; [done|].
  destruct (Js.split " " header) as [|scheme [|token rest]] eqn:Hs; try done.
  simpl. destruct (String.eqb token "") eqn:Ht; [done|].
  exfalso. apply Hno. exists header, scheme, token, rest.
  repeat split; try done.
  intros ->. by rewrite String.eqb_refl in Ht.
Qed.

Lemma split_nonempty (sep : ascii) (s : string) : Js.split sep s ≠ [].
Proof.
  destruct s as [|c s]; [done|]. simpl.
  destruct (Ascii.eqb c sep); [done|]. by destruct (Js.split sep s).
Qed.

Lemma named_token_read (req : Request) :
  names_token req →
  ∃ token, bearer_token (req_authorization req) = Some token ∧ token ≠ "".
Proof.
  intros (header & scheme & token & rest & Hh & Hs & Hne).
  exists token. split; [|done]. unfold bearer_token. rewrite Hh.
  destruct (String.eqb_spec header "") as [->|_]; [done|].
  by rewrite Hs.
Qed.

Lemma requireAuth_not_get (req : Request) :
  req_method req ≠ "GET" →
  requireAuth jwt_verify req = authenticateToken jwt_verify req.
Proof.
  intros Hm. unfold requireAuth.
  destruct (String.eqb_spec (req_method req) "GET"); done.
Qed.

End AuthGate.

(** C2 (as stated) fails: the scheme word of the header is never
    compared. A POST whose Authorization header is [Basic signed.jwt.token]
    carries no bearer token, yet it is not answered 401 NO_TOKEN: the
    second word is verified as a token and, when it verifies, the request
    passes the gate and the protected handler runs. *)
Lemma basic_scheme_passes_gate :
  req_method post_with_basic_scheme ≠ "GET"
  ∧ ¬ carries_bearer_token post_with_basic_scheme
  ∧ requireAuth verify_fixed post_with_basic_scheme
    = Next (set_user post_with_basic_scheme
              {| claim_id := 1; claim_username := "admin";
                 claim_role := "admin" |})
  ∧ protected verify_fixed (λ _ (st : Store), (Db.empty, mkResponse 200 JNull))
      post_with_basic_scheme two_profiles
    = (Db.empty, mkResponse 200 JNull).
Proof.
  split; [simpl; discriminate|]. split; [|split; reflexivity].
  intros (token & Hh & _). simpl in Hh. discriminate.
Qed.

(** C2 (amended): requireAuth lets every GET request through unchanged,
    whatever its headers and whatever the token verifier would say. A
    request of any other method whose Authorization header is absent or has
    no non-empty second word is answered 401 NO_TOKEN and the protected
    handler is not run (the store is left as it was, for every handler).
    The first word of the header is not examined: as soon as a second word
    is there it is verified as the token, and the answer is never 401. *)
Theorem requireAuth_gate (jwt_verify : string → Verified) :
  (∀ req, req_method req = "GET" → requireAuth jwt_verify req = Next req)
  ∧ (∀ (S : Type) (h : Request → S → S * Response) req (st : S),
       req_method req ≠ "GET" →
       ¬ names_token req →
       protected jwt_verify h req st
       = (st, {| status := 401;
                 body := JObj [("error", JStr "Access denied. No token provided.");
                               ("code", JStr "NO_TOKEN")] |}))
  ∧ (∀ req, req_method req ≠ "GET" → names_token req →
       ∃ token, bearer_token (req_authorization req) = Some token
                ∧ match jwt_verify token with
                  | Valid user => requireAuth jwt_verify req
                                  = Next (set_user req user)
                  | Invalid _ =>
                      ∃ res, requireAuth jwt_verify req = Reply res
                             ∧ status res = 403%nat
                  end).
Proof.
  split; [|split].
  - intros req Hget. unfold requireAuth. by rewrite Hget.
  - intros S h req st Hm Hno. unfold protected.
    rewrite requireAuth_not_get by done.
    unfold authenticateToken. by rewrite no_token_falsy.
  - intros req Hm Hnamed.
    destruct (named_token_read req Hnamed) as (token & Ht & Hne).
    exists token. split; [done|].
    rewrite requireAuth_not_get by done.
    unfold authenticateToken. rewrite Ht. simpl.
    destruct (String.eqb_spec token ""); [done|]. simpl.
    destruct (jwt_verify token); [done|]. by eexists.
Qed.

Lemma requireAuth_gate_witness :
  requireAuth verify_none_expired get_without_header = Next get_without_header
  ∧ protected verify_none_expired (λ _ (st : Store), (Db.empty, mkResponse 200 JNull))
      post_without_header two_profiles
    = (two_profiles,
       {| status := 401;
          body := JObj [("error", JStr "Access denied. No token provided.");
                        ("code", JStr "NO_TOKEN")] |}).
Proof.
  split.
  - apply (proj1 (requireAuth_gate verify_none_expired)). reflexivity.
  - apply (proj1 (proj2 (requireAuth_gate verify_none_expired))).
    + simpl. discriminate.
    + intros (header & scheme & token & rest & Hh & _). simpl in Hh. discriminate.
Defined.

(** C3 (as stated) fails: a POST with an expired bearer token is answered
    403, but with the code INVALID_TOKEN, not TOKEN_EXPIRED. *)
Lemma expired_token_reported_as_invalid :
  req_method post_with_stale_token ≠ "GET"
  ∧ bearer_token (req_authorization post_with_stale_token) = Some "stale.jwt.token"
  ∧ verify_none_expired "stale.jwt.token" = Invalid TokenExpiredError
  ∧ ∃ res, requireAuth verify_none_expired post_with_stale_token = Reply res
           ∧ status res = 403%nat
           ∧ error_code res = Some (JStr "INVALID_TOKEN")
           ∧ error_code res ≠ Some (JStr "TOKEN_EXPIRED").
Proof.
  split; [simpl; discriminate|].
  split; [reflexivity|]. split; [reflexivity|].
  eexists. split; [reflexivity|]. split; [reflexivity|].
  split; [reflexivity|discriminate].
Qed.

(** C3 (amended): a non-GET request whose bearer token fails verification,
    for whatever reason (expiry included), is answered 403 with the code
    INVALID_TOKEN. *)
Theorem rejected_token_is_invalid_token
    (jwt_verify : string → Verified) (req : Request) (token : string)
    (err : JwtError) :
  req_method req ≠ "GET" →
  bearer_token (req_authorization req) = Some token →
  token ≠ "" →
  jwt_verify token = Invalid err →
  requireAuth jwt_verify req
  = Reply {| status := 403;
             body := JObj [("error", JStr "Access denied. Invalid token.");
                           ("code", JStr "INVALID_TOKEN")] |}.
Proof.
  intros Hm Ht Hne Hv. rewrite requireAuth_not_get by done.
  unfold authenticateToken. rewrite Ht. simpl.
  destruct (String.eqb_spec token ""); [done|]. simpl. by rewrite Hv.
Qed.

Lemma rejected_token_is_invalid_token_witness :
  requireAuth verify_none_expired post_with_stale_token
  = Reply {| status := 403;
             body := JObj [("error", JStr "Access denied. Invalid token.");
                           ("code", JStr "INVALID_TOKEN")] |}.
Proof.
  apply (rejected_token_is_invalid_token verify_none_expired
           post_with_stale_token "stale.jwt.token" TokenExpiredError).
  - simpl. discriminate.
  - reflexivity.
  - discriminate.
  - reflexivity.
Defined.

(* ===================================================================== *)
(** ** Login *)
(* ===================================================================== *)

(** C10 (as stated) fails: both attempts below have a username and a
    password present, the number 123. For the stored username admin,
    bcrypt.compare rejects the number and the answer is 500 LOGIN_ERROR;
    for a username that is not stored the answer is 401
    INVALID_CREDENTIALS. The two responses differ, and tell which username
    exists. *)
Lemma numeric_password_tells_usernames_apart :
  json_truthy (login_username admin_with_number) = true
  ∧ json_truthy (login_password admin_with_number) = true
  ∧ json_truthy (login_username stranger_with_number) = true
  ∧ json_truthy (login_password stranger_with_number) = true
  ∧ login_password admin_with_number = login_password stranger_with_number
  ∧ is_Some (find_user (login_username admin_with_number))
  ∧ find_user (login_username stranger_with_number) = None
  ∧ login sign_fixed compare_fixed admin_with_number
    = {| status := 500;
         body := JObj [("error", JStr "Internal server error");
                       ("code", JStr "LOGIN_ERROR")] |}
  ∧ login sign_fixed compare_fixed stranger_with_number
    = {| status := 401;
         body := JObj [("error", JStr "Invalid credentials");
                       ("code", JStr "INVALID_CREDENTIALS")] |}
  ∧ login sign_fixed compare_fixed admin_with_number
    ≠ login sign_fixed compare_fixed stranger_with_number.
Proof.
  do 5 (split; [reflexivity|]). split; [by eexists|].
  do 3 (split; [reflexivity|]). discriminate.
Qed.

(** C10 (amended): with username and password both present and the
    password of the known user a string, as the documented request schema
    has it, a login for a username that is not in the user store and a
    login for a stored username whose password does not match receive the
    same response: 401 with Invalid credentials / INVALID_CREDENTIALS. *)
Theorem login_failures_indistinguishable
    (jwt_sign : Claims → option string)
    (bcrypt_compare : string → string → bool)
    (unknown known : LoginBody) (user : User) (password : string) :
  json_truthy (login_username unknown) = true →
  json_truthy (login_password unknown) = true →
  json_truthy (login_username known) = true →
  login_password known = Some (JStr password) →
  password ≠ "" →
  find_user (login_username unknown) = None →
  find_user (login_username known) = Some user →
  bcrypt_compare password (user_password user) = false →
  login jwt_sign bcrypt_compare unknown = login jwt_sign bcrypt_compare known
  ∧ login jwt_sign bcrypt_compare unknown
    = {| status := 401;
         body := JObj [("error", JStr "Invalid credentials");
                       ("code", JStr "INVALID_CREDENTIALS")] |}.
Proof.
  intros Hu1 Hp1 Hu2 Hp2 Hne Hnone Hsome Hbad. unfold login.
  rewrite Hu1, Hp1, Hu2, Hp2, Hnone, Hsome.
  cbn [json_truthy compare_password].
  destruct (String.eqb_spec password ""); [done|]. simpl.
  by rewrite Hbad.
Qed.

Lemma login_failures_indistinguishable_witness :
  login sign_fixed compare_fixed
    {| login_username := Some (JStr "nonexistent");
       login_password := Some (JStr "password") |}
  = login sign_fixed compare_fixed
      {| login_username := Some (JStr "admin");
         login_password := Some (JStr "wrongpassword") |}
  ∧ login sign_fixed compare_fixed
      {| login_username := Some (JStr "nonexistent");
         login_password := Some (JStr "password") |}
    = {| status := 401;
         body := JObj [("error", JStr "Invalid credentials");
                       ("code", JStr "INVALID_CREDENTIALS")] |}.
Proof.
  apply (login_failures_indistinguishable sign_fixed compare_fixed
           {| login_username := Some (JStr "nonexistent");
              login_password := Some (JStr "password") |}
           {| login_username := Some (JStr "admin");
              login_password := Some (JStr "wrongpassword") |}
           {| user_id := 1; user_username := "admin";
              user_password :=
                "$2a$10$92IXUNpkjO0rOQ5byMi.Ye4oKoEa3Ro9llC/.og/at2.uheWG/igi";
              user_role := "admin" |} "wrongpassword");
    try reflexivity.
  discriminate.
Defined.

(* ===================================================================== *)
(** ** Error responses *)
(* ===================================================================== *)

Lemma errorHandler_shape (development : bool) (err : JsError) (res : Response) :
  errorHandler development err = Some res → well_shaped_error res = true.
Proof.
  unfold errorHandler. intros H.
  apply bind_Some in H as (error & _ & H).
  injection H as <-. reflexivity.
Qed.

Lemma errorHandler_answers (development : bool) (err : JsError) :
  err_name err ≠ "ValidationError" →
  ∃ res, errorHandler development err = Some res.
Proof.
  intros Hn. unfold errorHandler.
  destruct (String.eqb_spec (err_name err) "ValidationError"); [done|].
  simpl. eauto.
Qed.

Lemma respond_shape (development : bool) (err : JsError) :
  err_name err ≠ "ValidationError" →
  well_shaped_error (respond development err) = true.
Proof.
  intros Hn. destruct (errorHandler_answers development err Hn) as [res Hres].
  unfold respond. rewrite Hres. simpl. by eapply errorHandler_shape.
Qed.

Ltac step_stmt :=
  repeat first
    [ progress (unfold Db.bind, Db.ret, Db.throw, Db.transaction in * )
    | progress simplify_eq/=
    | case_match ].

Lemma route_outcome (op : Operation) (st : Store) :
  match route op st with
  | Ok res _ => is_error res = false
  | Fail e _ => raised_by_routes e
  end.
Proof.
  destruct op; simpl;
    unfold post, put, delete, delete_project, delete_work,
      profile_findFirst_email, profile_findFirst_latest, profile_create,
      profile_update, skill_deleteMany, project_deleteMany,
      workExperience_deleteMany, skill_createMany, project_createMany,
      workExperience_createMany, profile_deleteMany_all, project_findUnique,
      project_delete, workExperience_findUnique, workExperience_delete,
      raised_by_routes;
    step_stmt; auto.
Qed.

Lemma serve_error_shape (development : bool) (op : Operation) (st : Store) :
  is_error (serve development (route op) st).2 = true →
  well_shaped_error (serve development (route op) st).2 = true.
Proof.
  unfold serve. pose proof (route_outcome op st) as H.
  destruct (route op st) as [res st'|e st']; simpl.
  - congruence.
  - intros _. apply respond_shape.
    destruct H as [-> | ->]; discriminate.
Qed.

Lemma get_projects_error_shape (development : bool) (q : Query) (st : Store) :
  is_error (get_projects development q st) = true →
  well_shaped_error (get_projects development q st) = true.
Proof.
  unfold get_projects, handleValidationErrors.
  destruct (validationResult q); [|done].
  unfold projects_handler.
  repeat case_match; simplify_eq/=; try done;
    intros _; by apply respond_shape.
Qed.

(** C9 (as stated) fails: the 400 answer of GET /api/search to a blank
    query is an error response whose body has an [error] string and no
    [code] field. *)
Lemma blank_search_error_has_no_code :
  status (search blank_search two_profiles) = 400%nat
  ∧ field "error" (body (search blank_search two_profiles))
    = Some (JStr "Search query is required")
  ∧ field "code" (body (search blank_search two_profiles)) = None
  ∧ well_shaped_error (search blank_search two_profiles) = false.
Proof. repeat split. Qed.

(** C9 (amended): every error response shaped by errorHandler, and hence
    every error response of the /api/profile operations and of
    GET /api/projects, every refusal of the auth gate, every failed login
    and every validation failure has a body with a string [error] and a
    string [code]; a validation failure also carries a [details] array. *)
Theorem coded_error_responses
    (development : bool) (jwt_verify : string → Verified)
    (jwt_sign : Claims → option string)
    (bcrypt_compare : string → string → bool) :
  (∀ err res, errorHandler development err = Some res →
              well_shaped_error res = true)
  ∧ (∀ op st, is_error (serve development (route op) st).2 = true →
              well_shaped_error (serve development (route op) st).2 = true)
  ∧ (∀ q st, is_error (get_projects development q st) = true →
             well_shaped_error (get_projects development q st) = true)
  ∧ (∀ req res, requireAuth jwt_verify req = Reply res →
                is_error res = true ∧ well_shaped_error res = true)
  ∧ (∀ b, is_error (login jwt_sign bcrypt_compare b) = true →
          well_shaped_error (login jwt_sign bcrypt_compare b) = true)
  ∧ (∀ errors res, handleValidationErrors errors = Some res →
                   well_shaped_error res = true
                   ∧ ∃ details, field "details" (body res) = Some (JArr details)).
Proof.
  split; [apply errorHandler_shape|].
  split; [apply serve_error_shape|].
  split; [apply get_projects_error_shape|].
  split; [|split].
  - intros req res. unfold requireAuth, authenticateToken.
    repeat case_match; intros; simplify_eq/=; done.
  - intros b. unfold login. repeat case_match; simpl; done.
  - intros errors res. unfold handleValidationErrors.
    destruct errors; intros; simplify_eq/=. split; [done|]. eauto.
Qed.

Lemma coded_error_responses_witness :
  well_shaped_error
    (serve false (route (POST 30 ada)) two_profiles).2 = true
  ∧ well_shaped_error
      (get_projects false
         {| query_q := None; query_type := None; query_limit := Some "0";
            query_offset := None; query_skill := None |} two_profiles) = true.
Proof.
  split.
  - apply (proj1 (proj2 (coded_error_responses false verify_none_expired
                           sign_fixed compare_fixed))).
    reflexivity.
  - apply (proj1 (proj2 (proj2 (coded_error_responses false verify_none_expired
                                  sign_fixed compare_fixed)))).
    reflexivity.
Defined.

(* ===================================================================== *)
(** ** DELETE /api/profile and POST /api/profile *)
(* ===================================================================== *)

(** The "Prisma errors" block of errorHandler tests [err.code] alone, so an
    [AppError] that carries its own code falls into the [default] case. *)
Lemma coded_AppError_becomes_database_error
    (development : bool) (message code : string) (statusCode : nat) :
  code ≠ "" → code ≠ "P2002" → code ≠ "P2025" → code ≠ "P2003" →
  status (respond development (AppError message statusCode (Some code))) = 500%nat
  ∧ error_code (respond development (AppError message statusCode (Some code)))
    = Some (JStr "DATABASE_ERROR").
Proof.
  intros H0 H1 H2 H3. unfold respond, errorHandler, prisma_case. simpl.
  destruct (String.eqb_spec code ""); [done|].
  destruct (String.eqb_spec code "P2002"); [done|].
  destruct (String.eqb_spec code "P2025"); [done|].
  destruct (String.eqb_spec code "P2003"); [done|].
  simpl. by destruct development.
Qed.


Lemma delete_succeeds_when_nonempty (development : bool) (st : Store) :
  profiles st ≠ [] →
  (serve development delete st).2
  = {| status := 200;
       body := JObj [("message", JStr "Profile deleted successfully")] |}.
Proof.
  intros Hne.
  unfold serve, delete, Db.bind, profile_deleteMany_all, Db.throw, Db.ret.
  by destruct (profiles st).
Qed.

(** C4: DELETE /api/profile on a store without profiles throws
    AppError 404 PROFILE_NOT_FOUND, which errorHandler turns into
    500 DATABASE_ERROR. *)
Theorem delete_without_profiles_answers_500 :
  serve false delete Db.empty
  = (Db.empty,
     {| status := 500;
        body := JObj [("error", JStr "Database error");
                      ("code", JStr "DATABASE_ERROR")] |}).
Proof. reflexivity. Qed.

Lemma findFirst_email_None (email : string) (st : Store) :
  email ∉ emails st →
  list_find (λ p, profile_email p = email) (profiles st) = None.
Proof.
  intros Hfresh. apply list_find_None, Forall_forall.
  intros p Hp Hemail. apply Hfresh. unfold emails.
  apply list_elem_of_fmap. eauto.
Qed.

Lemma email_taken_fresh (email : string) (st : Store) :
  email ∉ emails st → email_taken email None st = false.
Proof.
  intros Hfresh. unfold email_taken. apply bool_decide_eq_false.
  rewrite Exists_exists. intros (p & Hp & Hemail & _).
  apply Hfresh. unfold emails. apply list_elem_of_fmap. eauto.
Qed.

Lemma levels_fit_supplied (b : ProfileBody) :
  levels_fit match body_skills b with
             | Some skills => skill_of_input <$> skills
             | None => []
             end
  = levels_fit (supplied_skills b).
Proof. unfold supplied_skills. by destruct (body_skills b). Qed.

(** The success path of POST: one statement adds the profile with the next
    id and its children, and the id is returned. *)
Lemma post_fresh_email_creates (development : bool) (now : Z)
    (b : ProfileBody) (st : Store) :
  body_email b ∉ emails st →
  levels_fit (supplied_skills b) = true →
  ∃ st',
    serve development (post now b) st
    = (st', {| status := 201;
               body := JObj [("message", JStr "Profile created successfully");
                             ("profileId", JNum (next_profile st))] |})
    ∧ profiles st'
      = (profiles st ++ [new_profile now (next_profile st) (profile_data b)])%list
    ∧ skills st'
      = (skills st
         ++ imap (skill_row (next_profile st) (next_skill st)) (supplied_skills b))%list
    ∧ projects st'
      = (projects st
         ++ imap (project_row now (next_profile st) (next_project st))
              (supplied_projects b))%list
    ∧ workExperience st'
      = (workExperience st
         ++ imap (work_row (next_profile st) (next_work st)) (supplied_work b))%list
    ∧ next_profile st' = next_profile st + 1.
Proof.
  intros Hfresh Hfit. unfold serve, post, Db.bind, profile_findFirst_email.
  rewrite findFirst_email_None by done. simpl.
  unfold profile_create. simpl. rewrite email_taken_fresh by done.
  rewrite levels_fit_supplied, Hfit. simpl.
  eexists. split; [reflexivity|].
  unfold supplied_skills, supplied_projects, supplied_work.
  by destruct (body_skills b), (body_projects b), (body_workExperience b).
Qed.

(** The database refuses the nested create when a level does not fit: the
    rows stay as they were and the id drawn for the profile is lost. *)
Lemma post_level_refused (development : bool) (now : Z)
    (b : ProfileBody) (st : Store) :
  body_email b ∉ emails st →
  levels_fit (supplied_skills b) = false →
  ∃ st',
    serve development (post now b) st
    = (st', respond development value_out_of_range)
    ∧ same_rows st st'
    ∧ next_profile st' = next_profile st + 1.
Proof.
  intros Hfresh Hfit. unfold serve, post, Db.bind, profile_findFirst_email.
  rewrite findFirst_email_None by done. simpl.
  unfold profile_create. simpl. rewrite email_taken_fresh by done.
  rewrite levels_fit_supplied, Hfit. simpl.
  eexists. split; [reflexivity|]. by repeat split.
Qed.


(** C5: POST /api/profile with the email of a stored profile creates
    nothing, but the AppError 409 PROFILE_EXISTS it throws reaches the
    client as 500 DATABASE_ERROR. *)
Theorem post_duplicate_email_answers_500 :
  body_email ada ∈ emails two_profiles
  ∧ serve false (post 30 ada) two_profiles
    = (two_profiles,
       {| status := 500;
          body := JObj [("error", JStr "Database error");
                        ("code", JStr "DATABASE_ERROR")] |}).
Proof.
  split; [|reflexivity].
  apply list_elem_of_In. vm_compute. by left.
Qed.

(* ===================================================================== *)
(** ** PUT /api/profile *)
(* ===================================================================== *)

Section Tables.

Context {A B : Type}.




End Tables.

Lemma latest_profile_stored (st : Store) (target : Profile) :
  latest_profile st = Some target → target ∈ profiles st.
Proof.
  unfold latest_profile, order_desc. intros Hhead.
  apply head_Some_elem_of in Hhead.
  by rewrite merge_sort_Permutation in Hhead.
Qed.

Lemma email_free_not_taken (email : string) (id : Z) (st : Store) :
  email_free email id st → email_taken email (Some id) st = false.
Proof.
  intros Hfree. unfold email_taken. apply bool_decide_eq_false.
  rewrite Exists_exists. intros (p & Hp & Hemail & Hother).
  apply Hother. f_equal. by apply Hfree.
Qed.

Lemma email_taken_not_free (email : string) (id : Z) (st : Store) :
  email_taken email (Some id) st = true → ¬ email_free email id st.
Proof.
  unfold email_taken. intros Htaken Hfree.
  apply bool_decide_eq_true in Htaken. rewrite Exists_exists in Htaken.
  destruct Htaken as (p & Hp & Hemail & Hother).
  apply Hother. f_equal. by apply Hfree.
Qed.

Lemma stored_id_exists (st : Store) (target : Profile) :
  target ∈ profiles st →
  bool_decide (Exists (λ p, profile_id p = profile_id target) (profiles st)) = true.
Proof.
  intros Hin. apply bool_decide_eq_true, Exists_exists. eauto.
Qed.

Lemma add_skills_nil (pid : Z) (st : Store) : add_skills pid [] st = st.
Proof.
  destruct st. unfold add_skills. cbn [imap length Z.of_nat Db.skills Db.next_skill
    Db.profiles Db.projects Db.workExperience Db.next_profile Db.next_project
    Db.next_work].
  by rewrite app_nil_r, Z.add_0_r.
Qed.

Lemma add_projects_nil (now pid : Z) (st : Store) :
  add_projects now pid [] st = st.
Proof.
  destruct st. unfold add_projects. cbn [imap length Z.of_nat Db.skills
    Db.next_skill Db.profiles Db.projects Db.workExperience Db.next_profile
    Db.next_project Db.next_work].
  by rewrite app_nil_r, Z.add_0_r.
Qed.

Lemma add_work_nil (pid : Z) (st : Store) : add_work pid [] st = st.
Proof.
  destruct st. unfold add_work. cbn [imap length Z.of_nat Db.skills
    Db.next_skill Db.profiles Db.projects Db.workExperience Db.next_profile
    Db.next_project Db.next_work].
  by rewrite app_nil_r, Z.add_0_r.
Qed.

Lemma rolled_back_same (st : Store) : rolled_back st st = st.
Proof. by destruct st. Qed.

Lemma rolled_back_rows (st st' : Store) : same_rows st (rolled_back st st').
Proof. by repeat split. Qed.

(** The store a successful PUT leaves behind. *)
Lemma put_success (development : bool) (now : Z) (b : ProfileBody)
    (st : Store) (target : Profile) :
  latest_profile st = Some target →
  email_free (body_email b) (profile_id target) st →
  levels_fit (supplied_skills b) = true →
  serve development (put now b) st
  = (add_work (profile_id target) (supplied_work b)
       (add_projects now (profile_id target) (supplied_projects b)
          (add_skills (profile_id target) (supplied_skills b)
             (cleared_for now b target st))),
     {| status := 200;
        body := JObj [("message", JStr "Profile updated successfully")] |}).
Proof.
  intros Hlatest Hfree Hfit.
  pose proof (latest_profile_stored _ _ Hlatest) as Hin.
  unfold serve, put, Db.bind, Db.transaction, profile_findFirst_latest.
  fold (latest_profile st). rewrite Hlatest.
  unfold profile_update. simpl.
  rewrite stored_id_exists by done. simpl.
  rewrite email_free_not_taken by done.
  unfold cleared_for.
  revert Hfit. unfold supplied_skills, supplied_projects, supplied_work.
  destruct (body_skills b) as [sk|], (body_projects b) as [pr|],
    (body_workExperience b) as [wk|];
    cbv beta iota delta [skill_deleteMany project_deleteMany
      workExperience_deleteMany skill_createMany project_createMany
      workExperience_createMany Db.ret default fmap id];
    intros Hfit; rewrite ?Hfit;
    rewrite ?add_skills_nil, ?add_projects_nil, ?add_work_nil; reflexivity.
Qed.

(** When another profile holds the email, the transaction is rolled back. *)
Lemma put_rolled_back (development : bool) (now : Z) (b : ProfileBody)
    (st : Store) (target : Profile) :
  latest_profile st = Some target →
  email_taken (body_email b) (Some (profile_id target)) st = true →
  serve development (put now b) st
  = (st, respond development unique_violation).
Proof.
  intros Hlatest Htaken.
  pose proof (latest_profile_stored _ _ Hlatest) as Hin.
  unfold serve, put, Db.bind, Db.transaction, profile_findFirst_latest.
  fold (latest_profile st). rewrite Hlatest.
  unfold profile_update. simpl.
  rewrite stored_id_exists by done. simpl.
  rewrite Htaken. by rewrite rolled_back_same.
Qed.

(** When a level does not fit, [createMany] fails after the profile row
    was updated and the old child rows were deleted; the rollback undoes
    both. *)
Lemma put_level_refused (development : bool) (now : Z) (b : ProfileBody)
    (st : Store) (target : Profile) :
  latest_profile st = Some target →
  email_free (body_email b) (profile_id target) st →
  levels_fit (supplied_skills b) = false →
  serve development (put now b) st
  = (st, respond development value_out_of_range).
Proof.
  intros Hlatest Hfree Hfit.
  pose proof (latest_profile_stored _ _ Hlatest) as Hin.
  unfold serve, put, Db.bind, Db.transaction, profile_findFirst_latest.
  fold (latest_profile st). rewrite Hlatest.
  unfold profile_update. simpl.
  rewrite stored_id_exists by done. simpl.
  rewrite email_free_not_taken by done.
  revert Hfit. unfold supplied_skills.
  destruct (body_skills b) as [sk|]; [|done].
  cbv beta iota delta [skill_deleteMany project_deleteMany
    workExperience_deleteMany skill_createMany Db.ret default fmap id].
  intros Hfit. rewrite Hfit.
  f_equal. by destruct st.
Qed.

Lemma email_not_taken_free (email : string) (id : Z) (st : Store) :
  email_taken email (Some id) st = false → email_free email id st.
Proof.
  unfold email_taken. intros Hnot p Hp Hemail.
  apply bool_decide_eq_false in Hnot.
  destruct (decide (profile_id p = id)) as [|Hne]; [done|].
  exfalso. apply Hnot, Exists_exists. exists p.
  repeat split; try done. congruence.
Qed.





(* ===================================================================== *)
(** ** Email uniqueness *)
(* ===================================================================== *)

Lemma post_changes (development : bool) (now : Z) (b : ProfileBody) (st : Store) :
  profiles_change st (serve development (post now b) st).1.
Proof.
  destruct (decide (body_email b ∈ emails st)) as [Hin|Hfresh].
  - apply Unchanged;
      unfold serve, post, Db.bind, profile_findFirst_email, Db.throw;
      destruct (list_find _ (profiles st)) as [[i p]|] eqn:Hfind;
      cbn [fmap option_fmap option_map snd]; try reflexivity.
    all: exfalso; apply list_find_None in Hfind;
      unfold emails in Hin; apply list_elem_of_fmap in Hin as (p & Hp & Hin);
      rewrite Forall_forall in Hfind; by apply (Hfind p).
  - destruct (levels_fit (supplied_skills b)) eqn:Hfit.
    + destruct (post_fresh_email_creates development now b st Hfresh Hfit)
        as (st' & -> & Hps & _ & _ & _ & Hnext).
      by eapply Inserted with (d := profile_data b).
    + destruct (post_level_refused development now b st Hfresh Hfit)
        as (st' & -> & (Hps & _) & Hnext).
      apply Unchanged; [done|]. simpl. lia.
Qed.

Lemma put_changes (development : bool) (now : Z) (b : ProfileBody) (st : Store) :
  profiles_change st (serve development (put now b) st).1.
Proof.
  destruct (latest_profile st) as [target|] eqn:Hlatest.
  - destruct (email_taken (body_email b) (Some (profile_id target)) st) eqn:Ht.
    + rewrite (put_rolled_back development now b st target) by done.
      by apply Unchanged.
    + apply email_not_taken_free in Ht.
      destruct (levels_fit (supplied_skills b)) eqn:Hfit.
      * rewrite (put_success development now b st target) by done.
        by eapply Updated with (d := profile_data b).
      * rewrite (put_level_refused development now b st target) by done.
        by apply Unchanged.
  - apply Unchanged;
      unfold serve, put, Db.bind, profile_findFirst_latest;
      fold (latest_profile st); by rewrite Hlatest.
Qed.

Lemma delete_changes (development : bool) (st : Store) :
  profiles_change st (serve development delete st).1.
Proof.
  apply Emptied;
    unfold serve, delete, Db.bind, profile_deleteMany_all, Db.throw, Db.ret;
    by destruct (profiles st).
Qed.

Lemma delete_project_changes (development : bool) (id : string) (st : Store) :
  profiles_change st (serve development (delete_project id) st).1.
Proof.
  apply Unchanged;
    unfold serve, delete_project, Db.bind, Db.throw, Db.ret,
      project_findUnique, project_delete;
    destruct (Js.parseInt id) as [projectId|]; try reflexivity;
    destruct (list_find _ (projects st)) as [[i p]|];
    cbn [fmap option_fmap option_map snd]; try reflexivity;
    by destruct (bool_decide _).
Qed.

Lemma delete_work_changes (development : bool) (id : string) (st : Store) :
  profiles_change st (serve development (delete_work id) st).1.
Proof.
  apply Unchanged;
    unfold serve, delete_work, Db.bind, Db.throw, Db.ret,
      workExperience_findUnique, workExperience_delete;
    destruct (Js.parseInt id) as [workId|]; try reflexivity;
    destruct (list_find _ (workExperience st)) as [[i w]|];
    cbn [fmap option_fmap option_map snd]; try reflexivity;
    by destruct (bool_decide _).
Qed.

Lemma step_changes (development : bool) (st : Store) (op : Operation) :
  profiles_change st (step development st op).
Proof.
  unfold step. destruct op; simpl route.
  - apply post_changes.
  - apply put_changes.
  - apply delete_changes.
  - apply delete_project_changes.
  - apply delete_work_changes.
Qed.

Lemma updated_emails_NoDup (now id : Z) (d : ProfileData) (ps : list Profile) :
  NoDup (profile_id <$> ps) →
  NoDup (profile_email <$> ps) →
  (∀ p, p ∈ ps → profile_email p = d_email d → profile_id p = id) →
  NoDup (profile_email <$>
           ((λ p, if bool_decide (profile_id p = id)
                  then updated_profile now d p else p) <$> ps)).
Proof.
  induction ps as [|p ps IH]; intros Hid Hem Hfree; [constructor|].
  rewrite !fmap_cons in *.
  apply NoDup_cons in Hid as [Hpid Hid].
  apply NoDup_cons in Hem as [Hpem Hem].
  apply NoDup_cons. split.
  - rewrite <- list_fmap_compose. intros Hin.
    apply list_elem_of_fmap in Hin as (q & Heq & Hq). simpl in Heq.
    assert (Hqid : profile_id q ≠ profile_id p).
    { intros E. apply Hpid. rewrite <- E. apply list_elem_of_fmap; eauto. }
    assert (Hqem : profile_email q ≠ profile_email p).
    { intros E. apply Hpem. rewrite <- E. apply list_elem_of_fmap; eauto. }
    pose proof (Hfree p (list_elem_of_here _ _)) as Hp.
    pose proof (Hfree q (list_elem_of_further _ _ _ Hq)) as Hq'.
    repeat case_bool_decide; simpl in Heq; try congruence.
    + apply Hqid. rewrite Hq' by done. congruence.
    + apply Hqid. rewrite Hp by done. congruence.
  - apply IH; try done. intros q Hq. apply Hfree. by right.
Qed.

Lemma primary_key_preserved (development : bool) (st : Store) (op : Operation) :
  primary_key st → primary_key (step development st op).
Proof.
  intros [Hnd Hlt]. unfold primary_key.
  destruct (step_changes development st op) as
    [-> Hnext | now d _ -> -> | now id d _ -> -> | -> ->].
  - split; [done|]. eapply Forall_impl; [exact Hlt|]. simpl. intros; lia.
  - rewrite fmap_app. split.
    + apply NoDup_app. split; [done|]. split; [|apply NoDup_singleton].
      intros x Hx Hx'. apply list_elem_of_fmap in Hx as (p & -> & Hp).
      rewrite Forall_forall in Hlt. specialize (Hlt p Hp).
      apply list_elem_of_singleton in Hx'. simpl in Hx'. lia.
    + apply Forall_app. split.
      * eapply Forall_impl; [exact Hlt|]. simpl. intros; lia.
      * apply Forall_singleton. simpl. lia.
  - split.
    + rewrite <- list_fmap_compose.
      erewrite list_fmap_ext; [exact Hnd|].
      intros i p _. simpl. by case_bool_decide.
    + apply Forall_fmap. eapply Forall_impl; [exact Hlt|].
      intros p Hp. simpl. by case_bool_decide.
  - split; [constructor|constructor].
Qed.

Lemma step_keeps_emails_unique
    (development : bool) (st : Store) (op : Operation) :
  primary_key st →
  NoDup (emails st) →
  NoDup (emails (step development st op)).
Proof.
  intros [Hnd Hlt] Hem. unfold emails in *.
  destruct (step_changes development st op) as
    [-> _ | now d Hfresh -> _ | now id d Hfree -> _ | -> _].
  - done.
  - rewrite fmap_app. apply NoDup_app. split; [done|].
    split; [|apply NoDup_singleton].
    intros x Hx Hx'. apply list_elem_of_singleton in Hx'. simpl in Hx'.
    subst x. by apply Hfresh.
  - by apply updated_emails_NoDup.
  - constructor.
Qed.

(** Every state reached from the empty database keeps emails unique. *)
Corollary reachable_emails_unique (development : bool) (ops : list Operation) :
  NoDup (emails (foldl (step development) Db.empty ops)).
Proof.
  assert (H : ∀ st, primary_key st → NoDup (emails st) →
                    primary_key (foldl (step development) st ops)
                    ∧ NoDup (emails (foldl (step development) st ops))).
  { induction ops as [|op ops IH]; intros st Hpk Hem; [done|].
    simpl. apply IH.
    - by apply primary_key_preserved.
    - by apply step_keeps_emails_unique. }
  apply H.
  - split; constructor.
  - constructor.
Qed.

(** C8: in a database state whose profile ids form a primary key, if no
    two profiles share an email then no two profiles share an email after
    any write operation of the API (POST, PUT and DELETE on /api/profile,
    and the deletion of a single project or work-experience row). *)
Theorem email_uniqueness_preserved
    (development : bool) (st : Store) (op : Operation) :
  primary_key st →
  NoDup (emails st) →
  NoDup (emails (step development st op)).
Proof. apply step_keeps_emails_unique. Qed.

Lemma email_uniqueness_preserved_witness :
  NoDup (emails (step false two_profiles (PUT 30 bob_as_ada)))
  ∧ NoDup (emails (step false two_profiles (POST 30 ada))).
Proof.
  assert (Hpk : primary_key two_profiles).
  { split.
    - vm_compute. apply NoDup_cons. split.
      + intros H. apply list_elem_of_singleton in H. discriminate.
      + apply NoDup_singleton.
    - vm_compute. repeat constructor. }
  assert (Hem : NoDup (emails two_profiles)).
  { vm_compute. apply NoDup_cons. split.
    - intros H. apply list_elem_of_singleton in H. discriminate.
    - apply NoDup_singleton. }
  split.
  - exact (email_uniqueness_preserved false two_profiles (PUT 30 bob_as_ada) Hpk Hem).
  - exact (email_uniqueness_preserved false two_profiles (POST 30 ada) Hpk Hem).
Defined.

(* ===================================================================== *)
(** ** GET /api/search *)
(* ===================================================================== *)

Lemma trim_start_blank (s : string) : blank s = true → Js.trim_start s = "".
Proof.
  induction s as [|c s IH]; [done|]. simpl.
  intros [Hc Hs]%andb_true_iff. rewrite Hc. auto.
Qed.

Lemma blank_trim_start (s : string) : blank (Js.trim_start s) = true → blank s = true.
Proof.
  induction s as [|c s IH]; [done|]. simpl.
  destruct (Js.is_space c) eqn:Hc; simpl.
  - auto.
  - by rewrite Hc.
Qed.

Lemma trim_end_empty (s : string) : Js.trim_end s = "" → blank s = true.
Proof.
  induction s as [|c s IH]; [done|]. simpl.
  destruct (Js.trim_end s); [|done].
  destruct (Js.is_space c); [|done]. auto.
Qed.

Lemma trim_empty_iff (s : string) : Js.trim s = "" ↔ blank s = true.
Proof.
  unfold Js.trim. split.
  - intros H. by apply blank_trim_start, trim_end_empty.
  - intros H. by rewrite trim_start_blank.
Qed.

Lemma length_zero_iff (s : string) : (String.length s =? 0)%nat = true ↔ s = "".
Proof. destruct s; simpl; split; done. Qed.

Lemma search_guard (q : Query) :
  negb (Js.truthy (query_q q))
  || (String.length (Js.trim (default "" (query_q q))) =? 0)%nat = true
  ↔ missing_or_blank q.
Proof.
  unfold missing_or_blank. destruct (query_q q) as [s|]; simpl; [|done].
  rewrite orb_true_iff, length_zero_iff, trim_empty_iff, negb_true_iff.
  rewrite negb_false_iff. split; [|auto].
  intros [->%String.eqb_eq | H]; done.
Qed.

Lemma missing_or_blank_dec (q : Query) :
  missing_or_blank q ∨ ¬ missing_or_blank q.
Proof.
  unfold missing_or_blank. destruct (query_q q) as [s|]; [|by left].
  destruct (blank s); [by left|by right].
Qed.

(** The answer to a search that passes the guard. *)
Lemma search_run (q : Query) (st : Store) :
  ¬ missing_or_blank q →
  search q st
  = match
      (profiles ← bucket (default "all" (query_type q)) "profiles"
                    (search_take q) (search_skip q)
                    (profile_hits (search_term q) st);
       projects ← bucket (default "all" (query_type q)) "projects"
                    (search_take q) (search_skip q)
                    (project_hits (search_term q) st);
       skills ← bucket (default "all" (query_type q)) "skills"
                  (search_take q) (search_skip q)
                  (skill_hits (search_term q) st);
       workExperience ← bucket (default "all" (query_type q)) "work"
                          (search_take q) (search_skip q)
                          (work_hits (search_term q) st);
       Some {| res_profiles := profiles; res_projects := projects;
               res_skills := skills; res_workExperience := workExperience |})
    with
    | Some r => {| status := 200; body := search_body q r |}
    | None => {| status := 500;
                 body := JObj [("error", JStr "Failed to perform search")] |}
    end.
Proof.
  intros Hq. unfold search.
  destruct (negb (Js.truthy (query_q q)) || _) eqn:Hguard.
  - exfalso. by apply Hq, search_guard.
  - reflexivity.
Qed.

Lemma bucket_holds_iff (q : Query) (category : string) (hits page : list json) :
  bucket (default "all" (query_type q)) category (search_take q) (search_skip q) hits
  = Some page
  ↔ bucket_holds q category hits page.
Proof.
  unfold bucket, bucket_holds.
  destruct (selected _ category); [done|]. split; congruence.
Qed.

Lemma window_defaults {A} (rows : list A) :
  window (Some 20) (Some 0) rows = Some (take 20 rows).
Proof. reflexivity. Qed.

(** C6: GET /api/search answers 400 exactly when q is missing or blank.
    Otherwise it answers 200 or 500, and in a 200 answer each bucket of the
    results is the page of its category's hits when type selects the
    category (type is all, or names it) and is empty when it does not. So
    with type=projects the profiles, skills and workExperience buckets are
    empty, and with type=all (or no type) all four categories run. With
    limit and offset absent the answer is a 200. *)
Theorem search_contract (q : Query) (st : Store) :
  (missing_or_blank q →
   search q st
   = {| status := 400;
        body := JObj [("error", JStr "Search query is required")] |})
  ∧ (status (search q st) = 400%nat → missing_or_blank q)
  ∧ (¬ missing_or_blank q →
     search q st
     = {| status := 500;
          body := JObj [("error", JStr "Failed to perform search")] |}
     ∨ ∃ r,
         search q st = {| status := 200; body := search_body q r |}
         ∧ bucket_holds q "profiles" (profile_hits (search_term q) st)
                        (res_profiles r)
         ∧ bucket_holds q "projects" (project_hits (search_term q) st)
                        (res_projects r)
         ∧ bucket_holds q "skills" (skill_hits (search_term q) st)
                        (res_skills r)
         ∧ bucket_holds q "work" (work_hits (search_term q) st)
                        (res_workExperience r)
         ∧ (query_type q = Some "projects" →
            res_profiles r = [] ∧ res_skills r = []
            ∧ res_workExperience r = [])
         ∧ (query_type q = Some "all" ∨ query_type q = None →
            window (search_take q) (search_skip q)
                   (profile_hits (search_term q) st) = Some (res_profiles r)
            ∧ window (search_take q) (search_skip q)
                     (project_hits (search_term q) st) = Some (res_projects r)
            ∧ window (search_take q) (search_skip q)
                     (skill_hits (search_term q) st) = Some (res_skills r)
            ∧ window (search_take q) (search_skip q)
                     (work_hits (search_term q) st)
              = Some (res_workExperience r)))
  ∧ (¬ missing_or_blank q → query_limit q = None → query_offset q = None →
     status (search q st) = 200%nat).
Proof.
  split; [|split; [|split]].
  - intros Hq. apply search_guard in Hq. unfold search. by rewrite Hq.
  - intros Hst. destruct (missing_or_blank_dec q) as [|Hq]; [done|].
    rewrite search_run in Hst by done. by case_match.
  - intros Hq. rewrite search_run by done.
    destruct (bucket _ "profiles" _ _ _) as [profiles|] eqn:H1; [|by left].
    destruct (bucket _ "projects" _ _ _) as [projects|] eqn:H2; [|by left].
    destruct (bucket _ "skills" _ _ _) as [skills|] eqn:H3; [|by left].
    destruct (bucket _ "work" _ _ _) as [workExperience|] eqn:H4; [|by left].
    right. eexists. split; [reflexivity|]. simpl.
    apply bucket_holds_iff in H1, H2, H3, H4.
    do 4 (split; [done|]).
    unfold bucket_holds in *. split.
    + intros Ht. rewrite Ht in *. simpl in *. done.
    + intros [Ht | Ht]; rewrite Ht in *; simpl in *; done.
  - intros Hq Hl Ho. rewrite search_run by done.
    unfold bucket, search_take, search_skip. rewrite Hl, Ho.
    cbn [from_option]. rewrite !window_defaults.
    by destruct (selected _ "profiles"), (selected _ "projects"),
      (selected _ "skills"), (selected _ "work").
Qed.

Lemma search_contract_witness :
  search blank_search two_profiles
  = {| status := 400;
       body := JObj [("error", JStr "Search query is required")] |}
  ∧ status (search project_search two_profiles) = 200%nat.
Proof.
  split.
  - apply (proj1 (search_contract blank_search two_profiles)). reflexivity.
  - apply (proj2 (proj2 (proj2 (search_contract project_search two_profiles))));
      [|reflexivity|reflexivity].
    unfold missing_or_blank. simpl. discriminate.
Defined.

(* ===================================================================== *)
(** ** GET /api/projects *)
(* ===================================================================== *)

Lemma digit_value_digit (c : ascii) :
  is_digit c = true →
  Js.digit_value c = Some (Z.of_nat (nat_of_ascii c) - 48)
  ∧ (Z.of_nat (nat_of_ascii c) - 48 <? 10) = true
  ∧ Js.is_space c = false.
Proof.
  destruct c as [[] [] [] [] [] [] [] []]; try discriminate; by vm_compute.
Qed.

Lemma read_digits_decimal (s : string) (seen : bool) (acc : Z) :
  all_digits s = true →
  Js.read_digits 10 s seen acc
  = (seen || negb (String.eqb s ""), decimal acc s).
Proof.
  revert seen acc. induction s as [|c s IH]; intros seen acc Hs.
  - simpl. by rewrite orb_false_r.
  - simpl in Hs. apply andb_true_iff in Hs as [Hc Hs].
    destruct (digit_value_digit c Hc) as (Hv & Hlt & _).
    cbn [Js.read_digits decimal]. rewrite Hv, Hlt, IH by done.
    by rewrite orb_true_r.
Qed.

Lemma no_hex_prefix (c : ascii) (s : string) :
  all_digits (String c s) = true → Js.strip_hex_prefix (String c s) = None.
Proof.
  simpl. intros [Hc Hs]%andb_true_iff. destruct s as [|c' s].
  - by destruct c as [[] [] [] [] [] [] [] []].
  - simpl in Hs. apply andb_true_iff in Hs as [Hc' _].
    destruct c' as [[] [] [] [] [] [] [] []]; try discriminate Hc';
      by destruct c as [[] [] [] [] [] [] [] []].
Qed.

Lemma parse_unsigned_digits (c : ascii) (s : string) :
  all_digits (String c s) = true →
  Js.parse_unsigned (String c s) = Some (decimal 0 (String c s)).
Proof.
  intros Hd. unfold Js.parse_unsigned.
  rewrite no_hex_prefix by done.
  by rewrite read_digits_decimal by done.
Qed.

(** On the strings [isInt] accepts, [parseInt] reads the number that the
    validator compared with its bounds. *)
Lemma parseInt_int_pattern (s : string) :
  int_pattern s = true → Js.parseInt s = Some (to_number s).
Proof.
  destruct s as [|c s]; [done|].
  destruct (Ascii.eqb_spec c "-") as [->|Hminus];
    [|destruct (Ascii.eqb_spec c "+") as [->|Hplus]].
  - destruct s as [|c' s]; [done|]. intros Hd. simpl in Hd.
    change (Js.parseInt (String "-" (String c' s)))
      with (Z.opp <$> Js.parse_unsigned (String c' s)).
    by rewrite parse_unsigned_digits.
  - destruct s as [|c' s]; [done|]. intros Hd. simpl in Hd.
    change (Js.parseInt (String "+" (String c' s)))
      with (Js.parse_unsigned (String c' s)).
    by rewrite parse_unsigned_digits.
  - intros Hp.
    assert (Hd : all_digits (String c s) = true).
    { revert Hp. unfold int_pattern.
      destruct c as [[] [] [] [] [] [] [] []]; try done. }
    pose proof Hd as Hd'. simpl in Hd'.
    apply andb_true_iff in Hd' as [Hc _].
    destruct (digit_value_digit c Hc) as (_ & _ & Hsp).
    assert (Hn : Js.parseInt (String c s) = Js.parse_unsigned (String c s)).
    { unfold Js.parseInt. cbn [Js.trim_start]. rewrite Hsp.
      destruct c as [[] [] [] [] [] [] [] []]; try done. }
    rewrite Hn, parse_unsigned_digits by done.
    f_equal. unfold to_number.
    destruct c as [[] [] [] [] [] [] [] []]; try done.
Qed.

Lemma check_passes (path msg : string) (ok : string → bool) (v : option string) :
  check path msg ok v = [] → ∀ s, v = Some s → ok s = true.
Proof.
  unfold check. intros H s ->. by destruct (ok s).
Qed.

Lemma validated_limit (q : Query) (s : string) :
  validationResult q = [] → query_limit q = Some s →
  isInt (Some 1) (Some 100) s = true.
Proof.
  unfold validationResult. intros H Hs.
  apply app_eq_nil in H as [H _].
  by eapply check_passes.
Qed.

Lemma validated_offset (q : Query) (s : string) :
  validationResult q = [] → query_offset q = Some s →
  isInt (Some 0) None s = true.
Proof.
  unfold validationResult. intros H Hs.
  apply app_eq_nil in H as [_ H]. apply app_eq_nil in H as [H _].
  by eapply check_passes.
Qed.

Lemma requested_limit_bounds (q : Query) :
  validationResult q = [] → 1 ≤ requested_limit q ≤ 100.
Proof.
  intros Hv. unfold requested_limit.
  destruct (query_limit q) as [s|] eqn:Hs; simpl; [|lia].
  pose proof (validated_limit q s Hv Hs) as Hi. unfold isInt in Hi. simpl in Hi.
  apply andb_true_iff in Hi as [[_ H1]%andb_true_iff H2]. lia.
Qed.

Lemma requested_offset_bounds (q : Query) :
  validationResult q = [] → 0 ≤ requested_offset q.
Proof.
  intros Hv. unfold requested_offset.
  destruct (query_offset q) as [s|] eqn:Hs; simpl; [|lia].
  pose proof (validated_offset q s Hv Hs) as Hi. unfold isInt in Hi. simpl in Hi.
  apply andb_true_iff in Hi as [[_ H1]%andb_true_iff _]. lia.
Qed.

(** After [validateQuery], [paginate] yields the requested values. *)
Lemma paginate_validated (q : Query) :
  validationResult q = [] →
  paginate (sanitizeQuery q)
  = {| limit := requested_limit q; offset := requested_offset q |}.
Proof.
  intros Hv.
  pose proof (requested_limit_bounds q Hv) as Hl.
  pose proof (requested_offset_bounds q Hv) as Ho.
  unfold paginate, requested_limit, requested_offset in *. simpl.
  f_equal.
  - destruct (query_limit q) as [s|] eqn:Hs; simpl in *; [|done].
    pose proof (validated_limit q s Hv Hs) as Hi.
    apply andb_true_iff in Hi as [[Hp _]%andb_true_iff _].
    rewrite parseInt_int_pattern by done. simpl.
    destruct (Z.eqb_spec (to_number s) 0); lia.
  - destruct (query_offset q) as [s|] eqn:Hs; simpl in *; [|done].
    pose proof (validated_offset q s Hv Hs) as Hi.
    apply andb_true_iff in Hi as [[Hp _]%andb_true_iff _].
    rewrite parseInt_int_pattern by done. simpl.
    destruct (Z.eqb_spec (to_number s) 0); lia.
Qed.

Lemma window_page {A} (l o : Z) (rows : list A) :
  0 ≤ l → 0 ≤ o →
  window (Some l) (Some o) rows
  = Some (take (Z.to_nat l) (drop (Z.to_nat o) rows)).
Proof.
  intros Hl Ho. unfold window.
  destruct (Z.ltb_spec o 0); [lia|].
  destruct (Z.leb_spec 0 l); [done|lia].
Qed.

Lemma matching_projects_stored (skill : option string) (st : Store) (p : Project) :
  p ∈ matching_projects skill st → p ∈ projects st.
Proof.
  unfold matching_projects, order_desc.
  rewrite merge_sort_Permutation. intros H.
  by apply list_elem_of_filter in H as [_ H].
Qed.

Lemma owner_found (st : Store) (p : Project) :
  projects_owned st → p ∈ projects st → is_Some (owner_of p st).
Proof.
  unfold projects_owned, owner_of. intros Hfk Hp.
  rewrite Forall_forall in Hfk. specialize (Hfk p Hp).
  apply Exists_exists in Hfk as (o & Ho & Hid).
  destruct (list_find_elem_of (λ o, profile_id o = project_profileId p)
              (profiles st) o Ho Hid) as [[i o'] ->].
  by eexists.
Qed.

Lemma page_transformed (st : Store) (skill : option string) (page : list Project) :
  projects_owned st →
  page ⊆ matching_projects skill st →
  ∃ js, mapM (transformed_project st) page = Some js ∧ length js = length page.
Proof.
  intros Hfk Hsub.
  assert (His : is_Some (mapM (transformed_project st) page)).
  { apply mapM_is_Some, Forall_forall. intros p Hp. simpl.
    unfold transformed_project.
    destruct (owner_found st p Hfk) as [o ->]; [|by eexists].
    eapply matching_projects_stored. by apply Hsub. }
  destruct His as [js Hjs]. exists js. split; [done|].
  symmetry. by eapply length_mapM.
Qed.

Lemma has_more_iff {A} (l o : Z) (rows : list A) :
  0 ≤ l → 0 ≤ o →
  (o + l <? Z.of_nat (length rows)) = true
  ↔ drop (Z.to_nat (o + l)) rows ≠ [].
Proof.
  intros Hl Ho. rewrite Z.ltb_lt. split.
  - intros Hlt Hnil. apply (f_equal length) in Hnil.
    rewrite length_drop in Hnil. simpl in Hnil. lia.
  - intros Hne. destruct (Z.lt_ge_cases (o + l) (Z.of_nat (length rows)));
      [done|].
    exfalso. apply Hne. apply drop_ge. lia.
Qed.

(** C7: a GET /api/projects request that passes validation, on a database
    in which every project has its profile, is answered 200 with a page of
    at most [limit] projects, where [limit] and [offset] are the requested
    values (10 and 0 when absent); the page has the size of the window of
    the matching projects that starts at [offset], and [hasMore] is the
    test [offset + limit < total], which holds exactly when matching
    projects remain after the page. A request that fails validation is
    answered 400 with no projects, and whatever the request, a response
    that carries projects carries at most [limit] of them. *)
Theorem projects_page (development : bool) (q : Query) (st : Store) :
  let matches := matching_projects (Js.trim <$> query_skill q) st in
  let total := Z.of_nat (length matches) in
  (validationResult q ≠ [] →
   status (get_projects development q st) = 400%nat
   ∧ field "projects" (body (get_projects development q st)) = None)
  ∧ (validationResult q = [] → projects_owned st →
     (query_limit q = None → requested_limit q = 10)
     ∧ (query_offset q = None → requested_offset q = 0)
     ∧ ∃ page,
         get_projects development q st
         = {| status := 200;
              body :=
                JObj [("projects", JArr page);
                      ("pagination",
                       JObj [("limit", JNum (requested_limit q));
                             ("offset", JNum (requested_offset q));
                             ("total", JNum total);
                             ("hasMore",
                              JBool (requested_offset q + requested_limit q
                                     <? total))])] |}
         ∧ Z.of_nat (length page) ≤ requested_limit q
         ∧ length page
           = length (take (Z.to_nat (requested_limit q))
                       (drop (Z.to_nat (requested_offset q)) matches))
         ∧ ((requested_offset q + requested_limit q <? total) = true
            ↔ drop (Z.to_nat (requested_offset q + requested_limit q)) matches
              ≠ []))
  ∧ (∀ page,
       field "projects" (body (get_projects development q st)) = Some (JArr page) →
       Z.of_nat (length page) ≤ requested_limit q).
Proof.
  intros matches total. split; [|split].
  - intros Hbad. unfold get_projects, handleValidationErrors.
    by destruct (validationResult q).
  - intros Hv Hfk.
    pose proof (requested_limit_bounds q Hv) as Hl.
    pose proof (requested_offset_bounds q Hv) as Ho.
    split; [by unfold requested_limit; intros ->|].
    split; [by unfold requested_offset; intros ->|].
    unfold get_projects. rewrite Hv. cbn [handleValidationErrors].
    rewrite paginate_validated by done.
    unfold projects_handler. cbn [limit offset sanitizeQuery query_skill].
    fold matches. rewrite window_page by lia.
    destruct (page_transformed st (Js.trim <$> query_skill q)
                (take (Z.to_nat (requested_limit q))
                   (drop (Z.to_nat (requested_offset q)) matches)) Hfk)
      as (js & -> & Hlen).
    { intros p Hp. eapply elem_of_sublist; [exact Hp|].
      etrans; [apply sublist_take|apply sublist_drop]. }
    exists js. split; [reflexivity|]. split; [|split; [done|]].
    + rewrite Hlen, length_take. lia.
    + apply has_more_iff; lia.
  - intros page. destruct (validationResult q) as [|e es] eqn:Hv;
      [|by unfold get_projects; rewrite Hv].
    pose proof (requested_limit_bounds q Hv) as Hl.
    pose proof (requested_offset_bounds q Hv) as Ho.
    unfold get_projects. rewrite Hv. cbn [handleValidationErrors].
    rewrite paginate_validated by done.
    unfold projects_handler. cbn [limit offset sanitizeQuery query_skill].
    rewrite window_page by lia.
    destruct (mapM _ _) as [js|] eqn:Hjs.
    + intros [= <-]. apply length_mapM in Hjs.
      rewrite <- Hjs, length_take. lia.
    + by destruct development.
Qed.

Lemma projects_page_witness :
  ∃ page,
    field "projects" (body (get_projects false first_python_project two_profiles))
    = Some (JArr page)
    ∧ Z.of_nat (length page) ≤ 1
    ∧ field "pagination" (body (get_projects false first_python_project two_profiles))
      = Some (JObj [("limit", JNum 1); ("offset", JNum 0); ("total", JNum 2);
                    ("hasMore", JBool true)]).
Proof.
  destruct (proj1 (proj2 (projects_page false first_python_project two_profiles)))
    as (_ & _ & page & Heq & Hlen & _).
  - reflexivity.
  - apply (bool_decide_unpack _). by vm_compute.
  - exists page. rewrite Heq. repeat split. exact Hlen.
Defined.


(* ===================================================================== *)
(** ** More on the auth middleware and login *)
(* ===================================================================== *)

Set Warnings "-clear-no-such-hyp".

(** X1: behind requireAuth, the handler of a non-GET request runs only
    when the request carries a non-empty token that jwt.verify accepts,
    and it then runs on the request with [req.user] set to the decoded
    claims; in every other case the store is left as it was and the answer
    is 401 or 403. *)
Theorem protected_needs_verified_token
    (jwt_verify : string → Verified) (S : Type)
    (h : Request → S → S * Response) (req : Request) (st : S) :
  req_method req ≠ "GET" →
  (∃ token user,
      bearer_token (req_authorization req) = Some token
      ∧ token ≠ ""
      ∧ jwt_verify token = Valid user
      ∧ protected jwt_verify h req st = h (set_user req user) st)
  ∨ (∃ res,
       protected jwt_verify h req st = (st, res)
       ∧ (status res = 401%nat ∨ status res = 403%nat)).
Proof.
  intros Hm. unfold protected. rewrite requireAuth_not_get by done.
  unfold authenticateToken.
  destruct (bearer_token (req_authorization req)) as [token|] eqn:Ht; simpl;
    [|right; eexists; split; [reflexivity|by left]].
  destruct (String.eqb_spec token "") as [->|Hne]; simpl;
    [right; eexists; split; [reflexivity|by left]|].
  destruct (jwt_verify token) as [user|err] eqn:Hv.
  - left. by exists token, user.
  - right. eexists. split; [reflexivity|by right].
Qed.

Lemma protected_needs_verified_token_witness :
  (∃ token user,
      bearer_token (req_authorization post_with_stale_token) = Some token
      ∧ token ≠ ""
      ∧ verify_none_expired token = Valid user
      ∧ protected verify_none_expired
          (λ _ (st : Store), (Db.empty, mkResponse 200 JNull))
          post_with_stale_token two_profiles
        = (Db.empty, mkResponse 200 JNull))
  ∨ (∃ res,
       protected verify_none_expired
         (λ _ (st : Store), (Db.empty, mkResponse 200 JNull))
         post_with_stale_token two_profiles = (two_profiles, res)
       ∧ (status res = 401%nat ∨ status res = 403%nat)).
Proof.
  apply (protected_needs_verified_token verify_none_expired Store
           (λ _ (st : Store), (Db.empty, mkResponse 200 JNull))
           post_with_stale_token two_profiles).
  simpl. discriminate.
Defined.

Lemma find_user_admin (username : option json) (user : User) :
  find_user username = Some user ↔
  username = Some (JStr "admin")
  ∧ user = {| user_id := 1; user_username := "admin";
              user_password :=
                "$2a$10$92IXUNpkjO0rOQ5byMi.Ye4oKoEa3Ro9llC/.og/at2.uheWG/igi";
              user_role := "admin" |}.
Proof.
  unfold find_user, users. cbn [list_find user_username].
  case_decide as Hd; cbn [fmap option_fmap option_map snd] in *.
  - destruct username as [[| | |s| |]|]; try discriminate Hd.
    apply String.eqb_eq in Hd as <-.
    split; [by intros [= <-]|]. by intros [_ ->].
  - split; [done|]. intros [-> _]. done.
Qed.
Lemma login_cases
    (jwt_sign : Claims → option string)
    (bcrypt_compare : string → string → bool) (b : LoginBody) :
  let res := login jwt_sign bcrypt_compare b in
  let hash := "$2a$10$92IXUNpkjO0rOQ5byMi.Ye4oKoEa3Ro9llC/.og/at2.uheWG/igi" in
  let claims := {| claim_id := 1; claim_username := "admin";
                   claim_role := "admin" |} in
  let admin := login_username b = Some (JStr "admin") in
  let accepted :=
    admin
    ∧ ∃ password, login_password b = Some (JStr password) ∧ password ≠ ""
                  ∧ bcrypt_compare password hash = true in
  let no_string :=
    json_truthy (login_password b) = true
    ∧ ∀ password, login_password b ≠ Some (JStr password) in
  (status res = 400%nat ↔
   json_truthy (login_username b) = false
   ∨ json_truthy (login_password b) = false)
  ∧ (status res = 200%nat ↔ accepted ∧ is_Some (jwt_sign claims))
  ∧ (status res = 200%nat → ∃ token, jwt_sign claims = Some token
                              ∧ field "token" (body res) = Some (JStr token))
  ∧ (status res = 500%nat ↔
     (admin ∧ no_string) ∨ (accepted ∧ jwt_sign claims = None))
  ∧ (status res = 500%nat → error_code res = Some (JStr "LOGIN_ERROR"))
  ∧ (status res = 200%nat ∨ status res = 400%nat ∨ status res = 401%nat
     ∨ status res = 500%nat).
Proof.
  intros res hash claims admin accepted no_string.
  subst res admin accepted no_string. unfold login.
  destruct (json_truthy (login_username b)) eqn:Hu.
  2:{ assert (login_username b ≠ Some (JStr "admin"))
        by (intros E; rewrite E in Hu; done).
      simpl. naive_solver. }
  destruct (json_truthy (login_password b)) eqn:Hp.
  2:{ assert (∀ pw, login_password b = Some (JStr pw) → pw = "").
      { intros pw E. rewrite E in Hp. simpl in Hp.
        by destruct (String.eqb_spec pw ""). }
      simpl. naive_solver. }
  cbn [negb orb].
  destruct (find_user (login_username b)) as [user|] eqn:Hf.
  - apply find_user_admin in Hf as [Hadmin ->]. cbn [user_password].
    fold hash.
    destruct (login_password b) as [[| |n|p|items|fields]|] eqn:Hpw;
      try discriminate Hp; cbn [compare_password login_error status body].
    1,2,4,5: unfold error_code; simpl; naive_solver.
    assert (Hpne : p ≠ "") by (intros ->; done).
    destruct (bcrypt_compare p hash) eqn:Hc; cbn [negb].
    + cbn [user_id user_username user_role]. fold claims.
      destruct (jwt_sign claims) as [token|] eqn:Hs;
        unfold error_code, login_error; simpl; naive_solver.
    + assert (∀ pw, JStr p = JStr pw → bcrypt_compare pw hash ≠ true)
        by (intros pw [= <-]; congruence).
      simpl. naive_solver.
  - assert (Hna : login_username b ≠ Some (JStr "admin")).
    { intros E. rewrite E in Hf. done. }
    simpl. naive_solver.
Qed.

(** X2: the outcomes of login, for a body that holds any JSON values. It
    answers 400 exactly when the username or the password is missing or
    falsy; it answers 200 exactly when the username is the string admin,
    the password is a string that bcrypt.compare accepts against the
    stored hash and jwt.sign returns a token, and the body then carries
    that token, signed over the claims id 1, username admin, role admin; it
    answers 500, with the code LOGIN_ERROR, exactly when the username is
    admin and either the password is a truthy value that is not a string,
    which bcrypt.compare rejects, or the password is accepted and the
    signing fails; every other attempt is answered 401. *)
Theorem login_outcomes
    (jwt_sign : Claims → option string)
    (bcrypt_compare : string → string → bool) (b : LoginBody) :
  let res := login jwt_sign bcrypt_compare b in
  let hash := "$2a$10$92IXUNpkjO0rOQ5byMi.Ye4oKoEa3Ro9llC/.og/at2.uheWG/igi" in
  let claims := {| claim_id := 1; claim_username := "admin";
                   claim_role := "admin" |} in
  let admin := login_username b = Some (JStr "admin") in
  let accepted :=
    admin
    ∧ ∃ password, login_password b = Some (JStr password) ∧ password ≠ ""
                  ∧ bcrypt_compare password hash = true in
  let no_string :=
    json_truthy (login_password b) = true
    ∧ ∀ password, login_password b ≠ Some (JStr password) in
  (status res = 400%nat ↔
   json_truthy (login_username b) = false
   ∨ json_truthy (login_password b) = false)
  ∧ (status res = 200%nat ↔ accepted ∧ is_Some (jwt_sign claims))
  ∧ (status res = 200%nat → ∃ token, jwt_sign claims = Some token
                              ∧ field "token" (body res) = Some (JStr token))
  ∧ (status res = 500%nat ↔
     (admin ∧ no_string) ∨ (accepted ∧ jwt_sign claims = None))
  ∧ (status res = 500%nat → error_code res = Some (JStr "LOGIN_ERROR"))
  ∧ (status res = 200%nat ∨ status res = 400%nat ∨ status res = 401%nat
     ∨ status res = 500%nat).
Proof. apply login_cases. Qed.

Lemma split_no_space (token : string) :
  no_space token = true → Js.split " " token = [token].
Proof.
  induction token as [|c token IH]; [done|]. simpl.
  intros [Hc Ht]%andb_true_iff. apply negb_true_iff in Hc.
  rewrite Hc, IH by done. done.
Qed.

Lemma bearer_token_of_header (token : string) :
  no_space token = true →
  bearer_token (Some ("Bearer " ++ token)) = Some token.
Proof.
  intros Ht. unfold bearer_token.
  change ("Bearer " ++ token) with
    (String "B" (String "e" (String "a" (String "r" (String "e" (String "r"
      (String " " token))))))).
  cbn [String.eqb Ascii.eqb Bool.eqb Js.split].
  by rewrite split_no_space.
Qed.

(** X3: login and the gate compose. If jwt.verify accepts the token that
    jwt.sign issues for the admin claims, giving back those claims, and
    that token is not empty and contains no space, then the token of a
    successful login, sent as [Authorization: Bearer <token>] with a
    request of any method other than GET, passes requireAuth, and the
    handler sees [req.user] with id 1, username admin and role admin. *)
Theorem login_token_passes_gate
    (jwt_sign : Claims → option string) (jwt_verify : string → Verified)
    (bcrypt_compare : string → string → bool) (b : LoginBody)
    (method : string) :
  (∀ token,
     jwt_sign {| claim_id := 1; claim_username := "admin";
                 claim_role := "admin" |} = Some token →
     jwt_verify token = Valid {| claim_id := 1; claim_username := "admin";
                                 claim_role := "admin" |}
     ∧ token ≠ "" ∧ no_space token = true) →
  status (login jwt_sign bcrypt_compare b) = 200%nat →
  method ≠ "GET" →
  ∃ token,
    field "token" (body (login jwt_sign bcrypt_compare b)) = Some (JStr token)
    ∧ requireAuth jwt_verify
        {| req_method := method;
           req_authorization := Some ("Bearer " ++ token);
           req_user := None |}
      = Next {| req_method := method;
                req_authorization := Some ("Bearer " ++ token);
                req_user := Some {| claim_id := 1; claim_username := "admin";
                                    claim_role := "admin" |} |}.
Proof.
  intros Hjwt Hok Hm.
  destruct (login_cases jwt_sign bcrypt_compare b) as (_ & _ & Htok & _).
  destruct (Htok Hok) as (token & Hsign & Hfield).
  destruct (Hjwt _ Hsign) as (Hverify & Hne & Hsp).
  exists token. split; [done|].
  rewrite requireAuth_not_get by done.
  unfold authenticateToken. cbn [req_authorization].
  rewrite bearer_token_of_header by done. simpl.
  destruct (String.eqb_spec token ""); [done|]. simpl.
  by rewrite Hverify.
Qed.

Lemma login_token_passes_gate_witness :
  ∃ token,
    field "token"
      (body (login sign_fixed compare_fixed
               {| login_username := Some (JStr "admin");
                  login_password := Some (JStr "password") |})) = Some (JStr token)
    ∧ requireAuth verify_fixed
        {| req_method := "DELETE";
           req_authorization := Some ("Bearer " ++ token);
           req_user := None |}
      = Next {| req_method := "DELETE";
                req_authorization := Some ("Bearer " ++ token);
                req_user := Some {| claim_id := 1; claim_username := "admin";
                                    claim_role := "admin" |} |}.
Proof.
  apply (login_token_passes_gate sign_fixed verify_fixed compare_fixed
           {| login_username := Some (JStr "admin");
              login_password := Some (JStr "password") |}
           "DELETE").
  - intros token [= <-]. by repeat split.
  - reflexivity.
  - discriminate.
Defined.

(* ===================================================================== *)
(** ** More on errorHandler *)
(* ===================================================================== *)

(** X4: what the client sees of an AppError. When the error carries no
    code (null or empty), errorHandler answers with the error's own status
    (500 when that is 0) and message, and the code INTERNAL_ERROR. When it
    carries a code other than the three Prisma codes P2002, P2025 and
    P2003, its own status and message are replaced: the answer is 500 with
    the message Database error and the code DATABASE_ERROR. *)
Theorem errorHandler_AppError
    (development : bool) (message : string) (statusCode : nat)
    (code : option string) :
  ∃ res,
    errorHandler development (AppError message statusCode code) = Some res
    ∧ (Js.truthy code = false →
       status res = (if (statusCode =? 0)%nat then 500%nat else statusCode)
       ∧ field "error" (body res) = Some (JStr message)
       ∧ field "code" (body res) = Some (JStr "INTERNAL_ERROR"))
    ∧ (∀ c, code = Some c → c ≠ "" → c ≠ "P2002" → c ≠ "P2025" → c ≠ "P2003" →
       status res = 500%nat
       ∧ field "error" (body res) = Some (JStr "Database error")
       ∧ field "code" (body res) = Some (JStr "DATABASE_ERROR")).
Proof.
  eexists. split; [reflexivity|]. split.
  - intros Hc. destruct code as [c|]; simpl in *.
    + destruct (String.eqb_spec c ""); [subst|done]. simpl.
      by destruct statusCode.
    + by destruct statusCode.
  - intros c -> H0 H1 H2 H3. unfold prisma_case. simpl.
    destruct (String.eqb_spec c ""); [done|].
    destruct (String.eqb_spec c "P2002"); [done|].
    destruct (String.eqb_spec c "P2025"); [done|].
    destruct (String.eqb_spec c "P2003"); [done|].
    done.
Qed.

(** X5: what errorHandler lets out. The body has a [stack] field exactly
    in development mode. An error that is not operational, has no code and
    is not named JsonWebTokenError, TokenExpiredError, ValidationError or
    CastError is answered 500 with the fixed message Something went wrong
    and the code INTERNAL_ERROR, so that outside development its own
    message does not reach the client. *)
Theorem errorHandler_discloses
    (development : bool) (err : JsError) (res : Response) :
  errorHandler development err = Some res →
  field "stack" (body res)
  = (if development then Some (JStr (err_stack err)) else None)
  ∧ (err_isOperational err = false →
     Js.truthy (err_code err) = false →
     err_name err ≠ "JsonWebTokenError" →
     err_name err ≠ "TokenExpiredError" →
     err_name err ≠ "ValidationError" →
     err_name err ≠ "CastError" →
     res = {| status := 500;
              body := JObj ([("error", JStr "Something went wrong");
                             ("code", JStr "INTERNAL_ERROR")]
                            ++ (if development
                                then [("stack", JStr (err_stack err))]
                                else [])) |}).
Proof.
  unfold errorHandler. intros H.
  apply bind_Some in H as (error & Herror & H). injection H as <-.
  split; [by destruct development|].
  intros Hop Hcode Hn1 Hn2 Hn3 Hn4. revert Herror.
  rewrite Hcode.
  destruct (String.eqb_spec (err_name err) "JsonWebTokenError"); [done|].
  destruct (String.eqb_spec (err_name err) "TokenExpiredError"); [done|].
  destruct (String.eqb_spec (err_name err) "ValidationError"); [done|].
  destruct (String.eqb_spec (err_name err) "CastError"); [done|].
  intros [= <-]. by rewrite Hop.
Qed.

Lemma errorHandler_discloses_witness :
  field "stack" (body {| status := 500;
                         body := error_body "Something went wrong" "INTERNAL_ERROR" |})
  = None
  ∧ (err_isOperational type_error = false →
     Js.truthy (err_code type_error) = false →
     err_name type_error ≠ "JsonWebTokenError" →
     err_name type_error ≠ "TokenExpiredError" →
     err_name type_error ≠ "ValidationError" →
     err_name type_error ≠ "CastError" →
     {| status := 500;
        body := error_body "Something went wrong" "INTERNAL_ERROR" |}
     = {| status := 500;
          body := JObj ([("error", JStr "Something went wrong");
                         ("code", JStr "INTERNAL_ERROR")] ++ []) |}).
Proof.
  apply (errorHandler_discloses false type_error
           {| status := 500;
              body := error_body "Something went wrong" "INTERNAL_ERROR" |}).
  reflexivity.
Defined.

(* ===================================================================== *)
(** ** More on validation and pagination *)
(* ===================================================================== *)

(** X6: whatever the query, paginate yields a limit that is at most 100
    and never 0, and an offset that is at least 0; a limit that is absent,
    not a number or 0 becomes 10, and an offset that is absent or not a
    number becomes 0. The limit has no lower bound: a negative limit is
    kept. *)
Theorem paginate_bounds (q : Query) :
  limit (paginate q) ≤ 100
  ∧ limit (paginate q) ≠ 0
  ∧ 0 ≤ offset (paginate q)
  ∧ (query_limit q ≫= Js.parseInt = None ∨ query_limit q ≫= Js.parseInt = Some 0 →
     limit (paginate q) = 10)
  ∧ (query_offset q ≫= Js.parseInt = None → offset (paginate q) = 0)
  ∧ (∀ n, query_limit q ≫= Js.parseInt = Some n → n < 0 →
          limit (paginate q) = n).
Proof.
  unfold paginate, Js.num_or. cbn [limit offset].
  destruct (query_limit q ≫= Js.parseInt) as [n|];
    destruct (query_offset q ≫= Js.parseInt) as [m|];
    repeat match goal with
           | |- context [?x =? 0] => destruct (Z.eqb_spec x 0)
           end;
    repeat split; intros; destruct_or?; simplify_eq; lia.
Qed.


(* ===================================================================== *)
(** ** More on the /api/profile router *)
(* ===================================================================== *)

Lemma filter_all {A} (P : A → Prop) `{!∀ x, Decision (P x)} (l : list A) :
  (∀ x, P x) → filter P l = l.
Proof.
  intros HP. induction l as [|x l IH]; [done|].
  by rewrite filter_cons_True, IH by done.
Qed.

Lemma delete_nothing (st : Store) :
  profiles st = [] →
  profile_deleteMany_all st = Ok 0%nat st.
Proof.
  intros Hnil. unfold profile_deleteMany_all. rewrite Hnil. simpl.
  f_equal. destruct st as [ps ss prs ws n1 n2 n3 n4]. simpl in Hnil. subst ps.
  unfold set_work, set_projects, set_skills, set_profiles.
  cbn [Db.profiles Db.skills Db.projects Db.workExperience Db.next_profile
       Db.next_skill Db.next_project Db.next_work].
  rewrite !filter_all; [done|..]; intros x Hx; by apply elem_of_nil in Hx.
Qed.

Lemma same_rows_refl (st : Store) : same_rows st st.
Proof. by repeat split. Qed.

Lemma failed_step_leaves_rows
    (development : bool) (op : Operation) (st : Store) :
  is_error (serve development (route op) st).2 = true →
  same_rows st (serve development (route op) st).1.
Proof.
  destruct op as [now b|now b| |id|id]; cbn [route].
  - unfold serve, post, Db.bind, profile_findFirst_email, Db.throw, Db.ret,
      profile_create.
    destruct (list_find _ (profiles st)) as [[i p]|];
      cbn [fmap option_fmap option_map snd]; [intros _; apply same_rows_refl|].
    destruct (email_taken _ None st); [intros _; apply rolled_back_rows|].
    destruct (negb (levels_fit _)); [intros _; apply rolled_back_rows|done].
  - destruct (latest_profile st) as [target|] eqn:Hlatest.
    + destruct (email_taken (body_email b) (Some (profile_id target)) st) eqn:Ht.
      * rewrite (put_rolled_back development now b st target) by done.
        intros _. apply same_rows_refl.
      * apply email_not_taken_free in Ht.
        destruct (levels_fit (supplied_skills b)) eqn:Hfit.
        -- by rewrite (put_success development now b st target).
        -- rewrite (put_level_refused development now b st target) by done.
           intros _. apply same_rows_refl.
    + unfold serve, put, Db.bind, profile_findFirst_latest.
      fold (latest_profile st). rewrite Hlatest.
      intros _. apply same_rows_refl.
  - destruct (profiles st) as [|p ps] eqn:Hps.
    + unfold serve, delete, Db.bind. rewrite delete_nothing by done.
      intros _. apply same_rows_refl.
    + unfold serve, delete, Db.bind, profile_deleteMany_all, Db.throw, Db.ret.
      by rewrite Hps.
  - unfold serve, delete_project, Db.bind, Db.throw, Db.ret,
      project_findUnique, project_delete.
    destruct (Js.parseInt id) as [projectId|];
      [|intros _; apply same_rows_refl].
    destruct (list_find _ (projects st)) as [[i p]|];
      cbn [fmap option_fmap option_map snd]; [|intros _; apply same_rows_refl].
    destruct (bool_decide _); [done|intros _; apply same_rows_refl].
  - unfold serve, delete_work, Db.bind, Db.throw, Db.ret,
      workExperience_findUnique, workExperience_delete.
    destruct (Js.parseInt id) as [workId|];
      [|intros _; apply same_rows_refl].
    destruct (list_find _ (workExperience st)) as [[i w]|];
      cbn [fmap option_fmap option_map snd]; [|intros _; apply same_rows_refl].
    destruct (bool_decide _); [done|intros _; apply same_rows_refl].
Qed.

(** X8: a write request whose handler ends in an error status leaves no
    row changed: for POST, PUT and DELETE on /api/profile and for the
    deletion of a project or a work-experience row, whenever the response
    status is 400 or more, the four tables hold exactly the rows they held
    before the request. This covers the failures that come after a write:
    a PUT whose insert is refused has by then updated the profile row and
    deleted the old child rows, and the rollback restores them. *)
Theorem failed_write_has_no_effect
    (development : bool) (op : Operation) (st : Store) :
  is_error (serve development (route op) st).2 = true →
  same_rows st (step development st op).
Proof. apply failed_step_leaves_rows. Qed.

Lemma failed_write_has_no_effect_witness :
  same_rows two_profiles (step false two_profiles (PUT 30 bob_overflow)).
Proof.
  apply (failed_write_has_no_effect false (PUT 30 bob_overflow) two_profiles).
  reflexivity.
Defined.

Lemma filter_imap_none {A B} (P : B → Prop) `{!∀ x, Decision (P x)}
    (g : nat → A → B) (rows : list A) :
  (∀ i x, ¬ P (g i x)) → filter P (imap g rows) = [].
Proof.
  revert g. induction rows as [|x rows IH]; intros g Hg; [done|].
  simpl. rewrite filter_cons_False by apply Hg.
  apply IH. intros i y. apply Hg.
Qed.

Lemma filter_other_profiles (now id : Z) (d : ProfileData) (ps : list Profile) :
  filter (λ p, profile_id p ≠ id)
    ((λ p, if bool_decide (profile_id p = id)
           then updated_profile now d p else p) <$> ps)
  = filter (λ p, profile_id p ≠ id) ps.
Proof.
  induction ps as [|p ps IH]; [done|]. rewrite fmap_cons.
  case_bool_decide as Hid.
  - rewrite !filter_cons_False by (simpl; tauto). exact IH.
  - rewrite !filter_cons_True by done. by rewrite IH.
Qed.

Lemma updated_columns (now id : Z) (d : ProfileData) (ps : list Profile)
    (column : Profile → Z) :
  (∀ p, column (updated_profile now d p) = column p) →
  column <$> ((λ p, if bool_decide (profile_id p = id)
                    then updated_profile now d p else p) <$> ps)
  = column <$> ps.
Proof.
  intros Hc. rewrite <- list_fmap_compose. apply list_fmap_ext.
  intros i p _. simpl. case_bool_decide; [apply Hc|done].
Qed.

(** X9: PUT /api/profile touches the most recently created profile only.
    Whatever the body and whatever the outcome, the skill, project and
    work-experience rows of every other profile are the same before and
    after, the rows of the other profiles are unchanged, and no profile
    changes its id or its creation time. *)
Theorem put_touches_only_target
    (development : bool) (now : Z) (b : ProfileBody) (st : Store)
    (target : Profile) :
  latest_profile st = Some target →
  let st' := step development st (PUT now b) in
  (∀ pid, pid ≠ profile_id target →
          skills_of pid st' = skills_of pid st
          ∧ projects_of pid st' = projects_of pid st
          ∧ work_of pid st' = work_of pid st)
  ∧ filter (λ p, profile_id p ≠ profile_id target) (profiles st')
    = filter (λ p, profile_id p ≠ profile_id target) (profiles st)
  ∧ profile_id <$> profiles st' = profile_id <$> profiles st
  ∧ profile_createdAt <$> profiles st' = profile_createdAt <$> profiles st.
Proof.
  intros Hlatest st'. subst st'. unfold step. cbn [route].
  destruct (email_taken (body_email b) (Some (profile_id target)) st) eqn:Ht.
  { by rewrite (put_rolled_back development now b st target). }
  apply email_not_taken_free in Ht.
  destruct (levels_fit (supplied_skills b)) eqn:Hfit.
  2:{ by rewrite (put_level_refused development now b st target). }
  rewrite (put_success development now b st target) by done.
  unfold cleared_for.
  cbn [fst]. split; [|split; [|split]].
  - intros pid Hpid. unfold skills_of, projects_of, work_of.
    cbn [add_work add_projects add_skills set_work set_projects set_skills
         set_profiles Db.skills Db.projects Db.workExperience].
    rewrite !filter_app.
    rewrite !filter_imap_none by (intros i x; simpl; congruence).
    rewrite !app_nil_r.
    rewrite !list_filter_filter_l by (intros x; simpl; congruence).
    done.
  - cbn [add_work add_projects add_skills set_work set_projects set_skills
         set_profiles Db.profiles].
    apply filter_other_profiles.
  - cbn [add_work add_projects add_skills set_work set_projects set_skills
         set_profiles Db.profiles].
    by apply updated_columns.
  - cbn [add_work add_projects add_skills set_work set_projects set_skills
         set_profiles Db.profiles].
    by apply updated_columns.
Qed.

Lemma put_touches_only_target_witness :
  let st' := step false two_profiles (PUT 30 bob_cleared) in
  (∀ pid, pid ≠ 2 →
          skills_of pid st' = skills_of pid two_profiles
          ∧ projects_of pid st' = projects_of pid two_profiles
          ∧ work_of pid st' = work_of pid two_profiles)
  ∧ filter (λ p, profile_id p ≠ 2) (profiles st')
    = filter (λ p, profile_id p ≠ 2) (profiles two_profiles)
  ∧ profile_id <$> profiles st' = profile_id <$> profiles two_profiles
  ∧ profile_createdAt <$> profiles st'
    = profile_createdAt <$> profiles two_profiles.
Proof.
  apply (put_touches_only_target false 30 bob_cleared two_profiles
           {| profile_id := 2; profile_name := "Bob";
              profile_email := "bob@example.com"; profile_education := None;
              profile_githubUrl := None; profile_linkedinUrl := None;
              profile_portfolioUrl := None; profile_createdAt := 20;
              profile_updatedAt := 20 |}).
  vm_compute. reflexivity.
Defined.




Lemma find_by_id_Some {A} (key : A → Z) (n : Z) (rows : list A) :
  n ∈ key <$> rows ↔ is_Some (list_find (λ r, key r = n) rows).
Proof.
  split.
  - intros (r & -> & Hr)%list_elem_of_fmap. by eapply list_find_elem_of.
  - intros [[i r] Hf]. apply list_find_Some in Hf as (Hr & <- & _).
    apply list_elem_of_fmap. exists r. split; [done|].
    by eapply list_elem_of_lookup_2.
Qed.

Lemma exists_by_id {A} (key : A → Z) (n : Z) (rows : list A) :
  n ∈ key <$> rows → bool_decide (Exists (λ r, key r = n) rows) = true.
Proof.
  intros (r & -> & Hr)%list_elem_of_fmap.
  apply bool_decide_eq_true, Exists_exists. eauto.
Qed.

Lemma delete_project_found (development : bool) (id : string) (n : Z)
    (st : Store) :
  Js.parseInt id = Some n → n ∈ project_id <$> projects st →
  serve development (delete_project id) st
  = (set_projects (filter (λ p, project_id p ≠ n) (projects st)) st,
     {| status := 200;
        body := JObj [("message", JStr "Project deleted successfully")] |}).
Proof.
  intros Hn Hin. unfold serve, delete_project, Db.bind, Db.throw, Db.ret,
    project_findUnique, project_delete. rewrite Hn.
  destruct (proj1 (find_by_id_Some project_id n (projects st)) Hin)
    as [[i p] ->].
  cbn [fmap option_fmap option_map snd].
  by rewrite exists_by_id.
Qed.

Lemma delete_project_missing (development : bool) (id : string) (st : Store) :
  (∀ n, Js.parseInt id = Some n → n ∉ (project_id <$> projects st)) →
  (serve development (delete_project id) st).1 = st
  ∧ status (serve development (delete_project id) st).2 = 500%nat.
Proof.
  intros Hmiss. unfold serve, delete_project, Db.bind, Db.throw, Db.ret,
    project_findUnique, project_delete.
  destruct (Js.parseInt id) as [n|]; [|by destruct development].
  destruct (list_find _ (projects st)) as [[i p]|] eqn:Hf;
    cbn [fmap option_fmap option_map snd]; [|by destruct development].
  exfalso. apply (Hmiss n eq_refl).
  apply find_by_id_Some. by rewrite Hf.
Qed.

Lemma delete_work_found (development : bool) (id : string) (n : Z)
    (st : Store) :
  Js.parseInt id = Some n → n ∈ work_id <$> workExperience st →
  serve development (delete_work id) st
  = (set_work (filter (λ w, work_id w ≠ n) (workExperience st)) st,
     {| status := 200;
        body := JObj [("message",
                       JStr "Work experience deleted successfully")] |}).
Proof.
  intros Hn Hin. unfold serve, delete_work, Db.bind, Db.throw, Db.ret,
    workExperience_findUnique, workExperience_delete. rewrite Hn.
  destruct (proj1 (find_by_id_Some work_id n (workExperience st)) Hin)
    as [[i w] ->].
  cbn [fmap option_fmap option_map snd].
  by rewrite exists_by_id.
Qed.

Lemma delete_work_missing (development : bool) (id : string) (st : Store) :
  (∀ n, Js.parseInt id = Some n → n ∉ (work_id <$> workExperience st)) →
  (serve development (delete_work id) st).1 = st
  ∧ status (serve development (delete_work id) st).2 = 500%nat.
Proof.
  intros Hmiss. unfold serve, delete_work, Db.bind, Db.throw, Db.ret,
    workExperience_findUnique, workExperience_delete.
  destruct (Js.parseInt id) as [n|]; [|by destruct development].
  destruct (list_find _ (workExperience st)) as [[i w]|] eqn:Hf;
    cbn [fmap option_fmap option_map snd]; [|by destruct development].
  exfalso. apply (Hmiss n eq_refl).
  apply find_by_id_Some. by rewrite Hf.
Qed.

(** X11: DELETE /api/profile/projects/:id answers 200 exactly when
    [parseInt(id)] is a number that is the id of a stored project. It then
    removes every project row with that id and nothing else: the other
    projects stay in order, and the profile, skill and work-experience
    tables are untouched. In every other case (an id that does not parse,
    an id that is not stored) the answer is 500 and the database is
    unchanged. *)
Theorem delete_project_effect
    (development : bool) (id : string) (st : Store) :
  let st' := (serve development (delete_project id) st).1 in
  let res := (serve development (delete_project id) st).2 in
  (status res = 200%nat ↔
   ∃ n, Js.parseInt id = Some n ∧ n ∈ project_id <$> projects st)
  ∧ (∀ n, Js.parseInt id = Some n → n ∈ project_id <$> projects st →
          projects st' = filter (λ p, project_id p ≠ n) (projects st)
          ∧ (n ∉ project_id <$> projects st')
          ∧ profiles st' = profiles st
          ∧ Db.skills st' = Db.skills st
          ∧ workExperience st' = workExperience st)
  ∧ (status res ≠ 200%nat → status res = 500%nat ∧ st' = st).
Proof.
  intros st' res. subst st' res.
  destruct (Js.parseInt id) as [n|] eqn:Hn.
  - destruct (decide (n ∈ project_id <$> projects st)) as [Hin|Hnot].
    + rewrite (delete_project_found development id n st Hn Hin).
      split; [split; [eauto|done]|]. split; [|done].
      intros ? [= <-] _. cbn [fst set_projects Db.projects Db.profiles
        Db.skills Db.workExperience].
      repeat split; try done.
      intros (p & Hid & Hp)%list_elem_of_fmap.
      apply list_elem_of_filter in Hp as [Hne _]. done.
    + destruct (delete_project_missing development id st) as [-> Hst].
      { intros ? Hm. rewrite Hn in Hm. by injection Hm as <-. }
      rewrite Hst. split; [|split].
      * split; [done|]. intros (m & [= <-] & Hm). done.
      * intros ? [= <-] Hm. done.
      * done.
  - destruct (delete_project_missing development id st) as [-> Hst].
    { intros ? Hm. rewrite Hn in Hm. done. }
    rewrite Hst. split; [|split].
    + split; [done|]. by intros (m & Hm & _).
    + by intros ? Hm.
    + done.
Qed.

(** X12: DELETE /api/profile/work-experience/:id answers 200 exactly when
    [parseInt(id)] is a number that is the id of a stored work-experience
    row. It then removes every row with that id and nothing else: the other
    rows stay in order, and the profile, skill and project tables are
    untouched. In every other case the answer is 500 and the database is
    unchanged. *)
Theorem delete_work_effect
    (development : bool) (id : string) (st : Store) :
  let st' := (serve development (delete_work id) st).1 in
  let res := (serve development (delete_work id) st).2 in
  (status res = 200%nat ↔
   ∃ n, Js.parseInt id = Some n ∧ n ∈ work_id <$> workExperience st)
  ∧ (∀ n, Js.parseInt id = Some n → n ∈ work_id <$> workExperience st →
          workExperience st' = filter (λ w, work_id w ≠ n) (workExperience st)
          ∧ (n ∉ work_id <$> workExperience st')
          ∧ profiles st' = profiles st
          ∧ Db.skills st' = Db.skills st
          ∧ projects st' = projects st)
  ∧ (status res ≠ 200%nat → status res = 500%nat ∧ st' = st).
Proof.
  intros st' res. subst st' res.
  destruct (Js.parseInt id) as [n|] eqn:Hn.
  - destruct (decide (n ∈ work_id <$> workExperience st)) as [Hin|Hnot].
    + rewrite (delete_work_found development id n st Hn Hin).
      split; [split; [eauto|done]|]. split; [|done].
      intros ? [= <-] _. cbn [fst set_work Db.projects Db.profiles
        Db.skills Db.workExperience].
      repeat split; try done.
      intros (w & Hid & Hw)%list_elem_of_fmap.
      apply list_elem_of_filter in Hw as [Hne _]. done.
    + destruct (delete_work_missing development id st) as [-> Hst].
      { intros ? Hm. rewrite Hn in Hm. by injection Hm as <-. }
      rewrite Hst. split; [|split].
      * split; [done|]. intros (m & [= <-] & Hm). done.
      * intros ? [= <-] Hm. done.
      * done.
  - destruct (delete_work_missing development id st) as [-> Hst].
    { intros ? Hm. rewrite Hn in Hm. done. }
    rewrite Hst. split; [|split].
    + split; [done|]. by intros (m & Hm & _).
    + by intros ? Hm.
    + done.
Qed.

Lemma order_desc_sorted {A} (column : A → Z) (rows : list A) :
  Sorted (λ a b, column b ≤ column a) (order_desc column rows).
Proof.
  unfold order_desc.
  assert (Htotal : Total (λ a b : A, column b ≤ column a))
    by (intros a b; lia).
  apply (Sorted_merge_sort _).
Qed.

Lemma order_desc_perm {A} (column : A → Z) (rows : list A) :
  order_desc column rows ≡ₚ rows.
Proof. unfold order_desc. apply merge_sort_Permutation. Qed.

(** X13: GET /api/profile reads and never writes. With at least one profile
    stored it answers 200 with one entry per stored profile, each stored
    profile having its entry, in an order in which creation times never
    increase; with no profile stored the AppError 404 PROFILES_NOT_FOUND it
    throws reaches the client as 500 DATABASE_ERROR. *)
Theorem get_profiles_lists_all (development : bool) (st : Store) :
  (serve development get_profiles st).1 = st
  ∧ (profiles st = [] →
     status (serve development get_profiles st).2 = 500%nat
     ∧ error_code (serve development get_profiles st).2
       = Some (JStr "DATABASE_ERROR"))
  ∧ (profiles st ≠ [] →
     ∃ listed,
       (serve development get_profiles st).2
       = {| status := 200; body := JArr (transformed_profile st <$> listed) |}
       ∧ listed ≡ₚ profiles st
       ∧ length (transformed_profile st <$> listed) = length (profiles st)
       ∧ Sorted (λ a b, profile_createdAt b ≤ profile_createdAt a) listed
       ∧ ∀ p, p ∈ profiles st →
              transformed_profile st p ∈ transformed_profile st <$> listed).
Proof.
  unfold serve, get_profiles.
  pose proof (order_desc_perm profile_createdAt (profiles st)) as Hperm.
  destruct (length (order_desc profile_createdAt (profiles st)) =? 0)%nat
    eqn:Hlen.
  - apply Nat.eqb_eq in Hlen. rewrite Hperm in Hlen.
    apply nil_length_inv in Hlen.
    split; [done|]. split; [by destruct development|]. done.
  - apply Nat.eqb_neq in Hlen. rewrite Hperm in Hlen.
    split; [done|]. split; [intros E; by rewrite E in Hlen|].
    intros _. exists (order_desc profile_createdAt (profiles st)).
    split; [done|]. split; [done|].
    split; [by rewrite length_fmap, Hperm|].
    split; [apply order_desc_sorted|].
    intros p Hp. apply list_elem_of_fmap. exists p. split; [done|].
    by rewrite Hperm.
Qed.

Lemma post_taken_unchanged (development : bool) (now : Z) (b : ProfileBody)
    (st : Store) :
  body_email b ∈ emails st → (serve development (post now b) st).1 = st.
Proof.
  intros Hin. unfold serve, post, Db.bind, profile_findFirst_email, Db.throw.
  destruct (list_find _ (profiles st)) as [[i p]|] eqn:Hfind;
    cbn [fmap option_fmap option_map snd]; [done|].
  exfalso. apply list_find_None in Hfind.
  unfold emails in Hin. apply list_elem_of_fmap in Hin as (p & Hp & Hin).
  rewrite Forall_forall in Hfind. by apply (Hfind p).
Qed.

Lemma same_rows_eq (st st' : Store) : st' = st → same_rows st st'.
Proof. intros ->. by repeat split. Qed.

Lemma step_store_change (development : bool) (st : Store) (op : Operation) :
  store_change st (step development st op).
Proof.
  unfold step. destruct op as [now b|now b| |id|id]; cbn [route].
  - destruct (decide (body_email b ∈ emails st)) as [Hin|Hfresh].
    + apply Same, same_rows_eq. by apply post_taken_unchanged.
    + destruct (levels_fit (supplied_skills b)) eqn:Hfit.
      * destruct (post_fresh_email_creates development now b st Hfresh Hfit)
          as (st' & -> & Hps & Hss & Hprs & Hws & _).
        by eapply Created.
      * destruct (post_level_refused development now b st Hfresh Hfit)
          as (st' & -> & Hrows & _).
        by apply Same.
  - destruct (latest_profile st) as [target|] eqn:Hlatest.
    + destruct (email_taken (body_email b) (Some (profile_id target)) st) eqn:Ht.
      * apply Same, same_rows_eq.
        by rewrite (put_rolled_back development now b st target).
      * apply email_not_taken_free in Ht.
        destruct (levels_fit (supplied_skills b)) eqn:Hfit.
        -- rewrite (put_success development now b st target) by done.
           eapply (Replaced _ _ now b target); [|done..].
           by apply latest_profile_stored.
        -- apply Same, same_rows_eq.
           by rewrite (put_level_refused development now b st target).
    + apply Same, same_rows_eq. unfold serve, put, Db.bind, profile_findFirst_latest.
      fold (latest_profile st). by rewrite Hlatest.
  - apply Cleared;
      unfold serve, delete, Db.bind, profile_deleteMany_all, Db.throw, Db.ret;
      by destruct (profiles st).
  - destruct (Js.parseInt id) as [n|] eqn:Hn;
      [destruct (decide (n ∈ project_id <$> projects st)) as [Hin|Hnot]|].
    + rewrite (delete_project_found development id n st Hn Hin).
      by eapply (ProjectGone _ _ n).
    + apply Same, same_rows_eq. apply delete_project_missing.
      intros m Hm. rewrite Hn in Hm. by injection Hm as <-.
    + apply Same, same_rows_eq. apply delete_project_missing.
      intros m Hm. by rewrite Hn in Hm.
  - destruct (Js.parseInt id) as [n|] eqn:Hn;
      [destruct (decide (n ∈ work_id <$> workExperience st)) as [Hin|Hnot]|].
    + rewrite (delete_work_found development id n st Hn Hin).
      by eapply (WorkGone _ _ n).
    + apply Same, same_rows_eq. apply delete_work_missing.
      intros m Hm. rewrite Hn in Hm. by injection Hm as <-.
    + apply Same, same_rows_eq. apply delete_work_missing.
      intros m Hm. by rewrite Hn in Hm.
Qed.

(* ===================================================================== *)
(** ** Invariants of the store *)
(* ===================================================================== *)

Lemma Forall_filter_keep {A} (P Q : A → Prop) `{!∀ x, Decision (Q x)}
    (l : list A) :
  Forall P l → Forall P (filter Q l).
Proof.
  rewrite !Forall_forall. intros HP x Hx.
  apply list_elem_of_filter in Hx as [_ Hx]. by apply HP.
Qed.

Lemma Forall_imap_rows {A B} (P : B → Prop) (g : nat → A → B) (rows : list A) :
  Forall (λ x, ∀ i, P (g i x)) rows → Forall P (imap g rows).
Proof.
  revert g. induction rows as [|x rows IH]; intros g Hg; [constructor|].
  apply Forall_cons in Hg as [Hx Hg]. simpl. constructor; [apply Hx|].
  apply IH. eapply Forall_impl; [exact Hg|]. intros y Hy i. apply Hy.
Qed.

Lemma Forall_imap_all {A B} (P : B → Prop) (g : nat → A → B) (rows : list A) :
  (∀ i x, P (g i x)) → Forall P (imap g rows).
Proof.
  intros Hg. apply Forall_imap_rows, Forall_forall. intros x _ i. apply Hg.
Qed.

Lemma children_owned_step (development : bool) (st : Store) (op : Operation) :
  children_owned st → children_owned (step development st op).
Proof.
  intros (Hs & Hp & Hw). unfold children_owned.
  destruct (step_store_change development st op) as
    [(-> & -> & -> & ->) | now b _ _ -> -> -> -> | now b target Hin _ -> -> -> ->
     | -> -> -> -> | n -> -> -> -> | n -> -> -> ->].
  - done.
  - rewrite fmap_app. repeat split; apply Forall_app; split;
      try (apply Forall_imap_all; intros i x; simpl;
           apply elem_of_app; right; by apply list_elem_of_singleton);
      (eapply Forall_impl; [eassumption|]); intros x Hx; simpl in *;
      apply elem_of_app; by left.
  - rewrite (updated_columns _ _ _ _ profile_id) by done.
    assert (Ht : profile_id target ∈ profile_id <$> profiles st)
      by (apply list_elem_of_fmap; eauto).
    repeat split; apply Forall_app; split;
      try (by apply Forall_filter_keep);
      apply Forall_imap_all; intros i x; exact Ht.
  - repeat split; apply Forall_forall; intros x Hx;
      apply list_elem_of_filter in Hx as [Hnot Hx]; exfalso; apply Hnot.
    + rewrite Forall_forall in Hs. by apply Hs.
    + rewrite Forall_forall in Hp. by apply Hp.
    + rewrite Forall_forall in Hw. by apply Hw.
  - repeat split; try done. by apply Forall_filter_keep.
  - repeat split; try done. by apply Forall_filter_keep.
Qed.

Lemma skill_of_input_level (s : SkillInput) :
  sd_proficiencyLevel (skill_of_input s) ≠ 0.
Proof.
  destruct s as [name|name [level|]]; simpl; try done.
  by destruct (Z.eqb_spec level 0).
Qed.

Lemma int4_bounds (n : Z) :
  int4 n = true ↔ -2147483648 ≤ n ≤ 2147483647.
Proof. unfold int4. rewrite andb_true_iff, !Z.leb_le. done. Qed.

Lemma supplied_levels (b : ProfileBody) (pid first : Z) :
  levels_fit (supplied_skills b) = true →
  Forall (λ s, skill_proficiencyLevel s ≠ 0
               ∧ -2147483648 ≤ skill_proficiencyLevel s ≤ 2147483647)
         (imap (skill_row pid first) (supplied_skills b)).
Proof.
  intros Hfit. apply Forall_imap_rows, Forall_forall. intros d Hd i. simpl.
  split.
  - unfold supplied_skills in Hd.
    apply list_elem_of_fmap in Hd as (s & -> & _). apply skill_of_input_level.
  - apply int4_bounds. unfold levels_fit in Hfit.
    rewrite forallb_forall in Hfit. apply Hfit. by apply list_elem_of_In.
Qed.

Lemma levels_valid_step (development : bool) (st : Store) (op : Operation) :
  levels_valid st → levels_valid (step development st op).
Proof.
  unfold levels_valid. intros Hl.
  destruct (step_store_change development st op) as
    [(_ & -> & _) | now b _ Hfit _ -> _ _ | now b target _ Hfit _ -> _ _
     | _ -> _ _ | n _ -> _ _ | n _ -> _ _]; try done.
  - apply Forall_app. split; [done|by apply supplied_levels].
  - apply Forall_app.
    split; [by apply Forall_filter_keep|by apply supplied_levels].
  - by apply Forall_filter_keep.
Qed.

(** X14: referential integrity is an invariant of the write operations: if
    every skill, project and work-experience row belongs to a stored
    profile, the same holds after POST, PUT or DELETE on /api/profile and
    after the deletion of a project or a work-experience row. *)
Theorem children_owned_preserved
    (development : bool) (st : Store) (op : Operation) :
  children_owned st → children_owned (step development st op).
Proof. apply children_owned_step. Qed.

Lemma two_profiles_owned : children_owned two_profiles.
Proof.
  repeat split; apply (bool_decide_unpack _); by vm_compute.
Qed.

Lemma children_owned_preserved_witness :
  children_owned (step false two_profiles DELETE).
Proof.
  apply (children_owned_preserved false two_profiles DELETE).
  exact two_profiles_owned.
Defined.

(** X15: the write operations keep every stored proficiency level a
    32-bit integer other than 0. A skill given as a string gets level 1
    and an absent level or a level 0 becomes 1; a body with a level outside
    the 32-bit range is refused as a whole, so no such level is ever
    stored. *)
Theorem levels_valid_preserved
    (development : bool) (st : Store) (op : Operation) :
  levels_valid st → levels_valid (step development st op).
Proof. apply levels_valid_step. Qed.

Lemma levels_valid_preserved_witness :
  levels_valid (step false two_profiles (PUT 30 bob_overflow))
  ∧ levels_valid (step false two_profiles (PUT 30 bob_cleared)).
Proof.
  assert (H : levels_valid two_profiles)
    by (apply (bool_decide_unpack _); by vm_compute).
  split.
  - exact (levels_valid_preserved false two_profiles (PUT 30 bob_overflow) H).
  - exact (levels_valid_preserved false two_profiles (PUT 30 bob_cleared) H).
Defined.

Lemma reachable_consistent (development : bool) (ops : list Operation) :
  primary_key (foldl (step development) Db.empty ops)
  ∧ children_owned (foldl (step development) Db.empty ops)
  ∧ levels_valid (foldl (step development) Db.empty ops)
  ∧ NoDup (emails (foldl (step development) Db.empty ops)).
Proof.
  assert (H : ∀ st,
             primary_key st ∧ children_owned st ∧ levels_valid st
             ∧ NoDup (emails st) →
             primary_key (foldl (step development) st ops)
             ∧ children_owned (foldl (step development) st ops)
             ∧ levels_valid (foldl (step development) st ops)
             ∧ NoDup (emails (foldl (step development) st ops))).
  { induction ops as [|op ops IH]; intros st (Hpk & Hown & Hlv & Hem); [done|].
    simpl. apply IH. repeat split.
    - by apply primary_key_preserved.
    - by apply primary_key_preserved.
    - by apply children_owned_step.
    - by apply children_owned_step.
    - by apply children_owned_step.
    - by apply levels_valid_step.
    - by apply step_keeps_emails_unique. }
  apply H. repeat split; constructor.
Qed.

Lemma owned_projects_owned (st : Store) :
  children_owned st → projects_owned st.
Proof.
  intros (_ & Hp & _). unfold projects_owned.
  eapply Forall_impl; [exact Hp|]. intros p Hin. simpl in Hin.
  apply list_elem_of_fmap in Hin as (o & Hid & Ho).
  apply Exists_exists. eauto.
Qed.

(** X16: in every state that the write operations can reach from the empty
    database, GET /api/projects answers every query that passes validation
    with 200 and a page of projects: the profile whose name the handler
    reads for each project is always there. *)
Theorem get_projects_answers_when_reachable
    (development : bool) (ops : list Operation) (q : Query) :
  validationResult q = [] →
  ∃ page,
    get_projects development q (foldl (step development) Db.empty ops)
    = {| status := 200;
         body :=
           JObj [("projects", JArr page);
                 ("pagination",
                  JObj [("limit", JNum (requested_limit q));
                        ("offset", JNum (requested_offset q));
                        ("total",
                         JNum (Z.of_nat
                                 (length
                                    (matching_projects
                                       (Js.trim <$> query_skill q)
                                       (foldl (step development) Db.empty ops)))));
                        ("hasMore",
                         JBool (requested_offset q + requested_limit q
                                <? Z.of_nat
                                     (length
                                        (matching_projects
                                           (Js.trim <$> query_skill q)
                                           (foldl (step development) Db.empty
                                              ops)))))])] |}.
Proof.
  intros Hv. set (st := foldl (step development) Db.empty ops).
  assert (Hfk : projects_owned st).
  { apply owned_projects_owned.
    apply (reachable_consistent development ops). }
  pose proof (requested_limit_bounds q Hv) as Hl.
  pose proof (requested_offset_bounds q Hv) as Ho.
  unfold get_projects. rewrite Hv. cbn [handleValidationErrors].
  rewrite paginate_validated by done.
  unfold projects_handler. cbn [limit offset sanitizeQuery query_skill].
  rewrite window_page by lia.
  destruct (page_transformed st (Js.trim <$> query_skill q)
              (take (Z.to_nat (requested_limit q))
                 (drop (Z.to_nat (requested_offset q))
                    (matching_projects (Js.trim <$> query_skill q) st))) Hfk)
    as (js & -> & _).
  { intros p Hp. eapply elem_of_sublist; [exact Hp|].
    etrans; [apply sublist_take|apply sublist_drop]. }
  by exists js.
Qed.

Lemma get_projects_answers_when_reachable_witness :
  ∃ page,
    get_projects false first_python_project
      (foldl (step false) Db.empty [POST 10 ada; POST 20 bob])
    = {| status := 200;
         body :=
           JObj [("projects", JArr page);
                 ("pagination",
                  JObj [("limit", JNum (requested_limit first_python_project));
                        ("offset", JNum (requested_offset first_python_project));
                        ("total",
                         JNum (Z.of_nat
                                 (length
                                    (matching_projects
                                       (Js.trim <$> query_skill first_python_project)
                                       (foldl (step false) Db.empty
                                          [POST 10 ada; POST 20 bob])))));
                        ("hasMore",
                         JBool (requested_offset first_python_project
                                + requested_limit first_python_project
                                <? Z.of_nat
                                     (length
                                        (matching_projects
                                           (Js.trim <$> query_skill first_python_project)
                                           (foldl (step false) Db.empty
                                              [POST 10 ada; POST 20 bob])))))])] |}.
Proof.
  apply (get_projects_answers_when_reachable false [POST 10 ada; POST 20 bob]
           first_python_project).
  reflexivity.
Defined.

(* ===================================================================== *)
(** ** POST followed by GET *)
(* ===================================================================== *)






(* ===================================================================== *)
(** ** GET /api/stats and GET /api/skills *)
(* ===================================================================== *)

Lemma length_remove_dups_le {A} `{EqDecision A} (l : list A) :
  (length (remove_dups l) ≤ length l)%nat.
Proof.
  induction l as [|x l IH]; [done|]. simpl.
  destruct (decide_rel elem_of x l); simpl; lia.
Qed.

Lemma groupBy_names (rows : list Skill) :
  (groupBy_skillName rows).*1 = remove_dups (skill_skillName <$> rows).
Proof.
  unfold groupBy_skillName. rewrite <- list_fmap_compose.
  rewrite <- (list_fmap_id (remove_dups _)) at 2.
  by apply list_fmap_ext.
Qed.

Lemma groupBy_elem (rows : list Skill) (name : string) (n : nat) :
  (name, n) ∈ groupBy_skillName rows ↔
  name ∈ skill_skillName <$> rows
  ∧ n = length (filter (λ s, skill_skillName s = name) rows).
Proof.
  unfold groupBy_skillName. rewrite list_elem_of_fmap. split.
  - intros (x & Heq & Hx). injection Heq as -> ->.
    rewrite elem_of_remove_dups in Hx. by split.
  - intros [Hin ->]. exists name. split; [done|].
    by rewrite elem_of_remove_dups.
Qed.

Lemma count_positive (rows : list Skill) (name : string) :
  name ∈ skill_skillName <$> rows →
  (1 ≤ length (filter (λ s, skill_skillName s = name) rows))%nat.
Proof.
  intros (s & -> & Hs)%list_elem_of_fmap.
  assert (Hin : s ∈ filter (λ r, skill_skillName r = skill_skillName s) rows)
    by (by apply list_elem_of_filter).
  destruct (filter _ rows); [by apply elem_of_nil in Hin|simpl; lia].
Qed.

Lemma most_frequent_first_sorted (groups : list (string * nat)) :
  StronglySorted (λ a b, (b.2 ≤ a.2)%nat) (most_frequent_first groups).
Proof.
  unfold most_frequent_first.
  assert (Htotal : Total (λ a b : string * nat, (b.2 ≤ a.2)%nat))
    by (intros a b; lia).
  assert (Htrans : Transitive (λ a b : string * nat, (b.2 ≤ a.2)%nat))
    by (intros a b c; lia).
  apply (StronglySorted_merge_sort _).
Qed.

(** X18: GET /api/stats always answers 200. Its [unique_skills] is the
    number of distinct skill names and never exceeds the number of skill
    rows. Its [topSkills] holds at most five entries with pairwise distinct
    names; the frequency of an entry is the number of skill rows with that
    name, which is at least 1; the entries come with frequencies that never
    increase; and no skill name left out of [topSkills] is more frequent
    than a listed one. *)
Theorem stats_top_skills (st : Store) :
  let count := λ name,
    length (filter (λ s, skill_skillName s = name) (Db.skills st)) in
  status (get_stats st) = 200%nat
  ∧ field "total_profiles" (body (get_stats st))
    = Some (JNum (Z.of_nat (length (profiles st))))
  ∧ field "unique_skills" (body (get_stats st))
    = Some (JNum (Z.of_nat (length (remove_dups (skill_skillName
                                                   <$> Db.skills st)))))
  ∧ (length (remove_dups (skill_skillName <$> Db.skills st))
     ≤ length (Db.skills st))%nat
  ∧ ∃ top,
      field "topSkills" (body (get_stats st)) = Some (JArr (top_skill <$> top))
      ∧ (length top ≤ 5)%nat
      ∧ NoDup top.*1
      ∧ (∀ name n, (name, n) ∈ top →
                   name ∈ skill_skillName <$> Db.skills st
                   ∧ n = count name ∧ (1 ≤ n)%nat)
      ∧ StronglySorted (λ a b, (b.2 ≤ a.2)%nat) top
      ∧ (∀ name listed, name ∈ skill_skillName <$> Db.skills st →
                        name ∉ top.*1 → listed ∈ top →
                        (count name ≤ listed.2)%nat).
Proof.
  intros count.
  split; [done|]. split; [done|].
  split; [unfold get_stats; simpl; by rewrite <- groupBy_names, length_fmap|].
  split; [rewrite <- (length_fmap skill_skillName); apply length_remove_dups_le|].
  exists (topSkills st). split; [done|].
  unfold topSkills.
  set (sorted := most_frequent_first (groupBy_skillName (Db.skills st))).
  assert (Hperm : sorted ≡ₚ groupBy_skillName (Db.skills st))
    by apply merge_sort_Permutation.
  assert (Hsorted : StronglySorted (λ a b, (b.2 ≤ a.2)%nat) sorted)
    by apply most_frequent_first_sorted.
  split; [rewrite length_take; lia|].
  split.
  { rewrite fmap_take. eapply sublist_NoDup; [|apply sublist_take].
    rewrite Hperm, groupBy_names. apply NoDup_remove_dups. }
  split.
  { intros name n Hin.
    assert (Hin' : (name, n) ∈ sorted)
      by (eapply elem_of_sublist; [exact Hin|apply sublist_take]).
    rewrite Hperm in Hin'. apply groupBy_elem in Hin' as [Hname ->].
    repeat split; try done. by apply count_positive. }
  split.
  { rewrite <- (take_drop 5 sorted) in Hsorted.
    by apply StronglySorted_app_1_l in Hsorted. }
  intros name listed Hname Hnot Hlisted.
  assert (Hg : (name, count name) ∈ sorted).
  { rewrite Hperm. by apply groupBy_elem. }
  rewrite <- (take_drop 5 sorted) in Hg, Hsorted.
  apply elem_of_app in Hg as [Hg|Hg].
  - exfalso. apply Hnot. apply list_elem_of_fmap. by exists (name, count name).
  - by apply (StronglySorted_app_1_elem_of _ _ _ _ _ Hsorted Hlisted Hg).
Qed.

Lemma by_name_perm (text_le : string → string → bool) (rows : list Skill) :
  by_name text_le rows ≡ₚ rows.
Proof. unfold by_name. apply merge_sort_Permutation. Qed.

(** X19: GET /api/skills. Without a [profile_id] (absent or empty) it
    answers 200 and lists every skill row once; with a [profile_id] whose
    [parseInt] is a number it lists exactly the skill rows of that profile;
    with a [profile_id] that is not a number it answers 500 with a body
    that has an [error] string and no [code]. When the collation order is
    total, the listed names come in that order. *)
Theorem get_skills_lists
    (text_le : string → string → bool) (profile_id : option string)
    (st : Store) :
  (Js.truthy profile_id = false →
   ∃ rows, get_skills text_le profile_id st
           = {| status := 200;
                body := JObj [("skills", JArr (listed_skill <$> rows))] |}
           ∧ rows ≡ₚ Db.skills st)
  ∧ (∀ p n, profile_id = Some p → p ≠ "" → Js.parseInt p = Some n →
     ∃ rows, get_skills text_le profile_id st
             = {| status := 200;
                  body := JObj [("skills", JArr (listed_skill <$> rows))] |}
             ∧ rows ≡ₚ skills_of n st)
  ∧ (∀ p, profile_id = Some p → p ≠ "" → Js.parseInt p = None →
     status (get_skills text_le profile_id st) = 500%nat
     ∧ is_string (field "error" (body (get_skills text_le profile_id st))) = true
     ∧ field "code" (body (get_skills text_le profile_id st)) = None)
  ∧ ((∀ a b, text_le a b = true ∨ text_le b a = true) →
     ∀ rows, field "skills" (body (get_skills text_le profile_id st))
             = Some (JArr (listed_skill <$> rows)) →
     ∃ sorted, listed_skill <$> rows = listed_skill <$> sorted
               ∧ Sorted (λ a b, text_le (skill_skillName a) (skill_skillName b)
                                = true) sorted).
Proof.
  unfold get_skills. split; [|split; [|split]].
  - intros ->. eexists. split; [reflexivity|]. apply by_name_perm.
  - intros p n -> Hp Hn. simpl.
    destruct (String.eqb_spec p ""); [done|]. simpl. rewrite Hn. simpl.
    eexists. split; [reflexivity|]. apply by_name_perm.
  - intros p -> Hp Hn. simpl. destruct (String.eqb_spec p ""); [done|].
    simpl. by rewrite Hn.
  - intros Htotal rows.
    assert (Hs : ∀ l, Sorted (λ a b, text_le (skill_skillName a)
                                       (skill_skillName b) = true)
                        (by_name text_le l)).
    { intros l. unfold by_name.
      assert (Ht : Total (λ a b : Skill,
                            text_le (skill_skillName a) (skill_skillName b)
                            = true))
        by (intros a b; apply Htotal).
      apply (Sorted_merge_sort _). }
    destruct (if Js.truthy profile_id then _ else _) as [found|];
      simpl; [|done].
    intros [= Heq]. exists (by_name text_le found). split; [done|apply Hs].
Qed.

(* ===================================================================== *)
(** ** What the query handlers return *)
(* ===================================================================== *)

Lemma like_any_run (p : list LikeToken) (s : string) :
  like (AnyRun :: p) s
  = like p s
    || match s with
       | String _ rest => like (AnyRun :: p) rest
       | EmptyString => false
       end.
Proof. by destruct s. Qed.

Lemma append_empty (s : string) : "" ++ s = s.
Proof. reflexivity. Qed.

Lemma append_String (c : ascii) (s t : string) :
  String c s ++ t = String c (s ++ t).
Proof. reflexivity. Qed.

Lemma like_after_run (p : list LikeToken) (s : string) :
  like (AnyRun :: p) s = true
  ↔ ∃ before rest, s = before ++ rest ∧ like p rest = true.
Proof.
  induction s as [|c s IH]; rewrite like_any_run.
  - rewrite orb_false_r. split.
    + intros H. by exists "", "".
    + intros (before & rest & Heq & H).
      destruct before; [|done]. rewrite append_empty in Heq. by subst rest.
  - rewrite orb_true_iff, IH. split.
    + intros [H | (before & rest & -> & H)].
      * by exists "", (String c s).
      * by exists (String c before), rest.
    + intros (before & rest & Heq & H). destruct before as [|d before].
      * rewrite append_empty in Heq. subst rest. by left.
      * rewrite append_String in Heq. injection Heq as -> ->. right. eauto.
Qed.

Lemma like_run_only (s : string) : like [AnyRun] s = true.
Proof.
  induction s as [|c s IH]; rewrite like_any_run; [done|].
  by rewrite IH, orb_true_r.
Qed.

Lemma like_literally (text s : string) :
  like (literally text ++ [AnyRun]) s = true ↔ ∃ after, s = text ++ after.
Proof.
  revert s. induction text as [|c text IH]; intros s.
  - simpl literally. rewrite app_nil_l, like_run_only. split; [|done].
    intros _. by exists s.
  - cbn [literally app]. destruct s as [|d s].
    + split; [done|]. by intros (after & H).
    + cbn [like]. rewrite andb_true_iff, IH. split.
      * intros [->%Ascii.eqb_eq (after & ->)]. by exists after.
      * intros (after & Heq). rewrite append_String in Heq.
        injection Heq as -> ->. split; [apply Ascii.eqb_refl|eauto].
Qed.

Lemma lower_plain (c : ascii) :
  Ascii.eqb c "%" = false → Ascii.eqb c "_" = false →
  Ascii.eqb c "\" = false →
  Ascii.eqb (Js.lower c) "%" = false ∧ Ascii.eqb (Js.lower c) "_" = false
  ∧ Ascii.eqb (Js.lower c) "\" = false.
Proof. destruct c as [[] [] [] [] [] [] [] []]; by vm_compute. Qed.

Lemma like_pattern_plain (term rest : string) :
  plain term = true →
  like_pattern (Js.lower_string term ++ rest)
  = (literally (Js.lower_string term) ++ like_pattern rest)%list.
Proof.
  induction term as [|c term IH]; [done|]. cbn [plain].
  rewrite !andb_true_iff, !negb_true_iff. intros [[[H1 H2] H3] Hp].
  destruct (lower_plain c H1 H2 H3) as (L1 & L2 & L3).
  cbn [Js.lower_string literally]. rewrite append_String.
  cbn [like_pattern]. rewrite L3, L1, L2, IH by done. done.
Qed.

(** For a term without [%], [_] and backslash, the pattern match is the
    plain test for a substring. *)
Lemma contains_plain (term column : string) :
  plain term = true →
  contains_insensitive term column = true ↔ contains_text term column.
Proof.
  intros Hp. unfold contains_insensitive, contains_text.
  change (Js.lower_string ("%" ++ term ++ "%"))
    with (String "%" (Js.lower_string (term ++ "%"))).
  assert (Happ : Js.lower_string (term ++ "%") = Js.lower_string term ++ "%").
  { clear Hp. induction term as [|c term IH]; [done|].
    rewrite append_String. cbn [Js.lower_string].
    by rewrite IH, append_String. }
  rewrite Happ.
  change (like_pattern (String "%" (Js.lower_string term ++ "%")))
    with (AnyRun :: like_pattern (Js.lower_string term ++ "%")).
  rewrite like_pattern_plain by done.
  change (like_pattern "%") with [AnyRun].
  rewrite like_after_run. setoid_rewrite like_literally.
  split.
  - intros (before & rest & Heq & after & ->). by exists before, after.
  - intros (before & after & Heq). exists before, (Js.lower_string term ++ after).
    split; [done|]. by exists after.
Qed.

Lemma contains_opt_plain (term : string) (column : option string) :
  plain term = true →
  contains_insensitive_opt term column = true ↔ contains_text_opt term column.
Proof.
  intros Hp. unfold contains_insensitive_opt, contains_text_opt.
  destruct column as [text|]; simpl.
  - rewrite contains_plain by done. split; [eauto|].
    by intros (? & [= <-] & H).
  - split; [done|]. by intros (? & ? & _).
Qed.

Lemma window_subset {A} (t s : option Z) (rows page : list A) :
  window t s rows = Some page →
  page ⊆ rows
  ∧ ∀ n, t = Some n → (length page ≤ Z.abs_nat n)%nat.
Proof.
  unfold window. destruct t as [n|], s as [k|]; try done.
  destruct (k <? 0); [done|].
  destruct (Z.leb_spec 0 n); intros [= <-]; split.
  - intros x Hx. eapply elem_of_sublist; [exact Hx|].
    etrans; [apply sublist_take|apply sublist_drop].
  - intros ? [= <-]. rewrite length_take. lia.
  - intros x Hx. apply list_elem_of_In, in_rev, list_elem_of_In in Hx.
    assert (Hx' : x ∈ rev rows).
    { eapply elem_of_sublist; [exact Hx|].
      etrans; [apply sublist_take|apply sublist_drop]. }
    by apply list_elem_of_In, in_rev, list_elem_of_In in Hx'.
  - intros ? [= <-]. rewrite length_rev, length_take. lia.
Qed.

Lemma bucket_subset (type category : string) (t s : option Z)
    (hits page : list json) :
  bucket type category t s hits = Some page →
  page ⊆ hits ∧ ∀ n, t = Some n → (length page ≤ Z.abs_nat n)%nat.
Proof.
  unfold bucket. destruct (selected type category).
  - apply window_subset.
  - intros [= <-]. split; [by intros x Hx%elem_of_nil|]. intros; simpl; lia.
Qed.

Lemma search_ok_run (q : Query) (st : Store) (r : SearchResults) :
  search q st = {| status := 200; body := search_body q r |} →
  bucket (default "all" (query_type q)) "profiles" (search_take q)
    (search_skip q) (profile_hits (search_term q) st) = Some (res_profiles r)
  ∧ bucket (default "all" (query_type q)) "projects" (search_take q)
      (search_skip q) (project_hits (search_term q) st) = Some (res_projects r)
  ∧ bucket (default "all" (query_type q)) "skills" (search_take q)
      (search_skip q) (skill_hits (search_term q) st) = Some (res_skills r)
  ∧ bucket (default "all" (query_type q)) "work" (search_take q)
      (search_skip q) (work_hits (search_term q) st)
    = Some (res_workExperience r).
Proof.
  intros Hok. destruct (missing_or_blank_dec q) as [Hq|Hq].
  { apply search_guard in Hq. unfold search in Hok. by rewrite Hq in Hok. }
  rewrite search_run in Hok by done.
  destruct (bucket _ "profiles" _ _ _) as [profiles|]; [|done].
  destruct (bucket _ "projects" _ _ _) as [projects|]; [|done].
  destruct (bucket _ "skills" _ _ _) as [skills|]; [|done].
  destruct (bucket _ "work" _ _ _) as [workExperience|]; [|done].
  simpl in Hok. destruct r. unfold search_body, results_json in Hok.
  simpl in Hok. by simplify_eq.
Qed.

Lemma profile_hit_plain (term : string) (p : Profile) :
  plain term = true → profile_hit term p = true ↔ profile_contains term p.
Proof.
  intros Hp. unfold profile_hit, profile_contains.
  rewrite !orb_true_iff, !(contains_plain _ _ Hp), (contains_opt_plain _ _ Hp).
  tauto.
Qed.

Lemma project_hit_plain (term : string) (p : Project) :
  plain term = true → project_hit term p = true ↔ project_contains term p.
Proof.
  intros Hp. unfold project_hit, project_contains.
  by rewrite orb_true_iff, !(contains_plain _ _ Hp).
Qed.

Lemma skill_hit_plain (term : string) (s : Skill) :
  plain term = true → skill_hit term s = true ↔ skill_contains term s.
Proof. intros Hp. by apply contains_plain. Qed.

Lemma work_hit_plain (term : string) (w : WorkExperience) :
  plain term = true → work_hit term w = true ↔ work_contains term w.
Proof.
  intros Hp. unfold work_hit, work_contains.
  rewrite !orb_true_iff, !(contains_plain _ _ Hp), (contains_opt_plain _ _ Hp).
  tauto.
Qed.

(** X20: GET /api/search returns only stored rows that its filter
    accepts. In a 200 answer every entry of a bucket is the rendering of a
    stored row of that category which matches the ILIKE pattern made of the
    trimmed query. When the query has none of the characters [%], [_] and
    backslash, which ILIKE reads as part of a pattern, the row has a
    searched column that contains the query, the case of ASCII letters
    aside: name, email or education for a profile, title or description
    for a project, the name for a skill, company, position or description
    for work experience. When [limit] is a number no bucket holds more
    entries than its absolute value. *)
Theorem search_returns_hits (q : Query) (st : Store) (r : SearchResults) :
  search q st = {| status := 200; body := search_body q r |} →
  (∀ j, j ∈ res_profiles r →
        ∃ p, p ∈ profiles st ∧ j = found_profile p
             ∧ profile_hit (search_term q) p = true
             ∧ (plain (search_term q) = true →
                profile_contains (search_term q) p))
  ∧ (∀ j, j ∈ res_projects r →
          ∃ p, p ∈ projects st ∧ j = found_project p
               ∧ project_hit (search_term q) p = true
               ∧ (plain (search_term q) = true →
                  project_contains (search_term q) p))
  ∧ (∀ j, j ∈ res_skills r →
          ∃ s, s ∈ Db.skills st ∧ j = found_skill s
               ∧ skill_hit (search_term q) s = true
               ∧ (plain (search_term q) = true →
                  skill_contains (search_term q) s))
  ∧ (∀ j, j ∈ res_workExperience r →
          ∃ w, w ∈ workExperience st ∧ j = found_work w
               ∧ work_hit (search_term q) w = true
               ∧ (plain (search_term q) = true →
                  work_contains (search_term q) w))
  ∧ (∀ n, search_take q = Some n →
          (length (res_profiles r) ≤ Z.abs_nat n)%nat
          ∧ (length (res_projects r) ≤ Z.abs_nat n)%nat
          ∧ (length (res_skills r) ≤ Z.abs_nat n)%nat
          ∧ (length (res_workExperience r) ≤ Z.abs_nat n)%nat).
Proof.
  intros Hok. destruct (search_ok_run q st r Hok) as (H1 & H2 & H3 & H4).
  apply bucket_subset in H1 as [S1 L1], H2 as [S2 L2], H3 as [S3 L3],
    H4 as [S4 L4].
  split; [|split; [|split; [|split]]].
  - intros j Hj. apply S1 in Hj. unfold profile_hits in Hj.
    apply list_elem_of_fmap in Hj as (p & -> & Hp).
    apply list_elem_of_filter in Hp as [Hhit Hp].
    exists p. repeat split; try done. intros Hplain. by apply profile_hit_plain.
  - intros j Hj. apply S2 in Hj. unfold project_hits in Hj.
    apply list_elem_of_fmap in Hj as (p & -> & Hp).
    rewrite order_desc_perm in Hp.
    apply list_elem_of_filter in Hp as [Hhit Hp].
    exists p. repeat split; try done. intros Hplain. by apply project_hit_plain.
  - intros j Hj. apply S3 in Hj. unfold skill_hits in Hj.
    apply list_elem_of_fmap in Hj as (s & -> & Hs).
    rewrite order_desc_perm in Hs.
    apply list_elem_of_filter in Hs as [Hhit Hs].
    exists s. repeat split; try done. intros Hplain. by apply skill_hit_plain.
  - intros j Hj. apply S4 in Hj. unfold work_hits, latest_start_first in Hj.
    apply list_elem_of_fmap in Hj as (w & -> & Hw).
    rewrite merge_sort_Permutation in Hw.
    apply list_elem_of_filter in Hw as [Hhit Hw].
    exists w. repeat split; try done. intros Hplain. by apply work_hit_plain.
  - intros n Hn. auto.
Qed.

Lemma search_returns_hits_witness :
  (∀ j, j ∈ res_profiles project_search_results →
        ∃ p, p ∈ profiles two_profiles ∧ j = found_profile p
             ∧ profile_hit (search_term project_search) p = true
             ∧ (plain (search_term project_search) = true →
                profile_contains (search_term project_search) p))
  ∧ (∀ j, j ∈ res_projects project_search_results →
          ∃ p, p ∈ projects two_profiles ∧ j = found_project p
               ∧ project_hit (search_term project_search) p = true
               ∧ (plain (search_term project_search) = true →
                  project_contains (search_term project_search) p))
  ∧ (∀ j, j ∈ res_skills project_search_results →
          ∃ s, s ∈ Db.skills two_profiles ∧ j = found_skill s
               ∧ skill_hit (search_term project_search) s = true
               ∧ (plain (search_term project_search) = true →
                  skill_contains (search_term project_search) s))
  ∧ (∀ j, j ∈ res_workExperience project_search_results →
          ∃ w, w ∈ workExperience two_profiles ∧ j = found_work w
               ∧ work_hit (search_term project_search) w = true
               ∧ (plain (search_term project_search) = true →
                  work_contains (search_term project_search) w))
  ∧ (∀ n, search_take project_search = Some n →
          (length (res_profiles project_search_results) ≤ Z.abs_nat n)%nat
          ∧ (length (res_projects project_search_results) ≤ Z.abs_nat n)%nat
          ∧ (length (res_skills project_search_results) ≤ Z.abs_nat n)%nat
          ∧ (length (res_workExperience project_search_results)
             ≤ Z.abs_nat n)%nat).
Proof.
  apply (search_returns_hits project_search two_profiles
           project_search_results).
  reflexivity.
Defined.

Lemma matching_projects_elem (skill : option string) (st : Store) (p : Project) :
  p ∈ matching_projects skill st ↔
  p ∈ projects st ∧ project_matches skill st p = true.
Proof.
  unfold matching_projects. rewrite order_desc_perm, list_elem_of_filter.
  tauto.
Qed.

Lemma matching_all (st : Store) (skill : option string) :
  Js.truthy skill = false →
  matching_projects skill st ≡ₚ projects st.
Proof.
  intros Hs. unfold matching_projects. rewrite order_desc_perm.
  rewrite filter_all; [done|]. intros p. unfold project_matches.
  by rewrite Hs.
Qed.

Lemma Forall2_source {A B} (P : A → B → Prop) (l : list A) (k : list B) :
  Forall2 P l k → ∀ y, y ∈ k → ∃ x, x ∈ l ∧ P x y.
Proof.
  induction 1 as [|x y l k Hxy _ IH]; intros z Hz.
  - by apply elem_of_nil in Hz.
  - apply elem_of_cons in Hz as [->|Hz].
    + exists x. split; [by left|done].
    + destruct (IH z Hz) as (x' & Hx' & HP). exists x'. split; [by right|done].
Qed.

Lemma project_matches_plain (skill : string) (st : Store) (p : Project) :
  skill ≠ "" → plain skill = true →
  project_matches (Some skill) st p = true ↔ owner_has_skill skill st p.
Proof.
  intros Hne Hp. unfold project_matches, owner_has_skill.
  cbn [Js.truthy default]. destruct (String.eqb_spec skill ""); [done|].
  cbn [negb]. rewrite bool_decide_eq_true, Exists_exists.
  setoid_rewrite Exists_exists. setoid_rewrite (contains_plain _ _ Hp).
  naive_solver.
Qed.

(** X21: GET /api/projects returns only stored projects that its filter
    accepts. Every entry of a returned [projects] array is the rendering of
    a stored project that the where clause accepts. When the trimmed skill
    filter is given and has none of the characters [%], [_] and backslash,
    which ILIKE reads as part of a pattern, the project belongs to a stored
    profile that has a skill whose name contains the filter, the case of
    ASCII letters aside. [pagination.total] counts all accepted projects,
    whatever the limit and the offset, and without a skill filter it is
    the number of stored projects. *)
Theorem projects_page_sound
    (development : bool) (q : Query) (st : Store) (page : list json) :
  field "projects" (body (get_projects development q st)) = Some (JArr page) →
  Forall (λ j, ∃ p, p ∈ projects st
                    ∧ transformed_project st p = Some j
                    ∧ project_matches (Js.trim <$> query_skill q) st p = true
                    ∧ ∀ skill, Js.trim <$> query_skill q = Some skill →
                               skill ≠ "" → plain skill = true →
                               owner_has_skill skill st p) page
  ∧ field "pagination" (body (get_projects development q st)) ≫= field "total"
    = Some (JNum (Z.of_nat (length (matching_projects
                                      (Js.trim <$> query_skill q) st))))
  ∧ (Js.truthy (Js.trim <$> query_skill q) = false →
     length (matching_projects (Js.trim <$> query_skill q) st)
     = length (projects st)).
Proof.
  destruct (validationResult q) as [|e es] eqn:Hv;
    [|by unfold get_projects; rewrite Hv].
  pose proof (requested_limit_bounds q Hv) as Hl.
  pose proof (requested_offset_bounds q Hv) as Ho.
  unfold get_projects. rewrite Hv. cbn [handleValidationErrors].
  rewrite paginate_validated by done.
  unfold projects_handler. cbn [limit offset sanitizeQuery query_skill].
  rewrite window_page by lia.
  destruct (mapM _ _) as [js|] eqn:Hjs; [|by destruct development].
  intros [= <-]. split; [|split; [done|]].
  - apply mapM_Some_1 in Hjs. apply Forall_forall. intros j Hj.
    destruct (Forall2_source _ _ _ Hjs j Hj) as (p & Hp & Hpj).
    assert (Hm : p ∈ matching_projects (Js.trim <$> query_skill q) st).
    { eapply elem_of_sublist; [exact Hp|].
      etrans; [apply sublist_take|apply sublist_drop]. }
    apply matching_projects_elem in Hm as [Hin Hmatch].
    exists p. repeat split; try done.
    intros skill Hskill Hne Hplain. rewrite Hskill in Hmatch.
    by apply project_matches_plain.
  - intros Hs. by rewrite matching_all.
Qed.

Lemma projects_page_sound_witness :
  Forall (λ j, ∃ p, p ∈ projects two_profiles
                    ∧ transformed_project two_profiles p = Some j
                    ∧ project_matches
                        (Js.trim <$> query_skill first_python_project)
                        two_profiles p = true
                    ∧ ∀ skill,
                        Js.trim <$> query_skill first_python_project
                        = Some skill →
                        skill ≠ "" → plain skill = true →
                        owner_has_skill skill two_profiles p)
    [JObj [("id", JNum 1); ("title", JStr "JavaScript Project");
           ("description", JStr "A project built with JavaScript");
           ("links",
            JArr [JObj [("name", JStr "GitHub");
                        ("url", JStr "https://github.com/js-project")]]);
           ("created_at", JNum 10); ("profile_name", JStr "Ada")]]
  ∧ field "pagination"
      (body (get_projects false first_python_project two_profiles))
    ≫= field "total"
    = Some (JNum (Z.of_nat (length (matching_projects
                                      (Js.trim <$> query_skill first_python_project)
                                      two_profiles))))
  ∧ (Js.truthy (Js.trim <$> query_skill first_python_project) = false →
     length (matching_projects (Js.trim <$> query_skill first_python_project)
               two_profiles)
     = length (projects two_profiles)).
Proof.
  apply (projects_page_sound false first_python_project two_profiles).
  reflexivity.
Defined.

(* ===================================================================== *)
(** ** The statuses of the write operations *)
(* ===================================================================== *)






(** X24: a filter of white space only is rejected, not ignored. When the
    [skill] parameter of GET /api/projects is present and blank (empty or
    white space only), validation trims it to the empty string and the
    request is answered 400 VALIDATION_ERROR with a [details] array that
    names [skill], whatever the database holds; the handler does not run. *)
Theorem blank_skill_filter_rejected
    (development : bool) (q : Query) (st : Store) (s : string) :
  query_skill q = Some s →
  blank s = true →
  status (get_projects development q st) = 400%nat
  ∧ error_code (get_projects development q st) = Some (JStr "VALIDATION_ERROR")
  ∧ field "projects" (body (get_projects development q st)) = None
  ∧ ∃ details,
      field "details" (body (get_projects development q st))
      = Some (JArr details)
      ∧ validation_error "skill"
          "Skill filter must be between 1 and 50 characters" "" ∈ details.
Proof.
  intros Hs Hblank. apply trim_empty_iff in Hblank.
  unfold get_projects.
  assert (Hin : validation_error "skill"
                  "Skill filter must be between 1 and 50 characters" ""
                ∈ validationResult q).
  { unfold validationResult. rewrite !elem_of_app. do 4 right.
    cbn [sanitizeQuery query_skill]. rewrite Hs. cbn [fmap option_fmap option_map].
    rewrite Hblank. apply list_elem_of_singleton. reflexivity. }
  destruct (validationResult q) as [|e es]; [by apply elem_of_nil in Hin|].
  cbn [handleValidationErrors]. repeat split. eauto.
Qed.

Lemma blank_skill_filter_rejected_witness :
  status (get_projects false
            {| query_q := None; query_type := None; query_limit := None;
               query_offset := None; query_skill := Some "   " |}
            two_profiles) = 400%nat
  ∧ error_code (get_projects false
                  {| query_q := None; query_type := None; query_limit := None;
                     query_offset := None; query_skill := Some "   " |}
                  two_profiles) = Some (JStr "VALIDATION_ERROR")
  ∧ field "projects"
      (body (get_projects false
               {| query_q := None; query_type := None; query_limit := None;
                  query_offset := None; query_skill := Some "   " |}
               two_profiles)) = None
  ∧ ∃ details,
      field "details"
        (body (get_projects false
                 {| query_q := None; query_type := None; query_limit := None;
                    query_offset := None; query_skill := Some "   " |}
                 two_profiles))
      = Some (JArr details)
      ∧ validation_error "skill"
          "Skill filter must be between 1 and 50 characters" "" ∈ details.
Proof.
  apply (blank_skill_filter_rejected false
           {| query_q := None; query_type := None; query_limit := None;
              query_offset := None; query_skill := Some "   " |}
           two_profiles "   ");
    reflexivity.
Defined.
